(** * Contour terrain engine: tile mosaic, elevation decoding, resampling, mesh

    A shallow embedding of the terrain pipeline of [frontend/app.js]
    ([fetchDEM], [loadSatelliteTexture], [latLonToTile], [tileToLatLon],
    [applyHeightmapToGeometry], [createTerrain], [loadLocationTerrain]) and
    the properties of it that the specification states.

    Number model.  JavaScript numbers are modelled by exact numbers: bytes
    and tile coordinates by [Z], the arithmetic of the decoder, the
    normaliser and the mesh by rationals [Q] (these definitions compute),
    and the Web-Mercator functions, which use [log], [tan], [cos], [exp]
    and [atan], by the real numbers [R].  IEEE-754 rounding is not part of
    that model: a theorem over [Q] or [R] is about the values of the
    source's expressions in exact arithmetic, before the rounding of
    binary64 and before a [Float32Array] rounds what is stored in it.
    Module [Binary64] evaluates the expressions of [latLonToTile],
    [tileToLatLon], [loadLocationTerrain] and [applyHeightmapToGeometry]
    that need no transcendental function in binary64 and binary32, as the
    engine does, and shows where rounding makes a difference.  Where the
    source stores a number into a [Uint8ClampedArray], the conversion the
    array performs is written out. *)

From Stdlib Require Import ZArith QArith Qround Qminmax Qabs Reals Zfloor Lia Lqa Lra.
From Stdlib Require Import List Bool String.
From Stdlib Require Floats.
Import ListNotations.
Import (notations) PrimFloat.

(** Decimal literals denote the nearest binary64 number, as in the
    source. *)
Set Warnings "-inexact-float".

Local Open Scope Z_scope.

(** Linear arithmetic over [Q]; plain [lra] is the one over [R]. *)
Ltac qlra := Lqa.lra.

(* ================================================================= *)
(** * Part I: definitions *)
(* ================================================================= *)

(** ** Rasters: images, canvases and their pixel data *)

Module Raster.

(** One RGBA pixel; every channel is a byte. *)
Record RGBA : Type := mkRGBA { chR : Z; chG : Z; chB : Z; chA : Z }.

(** The value of every pixel of a fresh canvas: transparent black. *)
Definition blank : RGBA := mkRGBA 0 0 0 0.

Definition is_byte (b : Z) : Prop := 0 <= b <= 255.

(** A decoded image ([Image] objects, and canvases used as image
    sources): natural size and a pixel at every coordinate. *)
Record Image : Type := mkImage
  { img_w : Z; img_h : Z; img_px : Z -> Z -> RGBA }.

(** [document.createElement("canvas")] after [width] and [height] are
    set: every pixel is [blank]. *)
Definition createCanvas (w h : Z) : Image :=
  mkImage w h (fun _ _ => blank).

Definition covers (x y w h px py : Z) : bool :=
  (x <=? px) && (px <? x + w) && (y <=? py) && (py <? y + h).

(** [ctx.drawImage(img, x, y)]: the image is copied at its natural size
    with its top-left corner at [(x, y)].  The tiles are opaque and are
    drawn onto regions that are still blank, where the canvas'
    source-over compositing is a plain copy. *)
Definition drawImage (cv img : Image) (x y : Z) : Image :=
  mkImage (img_w cv) (img_h cv)
    (fun px py =>
       if covers x y (img_w img) (img_h img) px py
       then img_px img (px - x) (py - y)
       else img_px cv px py).

Definition channels (p : RGBA) : list Z := [chR p; chG p; chB p; chA p].

(** [ctx.getImageData(0, 0, width, height).data]: the flat RGBA array,
    four bytes a pixel, rows first. *)
Definition getImageData (cv : Image) (width height : Z) : list Z :=
  flat_map
    (fun i => channels (img_px cv (Z.of_nat i mod width) (Z.of_nat i / width)))
    (seq 0 (Z.to_nat (width * height))).

(** [data[k]] for an index inside the array. *)
Definition at_ (data : list Z) (k : nat) : Z := nth k data 0.

End Raster.

(** ** Elevation decoding (fetchDEM, lines 1168-1176) *)

Module Terrarium.
Import Raster.

(** [r * 256 + g + b / 256 - 32768] *)
Definition decode (r g b : Z) : Q :=
  (inject_Z r * 256 + inject_Z g + inject_Z b / 256 - 32768)%Q.

(** The loop over [i < width * height] that fills [elevation]. *)
Definition decodeAll (data : list Z) (n : nat) : list Q :=
  map (fun i =>
         let r := at_ data (i * 4) in
         let g := at_ data (i * 4 + 1) in
         let b := at_ data (i * 4 + 2) in
         decode r g b)
      (seq 0 n).

(** A number that a binary floating-point format with [prec] bits of
    significand and least exponent [emin] holds without rounding: the
    double arithmetic ([prec = 53], [emin = -1074]) and the
    [Float32Array] store ([prec = 24], [emin = -149]) are exact on such
    values. *)
Definition representable (prec emin : Z) (q : Q) : Prop :=
  exists m e : Z,
    Z.abs m < 2 ^ prec /\ emin <= e <= 0 /\ (q == inject_Z m / inject_Z (2 ^ (- e)))%Q.

End Terrarium.

(** ** Promises, as far as the tile fetch uses them *)

Module Promise.

(** A promise once it has settled. *)
Inductive Settled (A : Type) : Type :=
| Fulfilled (a : A)
| Rejected (reason : string).
Arguments Fulfilled {A} a.
Arguments Rejected {A} reason.

(** [p.then(f)] *)
Definition then_ {A B : Type} (p : Settled A) (f : A -> B) : Settled B :=
  match p with
  | Fulfilled a => Fulfilled (f a)
  | Rejected e => Rejected e
  end.

(** [p.catch(h)] *)
Definition catch_ {A : Type} (p : Settled A) (h : string -> A) : Settled A :=
  match p with
  | Fulfilled a => Fulfilled a
  | Rejected e => Fulfilled (h e)
  end.

(** [Promise.all(ps)]: the values in the order of [ps], or the first
    rejection. *)
Fixpoint all {A : Type} (ps : list (Settled A)) : Settled (list A) :=
  match ps with
  | [] => Fulfilled []
  | Fulfilled a :: ps' =>
      match all ps' with
      | Fulfilled l => Fulfilled (a :: l)
      | Rejected e => Rejected e
      end
  | Rejected e :: _ => Rejected e
  end.

Definition is_fulfilled {A : Type} (p : Settled A) : bool :=
  match p with Fulfilled _ => true | Rejected _ => false end.

End Promise.

(** ** Results of code that may throw *)

Inductive Result (A : Type) : Type :=
| Ok (a : A)
| Throw (msg : string).
Arguments Ok {A} a.
Arguments Throw {A} msg.

(** ** The tile mosaic (fetchDEM, lines 1124-1166) *)

Module Mosaic.
Import Raster Promise.

Definition tileSize : Z := 256.

(** The tile services the program asks: the elevation tiles of
    [fetchDEM] and the imagery tiles of [loadSatelliteTexture]. *)
Inductive URL : Type :=
| TerrariumPng (zoom x y : Z)
| SatelliteTile (zoom x y : Z).

(** An inclusive rectangle of tiles. *)
Record TileRange : Type := mkRange
  { xMin : Z; xMax : Z; yMin : Z; yMax : Z }.

(** What a fulfilled tile promise carries: [{ img, x, y }]. *)
Record Tile : Type := mkTile { t_img : Image; t_x : Z; t_y : Z }.

(** [for (let k = lo; k <= hi; k++)] *)
Definition zrange (lo hi : Z) : list Z :=
  map (fun k => lo + Z.of_nat k) (seq 0 (Z.to_nat (hi - lo + 1))).

Definition mosaicWidth (r : TileRange) : Z := (xMax r - xMin r + 1) * tileSize.
Definition mosaicHeight (r : TileRange) : Z := (yMax r - yMin r + 1) * tileSize.
Definition totalTiles (r : TileRange) : Z :=
  (xMax r - xMin r + 1) * (yMax r - yMin r + 1).

Section Fetch.
(** The network: how the promise of [loadImage(url)] settles. *)
Variable loadImage : URL -> Settled Image.
Variable mkURL : Z -> Z -> URL.

(** One entry of [tilePromises]:
    [loadImage(url).then(img => ({img, x, y})).catch(() => null)]. *)
Definition tilePromise (r : TileRange) (x y : Z) : Settled (option Tile) :=
  catch_
    (then_ (loadImage (mkURL x y))
           (fun img => Some (mkTile img ((x - xMin r) * tileSize)
                                       ((y - yMin r) * tileSize))))
    (fun _ => None).

(** The two nested loops, rows outside. *)
Definition tilePromises (r : TileRange) : list (Settled (option Tile)) :=
  flat_map (fun y => map (fun x => tilePromise r x y) (zrange (xMin r) (xMax r)))
           (zrange (yMin r) (yMax r)).

(** [for (const tile of tiles) if (tile?.img) { drawImage; loaded++ }] *)
Definition blit (acc : Image * Z) (tile : option Tile) : Image * Z :=
  match tile with
  | Some t => (drawImage (fst acc) (t_img t) (t_x t) (t_y t), snd acc + 1)
  | None => acc
  end.

Definition composite (cv : Image) (tiles : list (option Tile)) : Image * Z :=
  fold_left blit tiles (cv, 0).

(** The mosaic stage of [fetchDEM]: canvas, fan-out, join, blit, and
    the test that something was loaded. *)
Definition fetchMosaic (r : TileRange) : Result Image :=
  let canvas := createCanvas (mosaicWidth r) (mosaicHeight r) in
  match all (tilePromises r) with
  | Rejected e => Throw e
  | Fulfilled tiles =>
      let '(ctx, loaded) := composite canvas tiles in
      if loaded =? 0 then Throw "No tiles loaded" else Ok ctx
  end.

(** The same stage in [loadSatelliteTexture] (lines 1628-1653), which
    has no such test. *)
Definition fetchMosaicSat (r : TileRange) : Result Image :=
  let canvas := createCanvas (mosaicWidth r) (mosaicHeight r) in
  match all (tilePromises r) with
  | Rejected e => Throw e
  | Fulfilled tiles => Ok (fst (composite canvas tiles))
  end.

(** The tiles of the rectangle, in the order of the loops. *)
Definition coords (r : TileRange) : list (Z * Z) :=
  flat_map (fun y => map (fun x => (x, y)) (zrange (xMin r) (xMax r)))
           (zrange (yMin r) (yMax r)).

(** The number of tile fetches of the rectangle that succeed. *)
Definition succeeded (r : TileRange) : Z :=
  Z.of_nat
    (List.length
       (filter (fun xy => is_fulfilled (loadImage (mkURL (fst xy) (snd xy))))
               (coords r))).

(** The value a tile promise settles to. *)
Definition tileResult (r : TileRange) (x y : Z) : option Tile :=
  match loadImage (mkURL x y) with
  | Fulfilled img =>
      Some (mkTile img ((x - xMin r) * tileSize) ((y - yMin r) * tileSize))
  | Rejected _ => None
  end.

(** The pixels a tile is drawn over. *)
Definition tile_covers (t : Tile) (px py : Z) : bool :=
  covers (t_x t) (t_y t) (img_w (t_img t)) (img_h (t_img t)) px py.

Definition in_range (r : TileRange) (x y : Z) : Prop :=
  xMin r <= x <= xMax r /\ yMin r <= y <= yMax r.

(** Every image the network delivers has the size of a tile. *)
Definition tiles_sized : Prop :=
  forall u img, loadImage u = Fulfilled img ->
                img_w img = tileSize /\ img_h img = tileSize.

End Fetch.

(** Three of four tiles arrive: the tile at (1, 1) of a 2 x 2 rectangle
    fails, the others are uniformly grey. *)
Definition grey_tile (v : Z) : Image :=
mkImage 256 256 (fun _ _ => mkRGBA v v v 255).

Definition three_of_four (u : URL) : Settled Image :=
match u with
| TerrariumPng _ 1 1 => Rejected "404"
| TerrariumPng _ x y => Fulfilled (grey_tile (100 + x + 2 * y))
| SatelliteTile _ _ _ => Rejected "404"
end.

End Mosaic.

(** ** Numbers with the infinities and NaN *)

Module JSNum.

(** A JavaScript number: finite, [Infinity], [-Infinity] or [NaN]. *)
Inductive Num : Type :=
| Fin (q : Q)
| PInf
| NInf
| NaN.

Definition Qltb (x y : Q) : bool :=
  match (x ?= y)%Q with Lt => true | _ => false end.

Definition Qeqb (x y : Q) : bool :=
  match (x ?= y)%Q with Eq => true | _ => false end.

(** [a > b] *)
Definition gt (a b : Num) : bool :=
  match a, b with
  | Fin x, Fin y => Qltb y x
  | PInf, Fin _ => true
  | PInf, NInf => true
  | Fin _, NInf => true
  | _, _ => false
  end.

(** [Math.min(a, b)] *)
Definition min (a b : Num) : Num :=
  match a, b with
  | NaN, _ => NaN
  | _, NaN => NaN
  | NInf, _ => NInf
  | _, NInf => NInf
  | PInf, _ => b
  | _, PInf => a
  | Fin x, Fin y => if Qltb y x then b else a
  end.

(** [Math.max(a, b)] *)
Definition max (a b : Num) : Num :=
  match a, b with
  | NaN, _ => NaN
  | _, NaN => NaN
  | PInf, _ => PInf
  | _, PInf => PInf
  | NInf, _ => b
  | _, NInf => a
  | Fin x, Fin y => if Qltb x y then b else a
  end.

Definition neg (a : Num) : Num :=
  match a with
  | Fin x => Fin (- x)
  | PInf => NInf
  | NInf => PInf
  | NaN => NaN
  end.

(** [a + b] *)
Definition add (a b : Num) : Num :=
  match a, b with
  | NaN, _ => NaN
  | _, NaN => NaN
  | Fin x, Fin y => Fin (x + y)
  | PInf, NInf => NaN
  | NInf, PInf => NaN
  | PInf, _ => PInf
  | _, PInf => PInf
  | NInf, _ => NInf
  | _, NInf => NInf
  end.

(** [a - b] *)
Definition sub (a b : Num) : Num := add a (neg b).

(** The infinity of the sign of [x] ([NaN] for zero). *)
Definition inf_of_sign (x : Q) : Num :=
  match (x ?= 0)%Q with Gt => PInf | Lt => NInf | Eq => NaN end.

(** [a * b] *)
Definition mul (a b : Num) : Num :=
  match a, b with
  | NaN, _ => NaN
  | _, NaN => NaN
  | Fin x, Fin y => Fin (x * y)
  | Fin x, PInf => inf_of_sign x
  | PInf, Fin x => inf_of_sign x
  | Fin x, NInf => inf_of_sign (- x)
  | NInf, Fin x => inf_of_sign (- x)
  | PInf, PInf => PInf
  | NInf, NInf => PInf
  | PInf, NInf => NInf
  | NInf, PInf => NInf
  end.

(** [a / b]: a zero divisor gives an infinity or [NaN], never an
    exception. *)
Definition div (a b : Num) : Num :=
  match a, b with
  | NaN, _ => NaN
  | _, NaN => NaN
  | Fin x, Fin y => if Qeqb y 0 then inf_of_sign x else Fin (x / y)
  | Fin _, _ => Fin 0
  | PInf, Fin y => if Qltb y 0 then NInf else PInf
  | NInf, Fin y => if Qltb y 0 then PInf else NInf
  | _, _ => NaN
  end.

(** Rounding to the nearest integer, halves to the even one: the
    conversion of a [Uint8ClampedArray] store. *)
Definition roundHalfEven (q : Q) : Z :=
  let f := Qfloor q in
  match (q - inject_Z f ?= 1 # 2)%Q with
  | Lt => f
  | Gt => f + 1
  | Eq => if Z.even f then f else f + 1
  end.

(** [data[k] = v] on a [Uint8ClampedArray]. *)
Definition toUint8Clamped (v : Num) : Z :=
  match v with
  | Fin q => Z.max 0 (Z.min 255 (roundHalfEven q))
  | PInf => 255
  | NInf => 0
  | NaN => 0
  end.

End JSNum.

(** ** Valid-data range and normalisation (fetchDEM, lines 1178-1203) *)

Module Normalize.
Import JSNum.

(** The body of [for (const e of elevation)]. *)
Definition minmax_step (acc : Num * Num) (e : Q) : Num * Num :=
  if Qltb 0 e
  then (min (fst acc) (Fin e), max (snd acc) (Fin e))
  else acc.

(** [eMin] and [eMax] after the loop, from [Infinity] and [-Infinity]. *)
Definition minmax (elevation : list Q) : Num * Num :=
  fold_left minmax_step elevation (PInf, NInf).

(** [val] for one sample. *)
Definition normVal (eMin eMax : Num) (e : Q) : Num :=
  if Qltb 0 e && gt eMax eMin
  then mul (div (sub (Fin e) eMin) (sub eMax eMin)) (Fin 255)
  else Fin 0.

(** The four bytes written for one sample. *)
Definition hmPixel (eMin eMax : Num) (e : Q) : list Z :=
  let val := toUint8Clamped (normVal eMin eMax e) in
  [val; val; val; 255].

(** [hmData.data] after the loop. *)
Definition heightmapData (elevation : list Q) : list Z :=
  let '(eMin, eMax) := minmax elevation in
  flat_map (hmPixel eMin eMax) elevation.

(** The samples that count as data. *)
Definition valid (elevation : list Q) : list Q :=
  filter (Qltb 0) elevation.

(** What [eMin] and [eMax] hold once the valid samples [vs] were seen:
    the infinities they start from when there is none, else the least
    and the greatest of them. *)
Definition range_of (vs : list Q) (p : Num * Num) : Prop :=
  (vs = [] /\ p = (PInf, NInf))
  \/ (exists m M : Q,
         p = (Fin m, Fin M) /\ In m vs /\ In M vs
         /\ forall v, In v vs -> (m <= v <= M)%Q).

End Normalize.

(** ** Web-Mercator tiles (latLonToTile, tileToLatLon, lines 1244-1260) *)

Module Geo.
Local Open Scope R_scope.

(** [{ x, y }] *)
Record TileXY : Type := mkTileXY { tx : Z; ty : Z }.

(** [{ lat, lon }] *)
Record LatLon : Type := mkLatLon { lat : R; lon : R }.

(** [{ north, south, east, west }], in degrees. *)
Record Bounds : Type := mkBounds
  { north : R; south : R; east : R; west : R }.

(** [Math.pow(2, z)] for a zoom level. *)
Definition pow2 (z : nat) : R := 2 ^ z.

Definition latLonToTile (lat lon : R) (z : nat) : TileXY :=
  let x := Zfloor ((lon + 180) / 360 * pow2 z) in
  let latRad := lat * PI / 180 in
  let y := Zfloor ((1 - ln (tan latRad + 1 / cos latRad) / PI) / 2 * pow2 z) in
  mkTileXY x y.

Definition tileToLatLon (x y : Z) (z : nat) : LatLon :=
  let n := PI - 2 * PI * IZR y / pow2 z in
  mkLatLon (180 / PI * atan (0.5 * (exp n - exp (- n))))
           (IZR x / pow2 z * 360 - 180).

(** The tile rectangle of a bounding box (fetchDEM, lines 1116-1122;
    loadSatelliteTexture, lines 1616-1622). *)
Definition tileRange (b : Bounds) (zoom : nat) : Mosaic.TileRange :=
  let minTile := latLonToTile (north b) (west b) zoom in
  let maxTile := latLonToTile (south b) (east b) zoom in
  Mosaic.mkRange (Z.min (tx minTile) (tx maxTile)) (Z.max (tx minTile) (tx maxTile))
                 (Z.min (ty minTile) (ty maxTile)) (Z.max (ty minTile) (ty maxTile)).

(** The bounding box of [loadLocationTerrain] (lines 686-692). *)
Definition locationBounds (lat lon : R) : Bounds :=
  let size := 0.15 in
  mkBounds (lat + size) (lat - size) (lon + size) (lon - size).

End Geo.

(** ** Cropping the mosaic to the bounding box
       (fetchDEM, lines 1205-1224; loadSatelliteTexture, lines 1656-1673) *)

Module Resample.
Import Geo.
Local Open Scope R_scope.

Record CropRect : Type := mkCrop
  { cropX : R; cropY : R; cropW : R; cropH : R }.

(** The arguments of
    [drawImage(source, sx, sy, sw, sh, dx, dy, dw, dh)] on a canvas of
    [canvas_w] by [canvas_h] pixels. *)
Record DrawScaled : Type := mkDraw
  { canvas_w : Z; canvas_h : Z; src : CropRect;
    dst_x : Z; dst_y : Z; dst_w : Z; dst_h : Z }.

(** [cropX], [cropY], [cropW], [cropH] as both functions compute them
    from the bounds, the tile rectangle and the size of the mosaic. *)
Definition cropRect (b : Bounds) (r : Mosaic.TileRange) (zoom : nat)
           (width height : Z) : CropRect :=
  let tileBoundsNW := tileToLatLon (Mosaic.xMin r) (Mosaic.yMin r) zoom in
  let tileBoundsSE := tileToLatLon (Mosaic.xMax r + 1) (Mosaic.yMax r + 1) zoom in
  mkCrop
    ((west b - lon tileBoundsNW) / (lon tileBoundsSE - lon tileBoundsNW) * IZR width)
    ((lat tileBoundsNW - north b) / (lat tileBoundsNW - lat tileBoundsSE) * IZR height)
    ((east b - west b) / (lon tileBoundsSE - lon tileBoundsNW) * IZR width)
    ((north b - south b) / (lat tileBoundsNW - lat tileBoundsSE) * IZR height).

(** The final draw of [fetchDEM]: zoom 11, a 512 x 512 canvas. *)
Definition heightmapDraw (b : Bounds) : DrawScaled :=
  let zoom := 11%nat in
  let r := tileRange b zoom in
  let width := Mosaic.mosaicWidth r in
  let height := Mosaic.mosaicHeight r in
  mkDraw 512 512 (cropRect b r zoom width height) 0 0 512 512.

(** The final draw of [loadSatelliteTexture]: zoom 13, a 1024 x 1024
    canvas. *)
Definition satelliteDraw (b : Bounds) : DrawScaled :=
  let zoom := 13%nat in
  let r := tileRange b zoom in
  let width := Mosaic.mosaicWidth r in
  let height := Mosaic.mosaicHeight r in
  mkDraw 1024 1024 (cropRect b r zoom width height) 0 0 1024 1024.

(** The crop rectangle as the specification words it: the edges of the
    target box interpolated linearly against the edges of the source
    footprint. *)
Definition specCrop (b : Bounds)
           (srcWestLon srcEastLon srcNorthLat srcSouthLat : R)
           (srcWidth srcHeight : R) : CropRect :=
  mkCrop ((west b - srcWestLon) / (srcEastLon - srcWestLon) * srcWidth)
         ((srcNorthLat - north b) / (srcNorthLat - srcSouthLat) * srcHeight)
         ((east b - west b) / (srcEastLon - srcWestLon) * srcWidth)
         ((north b - south b) / (srcNorthLat - srcSouthLat) * srcHeight).

(** The specification's crop rectangle for the footprint of a tile
    rectangle: north-west corner [tileToLatLon(xMin, yMin)], south-east
    corner [tileToLatLon(xMax + 1, yMax + 1)], on a mosaic of the size of
    the rectangle. *)
Definition footprintCrop (b : Bounds) (r : Mosaic.TileRange) (zoom : nat) : CropRect :=
let nw := tileToLatLon (Mosaic.xMin r) (Mosaic.yMin r) zoom in
let se := tileToLatLon (Mosaic.xMax r + 1) (Mosaic.yMax r + 1) zoom in
specCrop b (lon nw) (lon se) (lat nw) (lat se)
         (IZR (Mosaic.mosaicWidth r)) (IZR (Mosaic.mosaicHeight r)).

(** The crop rectangle [c], read back through the linear map from the
    pixels of the mosaic to degrees, is the box [b]. *)
Definition reads_back (b : Bounds) (r : Mosaic.TileRange) (zoom : nat)
           (c : CropRect) : Prop :=
let nw := tileToLatLon (Mosaic.xMin r) (Mosaic.yMin r) zoom in
let se := tileToLatLon (Mosaic.xMax r + 1) (Mosaic.yMax r + 1) zoom in
let w := IZR (Mosaic.mosaicWidth r) in
let h := IZR (Mosaic.mosaicHeight r) in
lon nw + cropX c / w * (lon se - lon nw) = west b
/\ lon nw + (cropX c + cropW c) / w * (lon se - lon nw) = east b
/\ lat nw - cropY c / h * (lat nw - lat se) = north b
/\ lat nw - (cropY c + cropH c) / h * (lat nw - lat se) = south b.

End Resample.

(** ** Mesh displacement (createTerrain, applyHeightmapToGeometry,
       lines 990-1060) *)

Module Mesh.
Import Raster.

(** The z coordinates of the vertices of
    [new THREE.PlaneGeometry(size, size, segments, segments)]:
    [(segments + 1)^2] vertices, all flat. *)
Definition planeGeometry (segments : Z) : list Q :=
  repeat 0%Q (Z.to_nat ((segments + 1) * (segments + 1))).

(** The body of the loop of [applyHeightmapToGeometry] for vertex [i]:
    the value given to [positions.setZ(i, _)]. *)
Definition vertexZ (data : list Z) (img_width img_height : Z)
           (width : Z) (scale : Q) (i : Z) : Q :=
  let x := i mod width in
  let y := Qfloor (inject_Z i / inject_Z width) in
  let u := (inject_Z x / inject_Z (width - 1))%Q in
  let v := (inject_Z y / inject_Z (width - 1))%Q in
  let px := Qfloor (u * inject_Z (img_width - 1)) in
  let py := Qfloor (v * inject_Z (img_height - 1)) in
  let idx := (py * img_width + px) * 4 in
  let height := (inject_Z (at_ data (Z.to_nat idx)) / 255)%Q in
  (height * scale)%Q.

(** [applyHeightmapToGeometry(geometry, heightmapTexture, scale)] for a
    texture whose image is [img]; [width] is the square root of the
    number of vertices. *)
Definition applyHeightmapToGeometry (positions : list Q) (img : Image)
           (scale : Q) : list Q :=
  let imgData := getImageData img (img_w img) (img_h img) in
  let count := Z.of_nat (List.length positions) in
  let width := Z.sqrt count in
  map (fun i => vertexZ imgData (img_w img) (img_h img) width scale (Z.of_nat i))
      (seq 0 (List.length positions)).

(** The texel that [vertexZ] reads for a vertex coordinate [k] out of
    [0 .. n] on an axis of [size] texels. *)
Definition sampledTexel (k n size : Z) : Z :=
  Qfloor (inject_Z k / inject_Z n * inject_Z (size - 1)).

(** Modelled from the spec's words: "the nearest texel to (u, v)".  On an
    axis of [size] texels, texel [p] sits at [p / (size - 1)]; the
    nearest one to [u = k / n] is [u * (size - 1)] rounded to the nearest
    integer. *)
Definition nearestTexel (k n size : Z) : Z :=
  Qfloor (inject_Z k / inject_Z n * inject_Z (size - 1) + (1 # 2)).

(** Modelled from the spec's words, with the other reading of a texel's
    place: texel [p] covers [p / size, (p + 1) / size) and its centre is
    at [(p + 1/2) / size]; the texel whose centre is nearest to
    [u = k / n] is the one whose cell holds [u]. *)
Definition nearestCentre (k n size : Z) : Z :=
  Z.min (size - 1) (Qfloor (inject_Z k / inject_Z n * inject_Z size)).

(** Where texel [p] sits on the axis, in either reading. *)
Definition cornerPos (p size : Z) : Q := inject_Z p / inject_Z (size - 1).

Definition centrePos (p size : Z) : Q := (inject_Z p + (1 # 2)) / inject_Z size.

(** A heightmap that is black except for its column 2, which is white. *)
Definition stripe : Image :=
  mkImage 512 512
          (fun x _ => if x =? 2 then mkRGBA 255 255 255 255 else mkRGBA 0 0 0 255).

(** A heightmap of 4 x 4 texels, black except for its last column. *)
Definition lastColumn : Image :=
  mkImage 4 4
          (fun x _ => if x =? 3 then mkRGBA 255 255 255 255 else mkRGBA 0 0 0 255).

End Mesh.

(** ** The application state and the operations on it *)

Module Engine.
Import Raster Promise Mosaic JSNum Geo Resample.

(** A [THREE.Texture] and its image, once it has one. *)
Record Texture : Type := mkTexture { tex_image : option Image }.

(** [new THREE.CanvasTexture(canvas)] *)
Definition CanvasTexture (canvas : Image) : Texture := mkTexture (Some canvas).

(** The material of the mesh: textured by [map], or vertex colours. *)
Inductive Material : Type :=
| Textured (map : Texture)
| VertexColors.

(** The terrain mesh: the heights of its vertices and its material. *)
Record TerrainMesh : Type := mkMesh
{ mesh_z : list Q; mesh_material : Material }.

(** The fields of [state] (lines 9-92) that the terrain pipeline, the
    flood simulation and the elevation profile read or write. *)
Record State : Type := mkState
{ bounds : option Bounds;
  currentLocation : option (string * R * R);
  elevationMin : Q;
  elevationMax : Q;
  colorTexture : option Texture;
  heightmapTexture : option Texture;
  satelliteTexture : option Texture;
  terrain : option TerrainMesh;
  satelliteMode : bool;
  waterLevel : Q;
  waterAnimating : bool }.

(** [state] as the script creates it. *)
Definition initialState : State :=
  mkState None None 0 1000 None None None None false 0 false.

(** Assignments [state.f = v], one for every field of [State] that the
    program assigns; [elevationMin] and [elevationMax] have none, since
    no statement of app.js assigns them. *)
Definition set_bounds (v : option Bounds) (s : State) : State :=
  mkState v (currentLocation s) (elevationMin s) (elevationMax s)
          (colorTexture s) (heightmapTexture s) (satelliteTexture s) (terrain s)
          (satelliteMode s) (waterLevel s) (waterAnimating s).

Definition set_currentLocation (v : option (string * R * R)) (s : State) : State :=
  mkState (bounds s) v (elevationMin s) (elevationMax s)
          (colorTexture s) (heightmapTexture s) (satelliteTexture s) (terrain s)
          (satelliteMode s) (waterLevel s) (waterAnimating s).

Definition set_colorTexture (v : option Texture) (s : State) : State :=
  mkState (bounds s) (currentLocation s) (elevationMin s) (elevationMax s)
          v (heightmapTexture s) (satelliteTexture s) (terrain s)
          (satelliteMode s) (waterLevel s) (waterAnimating s).

Definition set_heightmapTexture (v : option Texture) (s : State) : State :=
  mkState (bounds s) (currentLocation s) (elevationMin s) (elevationMax s)
          (colorTexture s) v (satelliteTexture s) (terrain s)
          (satelliteMode s) (waterLevel s) (waterAnimating s).

Definition set_satelliteTexture (v : option Texture) (s : State) : State :=
  mkState (bounds s) (currentLocation s) (elevationMin s) (elevationMax s)
          (colorTexture s) (heightmapTexture s) v (terrain s)
          (satelliteMode s) (waterLevel s) (waterAnimating s).

Definition set_terrain (v : option TerrainMesh) (s : State) : State :=
  mkState (bounds s) (currentLocation s) (elevationMin s) (elevationMax s)
          (colorTexture s) (heightmapTexture s) (satelliteTexture s) v
          (satelliteMode s) (waterLevel s) (waterAnimating s).

Definition set_satelliteMode (v : bool) (s : State) : State :=
  mkState (bounds s) (currentLocation s) (elevationMin s) (elevationMax s)
          (colorTexture s) (heightmapTexture s) (satelliteTexture s) (terrain s)
          v (waterLevel s) (waterAnimating s).

Definition set_waterLevel (v : Q) (s : State) : State :=
  mkState (bounds s) (currentLocation s) (elevationMin s) (elevationMax s)
          (colorTexture s) (heightmapTexture s) (satelliteTexture s) (terrain s)
          (satelliteMode s) v (waterAnimating s).

Definition set_waterAnimating (v : bool) (s : State) : State :=
  mkState (bounds s) (currentLocation s) (elevationMin s) (elevationMax s)
          (colorTexture s) (heightmapTexture s) (satelliteTexture s) (terrain s)
          (satelliteMode s) (waterLevel s) v.

(** What a function hands back to its caller: nothing, or (what the
    specification's [loadElevation] would hand back) a heightmap with the
    elevation range. *)
Inductive Value : Type :=
| Undefined
| ElevationResult (normalizedHeightmap : Image) (elevationMin elevationMax : Num).

(** What the page shows. *)
Inductive StatusKind : Type := KError | KLoading | KSuccess.

Inductive StatusText : Type :=
| SetBoundsFirst
| FetchingDEM
| LoadedElevation (eMin eMax : Num)
| DemError (msg : string)
| LoadingPlace (name : string)
| LoadingSatellite
| PlaceLoaded (name : string)
| PlaceError (msg : string)
| SatelliteEnabled
| TerrainEnabled
| FloodComplete
| WaterReset.

Inductive UIEvent : Type :=
| ShowLoading (msg : string)
| HideLoading
| SetStatus (text : StatusText) (kind : StatusKind)
| CoordAlt (eMin eMax : Num)
| WaterAlt (realAltitude : Z)
| ProfileStats (realMin realMax : Q).

(** The page: [state], the value of the exaggeration slider, and what was
    written to the document so far (latest last). *)
Record World : Type := mkWorld
{ app : State; exagValue : Q; dom : list UIEvent }.

(** The calls into the browser that the pipeline makes and that can throw.
    The last four are made by [fetchDEM] from line 1226 on, inside its
    [try]: the texture constructor, [createTerrain()] up to its assignment
    of [state.terrain] (lines 991-1023) and after it (lines 1026-1029),
    and the write into the element "coord-alt" (line 1235). *)
Inductive HostCall : Type :=
| CreateCanvas
| GetImageData
| NewFloat32Array
| CreateImageData
| PutImageData
| DrawImageScaled
| NewCanvasTexture
| BuildTerrain
| AddToScene
| WriteCoordAlt.

(** The browser and the network during one run: how tile fetches settle,
    how a scaled [drawImage] resamples, and which calls throw. *)
Record Host : Type := mkHost
{ loadImage : URL -> Settled Image;
  resample : Image -> CropRect -> Z -> Z -> Z -> Z -> RGBA;
  hostFault : HostCall -> option string }.

(** Statements: they change the world and complete or throw; what was
    changed before a throw stays changed. *)
Inductive Outcome (A : Type) : Type :=
| Done (w : World) (a : A)
| Thrown (w : World) (msg : string).
Arguments Done {A} w a.
Arguments Thrown {A} w msg.

Definition M (A : Type) : Type := World -> Outcome A.

Definition ret {A : Type} (a : A) : M A := fun w => Done w a.

Definition bindM {A B : Type} (m : M A) (k : A -> M B) : M B :=
  fun w => match m w with
           | Done w' a => k a w'
           | Thrown w' e => Thrown w' e
           end.

Definition throw {A : Type} (msg : string) : M A := fun w => Thrown w msg.

(** [try { body } catch (err) { handler(err.message) }] *)
Definition tryCatch {A : Type} (body : M A) (handler : string -> M A) : M A :=
  fun w => match body w with
           | Done w' a => Done w' a
           | Thrown w' e => handler e w'
           end.

Definition modify (f : State -> State) : M unit :=
  fun w => Done (mkWorld (f (app w)) (exagValue w) (dom w)) tt.

Definition emit (e : UIEvent) : M unit :=
  fun w => Done (mkWorld (app w) (exagValue w) (dom w ++ [e])) tt.

Definition host (h : Host) (c : HostCall) : M unit :=
  match hostFault h c with
  | Some msg => throw msg
  | None => ret tt
  end.

Definition liftResult {A : Type} (r : Result A) : M A :=
  match r with
  | Ok a => ret a
  | Throw msg => throw msg
  end.

Declare Scope engine_scope.
Delimit Scope engine_scope with engine.
Notation "x <- m ;; k" := (bindM m (fun x => k))
  (at level 61, m at next level, right associativity) : engine_scope.
Notation "m ;; k" := (bindM m (fun _ => k))
  (at level 61, right associativity) : engine_scope.
Local Open Scope engine_scope.

(** [hmCtx.putImageData(hmData, 0, 0)] on a fresh canvas. *)
Definition putImageData (width height : Z) (data : list Z) : Image :=
  mkImage width height
          (fun x y =>
             let k := Z.to_nat ((y * width + x) * 4) in
             mkRGBA (at_ data k) (at_ data (k + 1)) (at_ data (k + 2)) (at_ data (k + 3))).

(** A fresh canvas of the size of the draw, after
    [drawImage(source, sx, sy, sw, sh, 0, 0, dw, dh)]. *)
Definition drawScaled (h : Host) (source : Image) (d : DrawScaled) : Image :=
  mkImage (canvas_w d) (canvas_h d)
          (resample h source (src d) (dst_w d) (dst_h d)).

(** [createTerrain()] (lines 990-1030): a flat 256-segment plane,
    displaced by the heightmap texture if there is one, textured by the
    colour texture if there is one. *)
Definition createTerrain : M unit :=
  fun w =>
    let segments := 256 in
    let exag := exagValue w in
    let geometry := Mesh.planeGeometry segments in
    let displaced :=
      match heightmapTexture (app w) with
      | Some t =>
          match tex_image t with
          | Some img => Mesh.applyHeightmapToGeometry geometry img exag
          | None => geometry
          end
      | None => geometry
      end in
    let material :=
      match colorTexture (app w) with
      | Some c => Textured c
      | None => VertexColors
      end in
    modify (set_terrain (Some (mkMesh displaced material))) w.

(** The [try] block of [fetchDEM] (lines 1116-1236).  Every call into the
    browser that can throw is a [host] step; the call [createTerrain()]
    of line 1228 stands between the two places where it can throw, before
    its assignment of [state.terrain] and after it.  [hideLoading] and
    [setStatus], which the [catch] handler calls as well, do not throw. *)
Definition fetchDEM_try (h : Host) (b : Bounds) : M unit :=
  let zoom := 11%nat in
  let r := tileRange b zoom in
  let width := mosaicWidth r in
  let height := mosaicHeight r in
  host h CreateCanvas ;;
  ctx <- liftResult (fetchMosaic (loadImage h) (TerrariumPng 11) r) ;;
  host h GetImageData ;;
  let imageData := getImageData ctx width height in
  host h NewFloat32Array ;;
  let elevation := Terrarium.decodeAll imageData (Z.to_nat (width * height)) in
  let eMin := fst (Normalize.minmax elevation) in
  let eMax := snd (Normalize.minmax elevation) in
  host h CreateCanvas ;;
  host h CreateImageData ;;
  let hmData := Normalize.heightmapData elevation in
  host h PutImageData ;;
  let hmCanvas := putImageData width height hmData in
  host h CreateCanvas ;;
  host h DrawImageScaled ;;
  let finalCanvas := drawScaled h hmCanvas (heightmapDraw b) in
  host h NewCanvasTexture ;;
  modify (set_heightmapTexture (Some (CanvasTexture finalCanvas))) ;;
  modify (set_colorTexture None) ;;
  host h BuildTerrain ;;
  createTerrain ;;
  host h AddToScene ;;
  emit HideLoading ;;
  emit (SetStatus (LoadedElevation eMin eMax) KSuccess) ;;
  host h WriteCoordAlt ;;
  emit (CoordAlt eMin eMax).

(** [fetchDEM()] (lines 1103-1242); the value is what the function
    returns. *)
Definition fetchDEM (h : Host) : M Value :=
  fun w =>
    match bounds (app w) with
    | None =>
        (emit (SetStatus SetBoundsFirst KError) ;; ret Undefined) w
    | Some b =>
        (emit (ShowLoading "Fetching elevation tiles...") ;;
         emit (SetStatus FetchingDEM KLoading) ;;
         tryCatch (fetchDEM_try h b)
                  (fun msg => emit HideLoading ;;
                              emit (SetStatus (DemError msg) KError)) ;;
         ret Undefined) w
    end.

(** What the [try] block of [fetchDEM] has computed when it reaches the
    assignments of lines 1226-1227 (the final canvas, [eMin], [eMax]), or
    the error thrown before. *)
Definition fetchDEM_computed (h : Host) (b : Bounds) : Result (Image * Num * Num) :=
  let r := tileRange b 11 in
  let width := mosaicWidth r in
  let height := mosaicHeight r in
  match hostFault h CreateCanvas with
  | Some msg => Throw msg
  | None =>
      match fetchMosaic (loadImage h) (TerrariumPng 11) r with
      | Throw msg => Throw msg
      | Ok ctx =>
          match hostFault h GetImageData with
          | Some msg => Throw msg
          | None =>
              match hostFault h NewFloat32Array with
              | Some msg => Throw msg
              | None =>
                  match hostFault h CreateImageData with
                  | Some msg => Throw msg
                  | None =>
                      match hostFault h PutImageData with
                      | Some msg => Throw msg
                      | None =>
                          match hostFault h DrawImageScaled with
                          | Some msg => Throw msg
                          | None =>
                              match hostFault h NewCanvasTexture with
                              | Some msg => Throw msg
                              | None =>
                                  let elevation :=
                                    Terrarium.decodeAll (getImageData ctx width height)
                                                        (Z.to_nat (width * height)) in
                                  let hmCanvas :=
                                    putImageData width height
                                                 (Normalize.heightmapData elevation) in
                                  Ok (drawScaled h hmCanvas (heightmapDraw b),
                                      fst (Normalize.minmax elevation),
                                      snd (Normalize.minmax elevation))
                              end
                          end
                      end
                  end
              end
          end
      end
  end.

(** The first error thrown after the assignments, by the calls of lines
    1228-1236, if one is. *)
Definition lateFault (h : Host) : option string :=
  match hostFault h BuildTerrain with
  | Some msg => Some msg
  | None =>
      match hostFault h AddToScene with
      | Some msg => Some msg
      | None => hostFault h WriteCoordAlt
      end
  end.

(** The outcome of the whole [try] block of [fetchDEM]: what it has
    computed if it runs to its end, or the error thrown on the way. *)
Definition fetchDEM_stages (h : Host) (b : Bounds) : Result (Image * Num * Num) :=
  match fetchDEM_computed h b with
  | Throw msg => Throw msg
  | Ok result =>
      match lateFault h with
      | Some msg => Throw msg
      | None => Ok result
      end
  end.

(** The page once [fetchDEM] has stored the heightmap [final], rebuilt the
    mesh and reported the range: what lines 1226-1236 do to it. *)
Definition installed (final : Image) (eMin eMax : Num) (w : World) : World :=
  let s1 := set_colorTexture None
              (set_heightmapTexture (Some (CanvasTexture final)) (app w)) in
  let mesh := mkMesh (Mesh.applyHeightmapToGeometry (Mesh.planeGeometry 256) final
                                                    (exagValue w))
                     VertexColors in
  mkWorld (set_terrain (Some mesh) s1) (exagValue w)
          (dom w ++ [HideLoading;
                     SetStatus (LoadedElevation eMin eMax) KSuccess;
                     CoordAlt eMin eMax]).

(** The page with further writes to the document. *)
Definition shown (events : list UIEvent) (w : World) : World :=
  mkWorld (app w) (exagValue w) (dom w ++ events).

(** The calls that [fetchDEM] makes before it assigns
    [state.heightmapTexture] (line 1226). *)
Definition beforeStore (c : HostCall) : bool :=
  match c with
  | BuildTerrain | AddToScene | WriteCoordAlt => false
  | _ => true
  end.

(** The ways a run of [fetchDEM] fails before it has stored anything: no
    bounds, no tile, or a call into the browser that throws before the
    assignments. *)
Definition fails_before_store (h : Host) (w : World) : Prop :=
  bounds (app w) = None
  \/ exists b, bounds (app w) = Some b
               /\ (succeeded (loadImage h) (TerrariumPng 11) (tileRange b 11) = 0
                   \/ exists c msg, beforeStore c = true /\ hostFault h c = Some msg).

(** The way it fails afterwards: everything was computed and stored, and
    a call of lines 1228-1236 throws. *)
Definition fails_after_store (h : Host) (w : World) : Prop :=
  exists b result msg,
    bounds (app w) = Some b
    /\ fetchDEM_computed h b = Ok result
    /\ lateFault h = Some msg.

(** The ways a run of [fetchDEM] fails. *)
Definition load_fails (h : Host) (w : World) : Prop :=
  fails_before_store h w \/ fails_after_store h w.

(** [loadSatelliteTexture()] (lines 1610-1678). *)
Definition loadSatelliteTexture (h : Host) : M Value :=
  fun w =>
    match bounds (app w) with
    | None => ret Undefined w
    | Some b =>
        (let zoom := 13%nat in
         let r := tileRange b zoom in
         host h CreateCanvas ;;
         canvas <- liftResult (fetchMosaicSat (loadImage h) (SatelliteTile 13) r) ;;
         host h CreateCanvas ;;
         host h DrawImageScaled ;;
         let finalCanvas := drawScaled h canvas (satelliteDraw b) in
         modify (set_satelliteTexture (Some (CanvasTexture finalCanvas))) ;;
         modify (fun s => set_colorTexture (satelliteTexture s) s) ;;
         createTerrain ;;
         ret Undefined) w
    end.

(** [Math.round] *)
Definition jsRound (q : Q) : Z := Qfloor (q + (1 # 2)).

(** [realAltitude] of [updateWaterPlane] (lines 2201-2205). *)
Definition realAltitude (s : State) : Z :=
  jsRound (elevationMin s + waterLevel s / 100 * (elevationMax s - elevationMin s)).

(** [realMin] and [realMax] of [drawElevationProfile] (lines 1987-1988). *)
Definition profileRealMin (s : State) (minElev : Q) : Q :=
  (minElev * 50 + elevationMin s)%Q.

Definition profileRealMax (s : State) (maxElev : Q) : Q :=
  (maxElev * 50 + elevationMin s)%Q.

(** [updateWaterPlane()]: the altitude readout. *)
Definition updateWaterPlane : M unit :=
  fun w => emit (WaterAlt (realAltitude (app w))) w.

(** [loadLocationTerrain(name, lat, lon)] (lines 683-732). *)
Definition loadLocationTerrain (h : Host) (name : string) (lat lon : R) : M Value :=
  modify (set_currentLocation (Some (name, lat, lon))) ;;
  modify (set_bounds (Some (locationBounds lat lon))) ;;
  emit (ShowLoading ("Loading terrain for " ++ name ++ "...")) ;;
  emit (SetStatus (LoadingPlace name) KLoading) ;;
  tryCatch
    (fetchDEM h ;;
     emit (SetStatus LoadingSatellite KLoading) ;;
     loadSatelliteTexture h ;;
     modify (set_satelliteMode true) ;;
     modify (set_waterLevel 0) ;;
     updateWaterPlane ;;
     emit HideLoading ;;
     emit (SetStatus (PlaceLoaded name) KSuccess))
    (fun msg => emit HideLoading ;; emit (SetStatus (PlaceError msg) KError)) ;;
  ret Undefined.

(** [toggleSatelliteMode()] (lines 1591-1608). *)
Definition toggleSatelliteMode (h : Host) : M Value :=
  fun w =>
    let on := negb (satelliteMode (app w)) in
    (modify (set_satelliteMode on) ;;
     if on
     then emit (SetStatus LoadingSatellite KLoading) ;;
          loadSatelliteTexture h ;;
          emit (SetStatus SatelliteEnabled KSuccess) ;;
          ret Undefined
     else modify (set_satelliteTexture None) ;;
          createTerrain ;;
          emit (SetStatus TerrainEnabled KSuccess) ;;
          ret Undefined) w.

(** The exaggeration slider (lines 479-486). *)
Definition onExagInput (v : Q) : M unit :=
  fun w =>
    let w1 := mkWorld (app w) v (dom w) in
    match terrain (app w1), heightmapTexture (app w1) with
    | Some _, Some _ => createTerrain w1
    | _, _ => Done w1 tt
    end.

(** The water-level slider (lines 494-500). *)
Definition onWaterInput (level : Z) : M unit :=
  modify (set_waterLevel (inject_Z level)) ;; updateWaterPlane.

(** One frame of [animateFlood()] (lines 2241-2264). *)
Definition animateFlood : M unit :=
  fun w =>
    if waterAnimating (app w)
    then
      (modify (fun s => set_waterLevel (waterLevel s + (1 # 2)) s) ;;
       (fun w' =>
          if Qle_bool 100 (waterLevel (app w'))
          then (modify (set_waterLevel 100) ;;
                modify (set_waterAnimating false) ;;
                emit (SetStatus FloodComplete KSuccess)) w'
          else Done w' tt) ;;
       updateWaterPlane) w
    else Done w tt.

(** [toggleWaterAnimation()] (lines 2223-2239). *)
Definition toggleWaterAnimation : M unit :=
  fun w =>
    if waterAnimating (app w)
    then modify (set_waterAnimating false) w
    else (modify (set_waterAnimating true) ;;
          modify (set_waterLevel 0) ;;
          animateFlood) w.

(** [resetWater()] (lines 2266-2283). *)
Definition resetWater : M unit :=
  modify (set_waterAnimating false) ;;
  modify (set_waterLevel 0) ;;
  updateWaterPlane ;;
  emit (SetStatus WaterReset KSuccess).

(** [loadTexture(base64)] (lines 1322-1327), once the image has loaded. *)
Definition loadTexture (img : Image) : M unit :=
  modify (set_colorTexture (Some (mkTexture (Some img)))) ;; createTerrain.

(** [drawElevationProfile(p1, p2)]: the statistics it shows for the least
    and greatest mesh heights [minElev] and [maxElev] along the line. *)
Definition drawElevationProfile (minElev maxElev : Q) : M unit :=
  fun w => emit (ProfileStats (profileRealMin (app w) minElev)
                              (profileRealMax (app w) maxElev)) w.

(** What can happen to the page. *)
Inductive Event : Type :=
| LoadLocation (h : Host) (name : string) (lat lon : R)
| ClickFetchDEM (h : Host)
| ToggleSatellite (h : Host)
| ExagInput (v : Q)
| WaterInput (level : Z)
| ToggleWaterAnimation
| AnimationFrame
| ResetWater
| TextureLoaded (img : Image)
| BoundsReceived (b : Bounds)
| MeasureProfile (minElev maxElev : Q).

Definition world_of {A : Type} (o : Outcome A) : World :=
  match o with
  | Done w _ => w
  | Thrown w _ => w
  end.

Definition handle (w : World) (e : Event) : World :=
  match e with
  | LoadLocation h name lat lon => world_of (loadLocationTerrain h name lat lon w)
  | ClickFetchDEM h => world_of (fetchDEM h w)
  | ToggleSatellite h => world_of (toggleSatelliteMode h w)
  | ExagInput v => world_of (onExagInput v w)
  | WaterInput level => world_of (onWaterInput level w)
  | ToggleWaterAnimation => world_of (toggleWaterAnimation w)
  | AnimationFrame => world_of (animateFlood w)
  | ResetWater => world_of (resetWater w)
  | TextureLoaded img => world_of (loadTexture img w)
  | BoundsReceived b => world_of (modify (set_bounds (Some b)) w)
  | MeasureProfile lo hi => world_of (drawElevationProfile lo hi w)
  end.

(** The page after [createTerrain()]. *)
Definition rebuilt (w : World) : World := world_of (createTerrain w).

(** The page after an assignment to [state]. *)
Definition updated (f : State -> State) (w : World) : World :=
  mkWorld (f (app w)) (exagValue w) (dom w).

(** The page once [fetchDEM] has made its two assignments (lines
    1226-1227). *)
Definition stored (final : Image) (w : World) : World :=
  updated (fun s => set_colorTexture None
                      (set_heightmapTexture (Some (CanvasTexture final)) s)) w.

(** The page at the moment a call of lines 1228-1236 throws: the
    textures are stored; the mesh is rebuilt unless [createTerrain] threw
    before its assignment; the success status is written if the throw is
    the last write's. *)
Definition interrupted (h : Host) (final : Image) (eMin eMax : Num) (w : World) : World :=
  match hostFault h BuildTerrain with
  | Some _ => stored final w
  | None =>
      match hostFault h AddToScene with
      | Some _ => rebuilt (stored final w)
      | None =>
          shown [HideLoading; SetStatus (LoadedElevation eMin eMax) KSuccess]
                (rebuilt (stored final w))
      end
  end.

(** The page at the moment the [try] block of [fetchDEM] throws. *)
Definition reached (h : Host) (b : Bounds) (w : World) : World :=
  match fetchDEM_computed h b with
  | Throw _ => w
  | Ok (final, eMin, eMax) => interrupted h final eMin eMax w
  end.

(** The imagery mosaic of a box, as [loadSatelliteTexture] composes it
    (a blank canvas if the join were ever rejected). *)
Definition satelliteMosaic (h : Host) (b : Bounds) : Image :=
  match fetchMosaicSat (loadImage h) (SatelliteTile 13) (tileRange b 13) with
  | Ok canvas => canvas
  | Throw _ => createCanvas 0 0
  end.

(** [state] once [loadSatelliteTexture] has stored the texture of a box
    (lines 1675-1676). *)
Definition satelliteStored (h : Host) (b : Bounds) (s : State) : State :=
  let tex := CanvasTexture (drawScaled h (satelliteMosaic h b) (satelliteDraw b)) in
  set_colorTexture (Some tex) (set_satelliteTexture (Some tex) s).

(** The two elevation statistics of [state], and the statements that
    leave them as they are, however they end. *)
Definition elevationStats (w : World) : Q * Q :=
  (elevationMin (app w), elevationMax (app w)).

Definition keeps_stats {A : Type} (m : M A) : Prop :=
  forall w, elevationStats (world_of (m w)) = elevationStats w.

(** The page after a sequence of events, from the initial state and the
    slider at [exag0]. *)
Definition run (exag0 : Q) (events : list Event) : World :=
  fold_left handle events (mkWorld initialState exag0 []).

(** A bounding box around Mount Everest, the network when every tile
    arrives, and the network when none does. *)
Definition everest : Bounds := mkBounds 28.1 27.9 87.0 86.8.

Definition greyTile : Image :=
  mkImage 256 256 (fun _ _ => mkRGBA 160 0 0 255).

Definition nearestPixel (source : Image) (c : CropRect) (dw dh x y : Z) : RGBA :=
  img_px source (Zfloor (cropX c)) (Zfloor (cropY c)).

Definition onlineHost : Host :=
  mkHost (fun _ => Fulfilled greyTile) nearestPixel (fun _ => None).

Definition offlineHost : Host :=
  mkHost (fun _ => Rejected "offline") nearestPixel (fun _ => None).

Definition everestWorld : World :=
  mkWorld (set_bounds (Some everest) initialState) 2 [].

(** A browser in which every tile arrives and [createTerrain] throws, and
    a page that shows a terrain: bounds around Everest, a heightmap and a
    colour texture of one pixel each, and a flat mesh. *)
Definition brokenRebuild : Host :=
  mkHost (fun _ => Fulfilled greyTile) nearestPixel
         (fun c => match c with
                   | BuildTerrain => Some "Cannot read properties of null"%string
                   | _ => None
                   end).

Definition pixel : Image := mkImage 1 1 (fun _ _ => mkRGBA 7 7 7 255).

Definition shownTerrain : World :=
  mkWorld (set_terrain (Some (mkMesh (Mesh.planeGeometry 256) (Textured (CanvasTexture pixel))))
             (set_colorTexture (Some (CanvasTexture pixel))
                (set_heightmapTexture (Some (CanvasTexture pixel))
                   (set_bounds (Some everest) initialState))))
          2 [].

(** The page after [n] more animation frames. *)
Definition frames (n : nat) (w : World) : World :=
  Nat.iter n (fun w' => handle w' AnimationFrame) w.

End Engine.

(** ** Vertex colours (applyTerrainColors, lines 1062-1098) *)

Module TerrainColors.
Import JSNum.

(** [Math.min(1, Math.max(0, height / 30))] *)
Definition normalizedHeight (height : Q) : Q :=
  Qmin 1 (Qmax 0 (height / 30)).

(** [r], [g], [b] for a normalised height. *)
Definition ramp (normalizedHeight : Q) : Q * Q * Q :=
  if Qltb normalizedHeight 0.2 then
    (0.15 + normalizedHeight * 0.3,
     0.35 + normalizedHeight * 0.25,
     0.15)%Q
  else if Qltb normalizedHeight 0.5 then
    let t := ((normalizedHeight - 0.2) / 0.3)%Q in
    (0.21 + t * 0.35, 0.4 - t * 0.15, 0.15 + t * 0.1)%Q
  else if Qltb normalizedHeight 0.75 then
    let t := ((normalizedHeight - 0.5) / 0.25)%Q in
    (0.56 - t * 0.16, 0.45 - t * 0.15, 0.25 + t * 0.25)%Q
  else
    let t := ((normalizedHeight - 0.75) / 0.25)%Q in
    (0.6 + t * 0.35, 0.6 + t * 0.35, 0.65 + t * 0.3)%Q.

Definition red (c : Q * Q * Q) : Q := fst (fst c).
Definition green (c : Q * Q * Q) : Q := snd (fst c).
Definition blue (c : Q * Q * Q) : Q := snd c.

(** The colour of a vertex at [height]. *)
Definition vertexColor (height : Q) : Q * Q * Q :=
  ramp (normalizedHeight height).

(** The [colors] array: three entries a vertex. *)
Definition applyTerrainColors (positions : list Q) : list Q :=
  flat_map (fun height =>
              let c := vertexColor height in [red c; green c; blue c])
           positions.

End TerrainColors.

(** ** The scene: camera orbit, geographic position, peak markers
    (lines 891-985, 1369-1389, 1462-1473, 1729-1793) *)

Module Scene.
Import Geo.
Local Open Scope R_scope.

(** [THREE.Vector3] *)
Record Vector3 : Type := mkVector3 { vx : R; vy : R; vz : R }.

(** [{ lat, lon, altitude }] *)
Record GeoPosition : Type := mkGeoPosition
{ geo_lat : R; geo_lon : R; geo_altitude : R }.

(** [getGeoPosition()] (lines 1378-1389); [pos] is the position of the
    plane in plane mode and of the camera otherwise, [None] is [null]. *)
Definition getGeoPosition (bounds : option Bounds) (pos : Vector3) : option GeoPosition :=
  match bounds with
  | None => None
  | Some b =>
      let terrainSize := 100 in
      let u := (vx pos + terrainSize / 2) / terrainSize in
      let v := (vz pos + terrainSize / 2) / terrainSize in
      let lat := north b - v * (north b - south b) in
      let lon := west b + u * (east b - west b) in
      let altitude := Rmax 0 (vy pos * 50) in
      Some (mkGeoPosition lat lon altitude)
  end.

(** [addPeakMarker(name, lat, lon, elevation)] (lines 1729-1793): where
    the sprite is put.  [ground x z] is the height at which the ray cast
    down from (x, 100, z) meets the terrain, if it meets it; [None] is the
    early return, when nothing is added. *)
Definition addPeakMarker (bounds : option Bounds) (hasTerrain : bool)
                         (ground : R -> R -> option R) (lat lon : R) : option Vector3 :=
  match bounds, hasTerrain with
  | Some b, true =>
      let terrainSize := 100 in
      let u := (lon - west b) / (east b - west b) in
      let v := (north b - lat) / (north b - south b) in
      let x := (u - 0.5) * terrainSize in
      let z := (v - 0.5) * terrainSize in
      let y := match ground x z with
               | Some py => py + 2
               | None => 10
               end in
      Some (mkVector3 x y z)
  | _, _ => None
  end.

(** [state.cameraMode] *)
Inductive CameraMode : Type := OrbitMode | FlyMode | TourMode.

(** The fields of [state] and the local variables of [setupMouseControls]
    that steer the orbiting camera. *)
Record Controls : Type := mkControls
{ cameraMode : CameraMode;
  orbitAngle : R;
  orbitRadius : R;
  orbitPhi : R;
  isDragging : bool;
  lastMouse : R * R;
  isTouching : bool;
  lastTouch : R * R;
  lastTouchDist : R }.

Definition initialControls : Controls :=
  mkControls OrbitMode 0 120 (PI / 4) false (0, 0) false (0, 0) 0.

(** [updateOrbitCamera()] (lines 1369-1376): the position it gives the
    camera. *)
Definition updateOrbitCamera (c : Controls) : Vector3 :=
  mkVector3 (orbitRadius c * sin (orbitPhi c) * cos (orbitAngle c))
            (orbitRadius c * cos (orbitPhi c))
            (orbitRadius c * sin (orbitPhi c) * sin (orbitAngle c)).

Definition isOrbit (c : Controls) : bool :=
  match cameraMode c with OrbitMode => true | _ => false end.

(** [Math.max(0.1, Math.min(Math.PI / 2 - 0.1, phi))] *)
Definition clampPhi (phi : R) : R := Rmax 0.1 (Rmin (PI / 2 - 0.1) phi).

(** [Math.max(20, Math.min(300, radius))] *)
Definition clampRadius (radius : R) : R := Rmax 20 (Rmin 300 radius).

(** What reaches the controls: the listeners of [setupMouseControls]
    (lines 891-985), a frame of [animate] with the rotation slider at
    [rotation] (lines 1469-1473), and an assignment to [state.cameraMode]
    by the mode switches. *)
Inductive ControlEvent : Type :=
| MouseDown (clientX clientY : R)
| MouseMove (clientX clientY : R)
| MouseUp
| MouseLeave
| Wheel (deltaY : R)
| TouchStart (touches : list (R * R))
| TouchMove (touches : list (R * R))
| TouchEnd
| Frame (rotation : R)
| SetCameraMode (mode : CameraMode).

Definition control (c : Controls) (e : ControlEvent) : Controls :=
  match e with
  | MouseDown x y =>
      if isOrbit c
      then mkControls (cameraMode c) (orbitAngle c) (orbitRadius c) (orbitPhi c)
                      true (x, y) (isTouching c) (lastTouch c) (lastTouchDist c)
      else c
  | MouseMove x y =>
      if isOrbit c && isDragging c
      then
        let dx := x - fst (lastMouse c) in
        let dy := y - snd (lastMouse c) in
        mkControls (cameraMode c) (orbitAngle c + dx * 0.01) (orbitRadius c)
                   (clampPhi (orbitPhi c + dy * 0.01))
                   (isDragging c) (x, y) (isTouching c) (lastTouch c) (lastTouchDist c)
      else c
  | MouseUp | MouseLeave =>
      mkControls (cameraMode c) (orbitAngle c) (orbitRadius c) (orbitPhi c)
                 false (lastMouse c) (isTouching c) (lastTouch c) (lastTouchDist c)
  | Wheel deltaY =>
      if isOrbit c
      then mkControls (cameraMode c) (orbitAngle c)
                      (clampRadius (orbitRadius c + deltaY * 0.1)) (orbitPhi c)
                      (isDragging c) (lastMouse c) (isTouching c) (lastTouch c)
                      (lastTouchDist c)
      else c
  | TouchStart touches =>
      if isOrbit c
      then
        match touches with
        | [t0] =>
            mkControls (cameraMode c) (orbitAngle c) (orbitRadius c) (orbitPhi c)
                       (isDragging c) (lastMouse c) true t0 (lastTouchDist c)
        | [t0; t1] =>
            let dx := fst t0 - fst t1 in
            let dy := snd t0 - snd t1 in
            mkControls (cameraMode c) (orbitAngle c) (orbitRadius c) (orbitPhi c)
                       (isDragging c) (lastMouse c) false (lastTouch c)
                       (sqrt (dx * dx + dy * dy))
        | _ => c
        end
      else c
  | TouchMove touches =>
      if isOrbit c
      then
        match touches with
        | [t0] =>
            if isTouching c
            then
              let dx := fst t0 - fst (lastTouch c) in
              let dy := snd t0 - snd (lastTouch c) in
              mkControls (cameraMode c) (orbitAngle c + dx * 0.008) (orbitRadius c)
                         (clampPhi (orbitPhi c + dy * 0.008))
                         (isDragging c) (lastMouse c) (isTouching c) t0 (lastTouchDist c)
            else c
        | [t0; t1] =>
            let dx := fst t0 - fst t1 in
            let dy := snd t0 - snd t1 in
            let dist := sqrt (dx * dx + dy * dy) in
            let delta := lastTouchDist c - dist in
            mkControls (cameraMode c) (orbitAngle c)
                       (clampRadius (orbitRadius c + delta * 0.5)) (orbitPhi c)
                       (isDragging c) (lastMouse c) (isTouching c) (lastTouch c) dist
        | _ => c
        end
      else c
  | TouchEnd =>
      mkControls (cameraMode c) (orbitAngle c) (orbitRadius c) (orbitPhi c)
                 (isDragging c) (lastMouse c) false (lastTouch c) (lastTouchDist c)
  | Frame rotation =>
      if isOrbit c && negb (isDragging c)
      then
        let speed := rotation / 100 in
        mkControls (cameraMode c) (orbitAngle c + 0.003 * speed) (orbitRadius c)
                   (orbitPhi c)
                   (isDragging c) (lastMouse c) (isTouching c) (lastTouch c)
                   (lastTouchDist c)
      else c
  | SetCameraMode mode =>
      mkControls mode (orbitAngle c) (orbitRadius c) (orbitPhi c)
                 (isDragging c) (lastMouse c) (isTouching c) (lastTouch c)
                 (lastTouchDist c)
  end.

(** The controls after a sequence of events. *)
Definition controlled (events : list ControlEvent) : Controls :=
  fold_left control events initialControls.

(** What the controls never leave. *)
Definition orbit_ok (c : Controls) : Prop :=
  0.1 <= orbitPhi c <= PI / 2 - 0.1 /\ 20 <= orbitRadius c <= 300.

End Scene.

(** ** The measuring tool (lines 1805-1925) *)

Module Measure.
Import Scene.
Local Open Scope R_scope.

(** A marker sphere and a measuring line; an object of the scene is told
    from the others by [id], the count of objects made before it. *)
Record Marker : Type := mkMarker { marker_id : nat; marker_at : Vector3 }.

Record Segment : Type := mkSegment
{ seg_id : nat; seg_from : Vector3; seg_to : Vector3 }.

(** The measurement fields of [state], the click listener, the markers and
    lines in [state.scene], and the readouts of the panel: the distance
    as the number that [toFixed(2)] prints, gain and loss as the integers
    printed after "+" and before " m", and whether the profile is hidden. *)
Record Panel : Type := mkPanel
{ measureMode : bool;
  clickListener : bool;
  measurePoints : list Vector3;
  measureLabels : list Marker;
  measureLine : option Segment;
  sceneMarkers : list Marker;
  sceneLines : list Segment;
  created : nat;
  distanceKm : R;
  elevationGain : Z;
  elevationLoss : Z;
  profileHidden : bool }.

(** [Math.round] *)
Definition round (x : R) : Z := Zfloor (x + 1 / 2).

(** [p1.distanceTo(p2)] *)
Definition distanceTo (p1 p2 : Vector3) : R :=
  let dx := vx p1 - vx p2 in
  let dy := vy p1 - vy p2 in
  let dz := vz p1 - vz p2 in
  sqrt (dx * dx + dy * dy + dz * dz).

(** [state.scene.remove(marker)] *)
Definition removeMarker (scene : list Marker) (m : Marker) : list Marker :=
  filter (fun o => negb (marker_id o =? marker_id m)%nat) scene.

Definition removeLine (scene : list Segment) (l : Segment) : list Segment :=
  filter (fun o => negb (seg_id o =? seg_id l)%nat) scene.

(** [clearMeasurePoints()] (lines 1872-1886). *)
Definition clearMeasurePoints (p : Panel) : Panel :=
  {| measureMode := measureMode p;
     clickListener := clickListener p;
     measurePoints := [];
     measureLabels := [];
     measureLine := None;
     sceneMarkers := fold_left removeMarker (measureLabels p) (sceneMarkers p);
     sceneLines := match measureLine p with
                   | Some l => removeLine (sceneLines p) l
                   | None => sceneLines p
                   end;
     created := created p;
     distanceKm := 0;
     elevationGain := 0;
     elevationLoss := 0;
     profileHidden := true |}.

(** [calculateMeasurement()] (lines 1888-1925), which reads the first two
    measurement points; it ends in [drawElevationProfile], which shows the
    profile. *)
Definition calculateMeasurement (p : Panel) : Panel :=
  match measurePoints p with
  | p1 :: p2 :: _ =>
      let line := mkSegment (created p) p1 p2 in
      let distance3D := distanceTo p1 p2 in
      let realDistance := distance3D / 100 * 30 in
      let elevationDiff := vy p2 - vy p1 in
      let realElevation := elevationDiff * 50 in
      let up := if Rle_dec 0 realElevation then true else false in
      {| measureMode := measureMode p;
         clickListener := clickListener p;
         measurePoints := measurePoints p;
         measureLabels := measureLabels p;
         measureLine := Some line;
         sceneMarkers := sceneMarkers p;
         sceneLines := sceneLines p ++ [line];
         created := S (created p);
         distanceKm := realDistance;
         elevationGain := if up then round realElevation else 0;
         elevationLoss := if up then 0 else round realElevation;
         profileHidden := false |}
  | _ => p
  end.

(** A point pushed on [state.measurePoints] with a new marker put at it,
    added to the scene and pushed on [state.measureLabels]. *)
Definition mark (point : Vector3) (p : Panel) : Panel :=
  let marker := mkMarker (created p) point in
  {| measureMode := measureMode p;
     clickListener := clickListener p;
     measurePoints := measurePoints p ++ [point];
     measureLabels := measureLabels p ++ [marker];
     measureLine := measureLine p;
     sceneMarkers := sceneMarkers p ++ [marker];
     sceneLines := sceneLines p;
     created := S (created p);
     distanceKm := distanceKm p;
     elevationGain := elevationGain p;
     elevationLoss := elevationLoss p;
     profileHidden := profileHidden p |}.

(** [onMeasureClick(event)] (lines 1833-1870); [hit] is the first point
    where the ray through the click meets the terrain, if it meets it. *)
Definition onMeasureClick (hasTerrain : bool) (hit : option Vector3) (p : Panel) : Panel :=
  if negb (measureMode p) || negb hasTerrain then p
  else
    match hit with
    | None => p
    | Some point =>
        let p1 := mark point p in
        if (List.length (measurePoints p1) =? 2)%nat then calculateMeasurement p1
        else if (2 <? List.length (measurePoints p1))%nat
             then mark point (clearMeasurePoints p1)
             else p1
    end.

(** [exitMeasureMode()] (lines 1821-1831). *)
Definition exitMeasureMode (p : Panel) : Panel :=
  clearMeasurePoints
    {| measureMode := false;
       clickListener := false;
       measurePoints := measurePoints p;
       measureLabels := measureLabels p;
       measureLine := measureLine p;
       sceneMarkers := sceneMarkers p;
       sceneLines := sceneLines p;
       created := created p;
       distanceKm := distanceKm p;
       elevationGain := elevationGain p;
       elevationLoss := elevationLoss p;
       profileHidden := true |}.

(** [toggleMeasureMode()] (lines 1805-1819). *)
Definition toggleMeasureMode (p : Panel) : Panel :=
  if negb (measureMode p)
  then {| measureMode := true;
          clickListener := true;
          measurePoints := measurePoints p;
          measureLabels := measureLabels p;
          measureLine := measureLine p;
          sceneMarkers := sceneMarkers p;
          sceneLines := sceneLines p;
          created := created p;
          distanceKm := distanceKm p;
          elevationGain := elevationGain p;
          elevationLoss := elevationLoss p;
          profileHidden := profileHidden p |}
  else exitMeasureMode p.

(** The measure button, and a click on the canvas, which reaches
    [onMeasureClick] while the listener is attached. *)
Inductive MeasureEvent : Type :=
| MeasureButton
| CanvasClick (hasTerrain : bool) (hit : option Vector3).

Definition measure (p : Panel) (e : MeasureEvent) : Panel :=
  match e with
  | MeasureButton => toggleMeasureMode p
  | CanvasClick hasTerrain hit =>
      if clickListener p then onMeasureClick hasTerrain hit p else p
  end.

(** The panel of a fresh page, whose readouts and profile are as the
    document has them. *)
Definition initialPanel (distance : R) (gain loss : Z) (hidden : bool) : Panel :=
  mkPanel false false [] [] None [] [] 0 distance gain loss hidden.

(** What holds of the panel between events. *)
Definition panel_ok (p : Panel) : Prop :=
  (List.length (measurePoints p) <= 2)%nat
  /\ map marker_at (measureLabels p) = measurePoints p
  /\ sceneMarkers p = measureLabels p
  /\ sceneLines p = match measureLine p with Some l => [l] | None => [] end
  /\ match measureLine p with
     | Some l => measurePoints p = [seg_from l; seg_to l]
     | None => (List.length (measurePoints p) < 2)%nat
     end
  /\ clickListener p = measureMode p
  /\ (measureMode p = false -> measurePoints p = []).

End Measure.

(** ** The elevation profile (drawElevationProfile, lines 1927-1995) *)

Module Profile.
Local Open Scope Q_scope.

Definition samples : nat := 50.

(** [i / samples] *)
Definition fraction (i : nat) : Q :=
  inject_Z (Z.of_nat i) / inject_Z (Z.of_nat samples).

(** The heights sampled along the line from (x1, z1) to (x2, z2), for
    [i] from 0 to [samples]: the height where the ray cast down at the
    sample meets the terrain, 0 where it meets none. *)
Definition elevations (ground : Q -> Q -> option Q) (x1 z1 x2 z2 : Q) : list Q :=
  map (fun i =>
         let t := fraction i in
         let x := x1 + (x2 - x1) * t in
         let z := z1 + (z2 - z1) * t in
         match ground x z with
         | Some y => y
         | None => 0
         end)
      (seq 0 (S samples)).

(** [Math.min(...elevations)] and [Math.max(...elevations)] of an array
    that is not empty (the loop pushes 51 heights). *)
Definition minOf (l : list Q) : Q :=
  match l with
  | [] => 0
  | e :: rest => fold_left Qmin rest e
  end.

Definition maxOf (l : list Q) : Q :=
  match l with
  | [] => 0
  | e :: rest => fold_left Qmax rest e
  end.

(** [maxElev - minElev || 1] *)
Definition range (minElev maxElev : Q) : Q :=
  let d := maxElev - minElev in
  if Qeq_bool d 0 then 1 else d.

(** The points of the profile line on a canvas of the given size. *)
Definition profileLine (width height : Q) (elevs : list Q) : list (Q * Q) :=
  let minElev := minOf elevs in
  let maxElev := maxOf elevs in
  let rng := range minElev maxElev in
  map (fun i =>
         let x := fraction i * width in
         let y := height - (nth i elevs 0 - minElev) / rng * (height - 20) - 10 in
         (x, y))
      (seq 0 (S samples)).

End Profile.

(** ** The water plane (updateWaterPlane, lines 2182-2221) *)

Module Water.
Import JSNum Engine.
Local Open Scope Q_scope.

(** The water plane as [updateWaterPlane] leaves it, and the flooded
    area that it prints; the altitude that it prints is
    [Engine.realAltitude]. *)
Record WaterPlane : Type := mkWaterPlane
{ visible : bool;
  positionY : Q;
  opacity : Q;
  color : Z;
  floodedArea : Z }.

Definition updateWaterPlane (waterLevel exag : Q) : WaterPlane :=
  let minHeight := 0 in
  let maxHeight := exag * 0.8 in
  let waterHeight := minHeight + (waterLevel / 100) * maxHeight in
  mkWaterPlane
    (Qltb 0 waterLevel)
    (waterHeight - 1)
    (0.6 + (waterLevel / 100) * 0.2)
    (if Qltb waterLevel 30 then 0x60a5fa%Z
     else if Qltb waterLevel 60 then 0x3b82f6%Z
     else 0x1e40af%Z)
    (Z.min 100 (jsRound (waterLevel * 0.7))).

End Water.

(** ** What the events of the page preserve *)

Module Invariants.
Import Engine.
Local Open Scope Q_scope.

(** A statement keeps a property of [state], however it ends. *)
Definition preserves (P : State -> Prop) {A : Type} (m : M A) : Prop :=
  forall w, P (app w) -> P (app (world_of (m w))).

(** The water level is a percentage. *)
Definition level_ok (s : State) : Prop := 0 <= waterLevel s <= 100.

(** The terrain mesh, when there is one, has 257 x 257 vertices. *)
Definition mesh_ok (s : State) : Prop :=
  match terrain s with
  | Some m => Z.of_nat (List.length (mesh_z m)) = 66049%Z
  | None => True
  end.

(** The levels that the slider sends are percentages. *)
Definition slider_ok (e : Event) : Prop :=
  match e with
  | WaterInput level => (0 <= level <= 100)%Z
  | _ => True
  end.

End Invariants.

(** ** The microphone capture processor (AudioCaptureProcessor) *)

Module AudioCapture.
Local Open Scope nat_scope.

(** [this.bufferSize] *)
Definition bufferSize : nat := 4096.

(** The processor: its buffer and index, and the messages posted to the
    main thread so far (latest last).  Samples are the numbers of a
    [Float32Array]. *)
Record Processor : Type := mkProcessor
{ buffer : list Q;
  bufferIndex : nat;
  posted : list (list Q) }.

(** The constructor. *)
Definition newProcessor : Processor :=
  mkProcessor (repeat 0%Q bufferSize) 0 [].

(** [buffer[i] = x]; a typed array ignores a write past its end. *)
Fixpoint writeAt (i : nat) (x : Q) (l : list Q) : list Q :=
  match l, i with
  | [], _ => []
  | _ :: rest, O => x :: rest
  | y :: rest, S j => y :: writeAt j x rest
  end.

(** One turn of the loop of [process]. *)
Definition push (p : Processor) (sample : Q) : Processor :=
  let buffer' := writeAt (bufferIndex p) sample (buffer p) in
  let index' := S (bufferIndex p) in
  if bufferSize <=? index'
  then mkProcessor buffer' 0 (posted p ++ [buffer'])
  else mkProcessor buffer' index' (posted p).

(** [process(inputs, outputs, parameters)], for [input = inputs[0]], the
    channels of the first input; the result is the processor afterwards
    and the value returned. *)
Definition process (input : list (list Q)) (p : Processor) : Processor * bool :=
  match input with
  | channelData :: _ => (fold_left push channelData p, true)
  | [] => (p, true)
  end.

(** The samples of the first channel, which are all that is read. *)
Definition firstChannel (input : list (list Q)) : list Q :=
  match input with
  | channelData :: _ => channelData
  | [] => []
  end.

(** The processor after a sequence of calls of [process]. *)
Definition captured (calls : list (list (list Q))) : Processor :=
  fold_left (fun p input => fst (process input p)) calls newProcessor.

(** What holds of the processor between samples, [heard] being the
    samples read so far. *)
Definition capture_ok (heard : list Q) (p : Processor) : Prop :=
  List.length (buffer p) = bufferSize
  /\ bufferIndex p < bufferSize
  /\ Forall (fun chunk => List.length chunk = bufferSize) (posted p)
  /\ List.concat (posted p) ++ firstn (bufferIndex p) (buffer p) = heard.

End AudioCapture.

(** ** The camera tour (lines 2000-2145) *)

Module Tour.
Import Scene.
Local Open Scope Q_scope.

(** The tour fields of [state], with [state.cameraMode]; the number of
    waypoints stands for [tourWaypoints], [tourCurves] for the two
    curves being set, [cameraAt] for the parameter at which the camera
    was last put on the curve, [progressBar] for the width of the bar in
    percent. *)
Record TourState : Type := mkTour
{ tourMode : bool;
  tourPlaying : bool;
  tourWaypoints : nat;
  tourCurves : bool;
  tourProgress : Q;
  tourSpeed : Q;
  cameraMode : CameraMode;
  cameraAt : option Q;
  progressBar : Q }.

(** [state.tourDuration], which no statement assigns. *)
Definition tourDuration : Q := 40.

Definition initialTour (bar : Q) : TourState :=
  mkTour false false 0 false 0 1 OrbitMode None bar.

(** [pauseTour()] (lines 2091-2095). *)
Definition pauseTour (t : TourState) : TourState :=
  mkTour (tourMode t) false (tourWaypoints t) (tourCurves t) (tourProgress t)
         (tourSpeed t) (cameraMode t) (cameraAt t) (progressBar t).

(** [playTour()] (lines 2081-2089). *)
Definition playTour (t : TourState) : TourState :=
  if (tourWaypoints t =? 0)%nat then t
  else mkTour (tourMode t) true (tourWaypoints t) (tourCurves t) (tourProgress t)
              (tourSpeed t) TourMode (cameraAt t) (progressBar t).

(** [restartTour()] (lines 2097-2102); [recordTour()] does the same to
    the tour, and starts the recorder. *)
Definition restartTour (t : TourState) : TourState :=
  playTour (mkTour (tourMode t) (tourPlaying t) (tourWaypoints t) (tourCurves t) 0
                   (tourSpeed t) (cameraMode t) (cameraAt t) 0).

(** [exitTourMode()] (lines 2032-2044). *)
Definition exitTourMode (t : TourState) : TourState :=
  mkTour false false (tourWaypoints t) (tourCurves t) (tourProgress t)
         (tourSpeed t) OrbitMode (cameraAt t) 0.

(** [toggleTourMode()] (lines 2000-2019), when [generateTourWaypoints]
    has stored [generated] waypoints; [setupTourPath] sets the curves if
    there are two or more. *)
Definition toggleTourMode (generated : nat) (t : TourState) : TourState :=
  if tourMode t then exitTourMode t
  else mkTour true (tourPlaying t) generated
              (if (generated <? 2)%nat then tourCurves t else true)
              (tourProgress t) (tourSpeed t) (cameraMode t) (cameraAt t) (progressBar t).

(** [updateTour(delta)] (lines 2116-2145). *)
Definition updateTour (delta : Q) (t : TourState) : TourState :=
  if negb (tourPlaying t) || negb (tourCurves t) then t
  else
    let progress := tourProgress t + delta / tourDuration in
    if Qle_bool 1 progress
    then pauseTour (mkTour (tourMode t) (tourPlaying t) (tourWaypoints t) (tourCurves t) 0
                           (tourSpeed t) (cameraMode t) (cameraAt t) (progressBar t))
    else mkTour (tourMode t) (tourPlaying t) (tourWaypoints t) (tourCurves t) progress
                (tourSpeed t) (cameraMode t) (Some progress) (progress * 100).

(** [toggleFlyMode()] (lines 1391-1418), as far as the camera mode. *)
Definition toggleFlyMode (t : TourState) : TourState :=
  mkTour (tourMode t) (tourPlaying t) (tourWaypoints t) (tourCurves t) (tourProgress t)
         (tourSpeed t)
         (match cameraMode t with OrbitMode => FlyMode | _ => OrbitMode end)
         (cameraAt t) (progressBar t).

(** The buttons and the slider of the tour, the fly button, and a frame
    of [animate] after [delta] seconds (lines 1552-1554). *)
Inductive TourEvent : Type :=
| TourButton (generated : nat)
| TourClose
| TourPlay
| TourPause
| TourRestart
| TourRecord
| TourSpeedInput (value : Q)
| FlyButton
| TourFrame (delta : Q).

Definition tour (t : TourState) (e : TourEvent) : TourState :=
  match e with
  | TourButton generated => toggleTourMode generated t
  | TourClose => exitTourMode t
  | TourPlay => playTour t
  | TourPause => pauseTour t
  | TourRestart | TourRecord => restartTour t
  | TourSpeedInput value =>
      mkTour (tourMode t) (tourPlaying t) (tourWaypoints t) (tourCurves t)
             (tourProgress t) value (cameraMode t) (cameraAt t) (progressBar t)
  | FlyButton => toggleFlyMode t
  | TourFrame delta =>
      match cameraMode t with
      | TourMode => updateTour delta t
      | _ => t
      end
  end.

(** The tour after a sequence of events, on a page whose bar is [bar]
    wide. *)
Definition toured (bar : Q) (events : list TourEvent) : TourState :=
  fold_left tour events (initialTour bar).

(** Time does not run backwards. *)
Definition frame_ok (e : TourEvent) : Prop :=
  match e with
  | TourFrame delta => 0 <= delta
  | _ => True
  end.

(** What holds of the tour between events. *)
Definition tour_ok (bar : Q) (t : TourState) : Prop :=
  (0 <= tourProgress t /\ tourProgress t < 1)
  /\ (forall at_, cameraAt t = Some at_ -> 0 <= at_ /\ at_ < 1)
  /\ (progressBar t = bar \/ (0 <= progressBar t /\ progressBar t < 100)).

(** The tour with its speed forgotten. *)
Definition withoutSpeed (t : TourState) : TourState :=
  mkTour (tourMode t) (tourPlaying t) (tourWaypoints t) (tourCurves t)
         (tourProgress t) 0 (cameraMode t) (cameraAt t) (progressBar t).

Definition isSpeedInput (e : TourEvent) : bool :=
  match e with
  | TourSpeedInput _ => true
  | _ => false
  end.

End Tour.

(** ** The plane in fly mode (animate, lines 1475-1549) *)

Module Flight.
Import JSNum.
Local Open Scope Q_scope.

(** [state.flySpeed] and [state.plane.position]. *)
Record Plane : Type := mkPlane
{ flySpeed : Q; plane_x : Q; plane_y : Q; plane_z : Q }.

(** The keys that change speed and altitude: either Shift, either
    Control, Space and C. *)
Record Keys : Type := mkKeys
{ keyShift : bool; keyControl : bool; keySpace : bool; keyC : bool }.

(** One frame: the keys held, the seconds elapsed, the direction in which
    the plane points (the rotated unit vector), and the height of the
    terrain under a point, if there is terrain under it. *)
Record FlyFrame : Type := mkFlyFrame
{ keys : Keys;
  delta : Q;
  direction : Q * Q * Q;
  terrainUnder : Q -> Q -> option Q }.

(** The plane as [toggleFlyMode] places it (line 1399), at the initial
    speed. *)
Definition initialPlane : Plane := mkPlane 5 0 20 0.

(** [state.flySpeed || 5] *)
Definition orFive (speed : Q) : Q := if Qeq_bool speed 0 then 5 else speed.

(** [THREE.MathUtils.lerp(x, y, t)] *)
Definition lerp (x y t : Q) : Q := (1 - t) * x + t * y.

(** The first part of the fly branch of [animate] (lines 1475-1512): the
    keys change speed and altitude, and the plane moves forward at the
    speed it had when the frame began. *)
Definition steer (p : Plane) (f : FlyFrame) : Plane :=
  let forwardSpeed := orFive (flySpeed p) in
  let speed1 :=
    if keyShift (keys f)
    then Qmin 15 (orFive (flySpeed p) + 5 * delta f)
    else flySpeed p in
  let speed2 :=
    if keyControl (keys f)
    then Qmax 2 (orFive speed1 - 5 * delta f)
    else speed1 in
  let y1 := if keySpace (keys f) then plane_y p + 15 * delta f else plane_y p in
  let y2 := if keyC (keys f) then y1 - 10 * delta f else y1 in
  let '(dx, dy, dz) := direction f in
  mkPlane speed2
          (plane_x p + dx * (forwardSpeed * delta f))
          (y2 + dy * (forwardSpeed * delta f))
          (plane_z p + dz * (forwardSpeed * delta f)).

(** The fly branch of [animate] (lines 1475-1549), for a plane in fly
    mode: after steering, the plane is kept above the terrain under it
    and inside the bounds; [hasTerrain] is [state.terrain] being set. *)
Definition fly (hasTerrain : bool) (p : Plane) (f : FlyFrame) : Plane :=
  let minAltitude := 8 in
  let pos := steer p f in
  let y :=
    if hasTerrain
    then match terrainUnder f (plane_x pos) (plane_z pos) with
         | Some terrainHeight =>
             let minY := terrainHeight + minAltitude in
             if Qltb (plane_y pos) minY then lerp (plane_y pos) minY 0.2 else plane_y pos
         | None => plane_y pos
         end
    else plane_y pos in
  let bounds := 55 in
  if Qltb bounds (Qabs (plane_x pos)) || Qltb bounds (Qabs (plane_z pos))
  then mkPlane 5 0 25 0
  else mkPlane (flySpeed pos) (plane_x pos) y (plane_z pos).

(** What the frames keep of the plane. *)
Definition plane_ok (p : Plane) : Prop :=
  (2 <= flySpeed p /\ flySpeed p <= 15)
  /\ Qabs (plane_x p) <= 55
  /\ Qabs (plane_z p) <= 55.

End Flight.

(** ** The same expressions in IEEE 754 arithmetic

    JavaScript numbers are binary64, and the [Float32Array] behind the
    positions of a geometry holds binary32.  This module evaluates, as
    the engine does, the expressions of the source that use only [+],
    [-], [*], [/], [Math.floor] and [Math.pow(2, z)]. *)

Module Binary64.
Import PrimFloat FloatOps SpecFloat.
Local Open Scope float_scope.

(** The integer [z] as a number (exact below 2^53). *)
Definition ofZ (z : Z) : float := SF2Prim (binary_normalize 53 1024 z 0 false).

(** [Math.floor(f)] *)
Definition floor (f : float) : float :=
  match Prim2SF f with
  | S754_finite s m e =>
      let n := if s then Z.neg m else Z.pos m in
      ofZ (if (0 <=? e)%Z then n * 2 ^ e else n / 2 ^ (- e))%Z
  | _ => f
  end.

(** [Math.pow(2, z)] *)
Definition pow2 (z : Z) : float := Z.ldexp 1 z.

(** The [x] of [latLonToTile(lat, lon, z)] (line 1245). *)
Definition latLonToTile_x (lon : float) (z : Z) : float :=
  floor (((lon + 180) / 360) * pow2 z).

(** The [lon] of [tileToLatLon(x, y, z)] (line 1258). *)
Definition tileToLatLon_lon (x : float) (z : Z) : float :=
  (x / pow2 z) * 360 - 180.

(** [{ north, south, east, west }] *)
Record Bounds : Type := mkBounds
  { north : float; south : float; east : float; west : float }.

(** The bounding box of [loadLocationTerrain] (lines 686-692). *)
Definition locationBounds (lat lon : float) : Bounds :=
  let size := 0.15 in
  mkBounds (lat + size) (lat - size) (lon + size) (lon - size).

(** What a [Float32Array] keeps of a number: the nearest binary32
    number. *)
Definition fround (f : float) : float :=
  match Prim2SF f with
  | S754_finite s m e => SF2Prim (binary_round 24 128 s m e)
  | _ => f
  end.

(** What [positions.setZ(i, height * scale)] stores for the red byte
    [byte] (lines 1054-1055): [height] is [imgData.data[idx] / 255]. *)
Definition storedZ (byte : Z) (scale : float) : float :=
  let height := ofZ byte / 255 in
  fround (height * scale).

(** The greatest longitude below 180. *)
Definition belowAntimeridian : float := 179.99999999999997.

End Binary64.

(* ================================================================= *)
(** * Part II: theorems *)
(* ================================================================= *)

Section DecodeFacts.
Import Raster Terrarium.

Lemma decode_scaled (r g b : Z) :
  (decode r g b == inject_Z (r * 65536 + g * 256 + b - 8388608) / 256)%Q.
Proof.
  unfold decode, Z.sub.
  rewrite !inject_Z_plus, !inject_Z_mult, inject_Z_opp. field.
Qed.

End DecodeFacts.

Section RasterFacts.
Import Raster.

Lemma nth_flat_map_quad {A : Type} (f : A -> list Z) (l : list A) (a0 : A) (i c : nat) :
  (forall a, List.length (f a) = 4%nat) ->
  (i < List.length l)%nat -> (c < 4)%nat ->
  nth (i * 4 + c) (flat_map f l) 0 = nth c (f (nth i l a0)) 0.
Proof.
  intros Hf. revert i. induction l as [|a l IH]; intros i Hi Hc; simpl in Hi; [lia|].
  destruct i as [|i].
  - cbn [flat_map Nat.mul Nat.add nth]. rewrite app_nth1; [reflexivity|].
    rewrite Hf. exact Hc.
  - cbn [flat_map nth]. rewrite app_nth2 by (rewrite Hf; lia).
    replace (S i * 4 + c - List.length (f a))%nat with (i * 4 + c)%nat
      by (rewrite Hf; lia).
    apply IH; lia.
Qed.

(** Reading channel [c] of pixel [i] out of the flat array gives that
    channel of the canvas pixel in column [i mod width], row [i / width]. *)
Lemma getImageData_at (cv : Image) (w h : Z) (i c : nat) :
  (i < Z.to_nat (w * h))%nat -> (c < 4)%nat ->
  at_ (getImageData cv w h) (i * 4 + c)
  = nth c (channels (img_px cv (Z.of_nat i mod w) (Z.of_nat i / w))) 0.
Proof.
  intros Hi Hc. unfold at_, getImageData.
  rewrite nth_flat_map_quad with (a0 := O)
    by (reflexivity || (rewrite ?length_seq; assumption)).
  rewrite seq_nth by assumption. reflexivity.
Qed.

End RasterFacts.

Section DecodeTheorems.
Import Raster Terrarium.

Lemma decodeAll_nth (data : list Z) (n i : nat) :
  (i < n)%nat ->
  nth i (decodeAll data n) 0%Q
  = decode (at_ data (i * 4)) (at_ data (i * 4 + 1)) (at_ data (i * 4 + 2)).
Proof.
  intros Hi. unfold decodeAll.
  set (f := fun k : nat => decode (at_ data (k * 4)) (at_ data (k * 4 + 1))
                                  (at_ data (k * 4 + 2))).
  rewrite nth_indep with (d' := f O)
    by (rewrite length_map, length_seq; exact Hi).
  rewrite map_nth, seq_nth by exact Hi. reflexivity.
Qed.

Lemma decode_representable32 (r g b : Z) :
  is_byte r -> is_byte g -> is_byte b ->
  representable 24 (-149) (decode r g b).
Proof.
  unfold is_byte. intros Hr Hg Hb.
  exists (r * 65536 + g * 256 + b - 8388608), (-8).
  split; [|split].
  - change (2 ^ 24) with 16777216. lia.
  - lia.
  - rewrite decode_scaled. reflexivity.
Qed.

(** Every intermediate value of [r * 256 + g + b / 256 - 32768] is an
    integer multiple of 1/256 below 2^24 in magnitude, so the double
    arithmetic that computes it does not round either. *)
Lemma decode_steps_representable64 (r g b : Z) :
  is_byte r -> is_byte g -> is_byte b ->
  representable 53 (-1074) (inject_Z r * 256)
  /\ representable 53 (-1074) (inject_Z r * 256 + inject_Z g)
  /\ representable 53 (-1074) (inject_Z b / 256)
  /\ representable 53 (-1074) (inject_Z r * 256 + inject_Z g + inject_Z b / 256)
  /\ representable 53 (-1074) (decode r g b).
Proof.
  unfold is_byte. intros Hr Hg Hb.
  assert (H53 : 2 ^ 53 = 9007199254740992) by reflexivity.
  split; [|split; [|split; [|split]]].
  - exists (r * 256), 0. rewrite H53. split; [lia|]. split; [lia|].
    rewrite inject_Z_mult. change (inject_Z (2 ^ (- 0))) with 1%Q. field.
  - exists (r * 256 + g), 0. rewrite H53. split; [lia|]. split; [lia|].
    rewrite inject_Z_plus, inject_Z_mult. change (inject_Z (2 ^ (- 0))) with 1%Q. field.
  - exists b, (-8). rewrite H53. split; [lia|]. split; [lia|]. reflexivity.
  - exists (r * 65536 + g * 256 + b), (-8). rewrite H53. split; [lia|]. split; [lia|].
    rewrite !inject_Z_plus, !inject_Z_mult.
    change (inject_Z (2 ^ (- -8))) with 256%Q. field.
  - exists (r * 65536 + g * 256 + b - 8388608), (-8). rewrite H53.
    split; [lia|]. split; [lia|]. rewrite decode_scaled. reflexivity.
Qed.

(** C1. For every mosaic pixel, with channel bytes (R, G, B) read out of
    the flat pixel array, the decoded elevation stored at that pixel is
    R*256 + G + B/256 - 32768.  The value is a multiple of 1/256 of
    magnitude at most 2^15, which a [Float32Array] cell (24 bits of
    significand) holds without rounding, so the equation is exact.
    In particular decode(0,0,0) = -32768, decode(128,0,0) = 0 and
    decode(255,255,255) = 32767 + 255/256. *)
Theorem decode_elevation_exact :
  (forall (cv : Image) (w h : Z) (i : nat),
      (i < Z.to_nat (w * h))%nat ->
      let p := img_px cv (Z.of_nat i mod w) (Z.of_nat i / w) in
      nth i (decodeAll (getImageData cv w h) (Z.to_nat (w * h))) 0%Q
      = (inject_Z (chR p) * 256 + inject_Z (chG p) + inject_Z (chB p) / 256 - 32768)%Q)
  /\ (forall r g b : Z,
         is_byte r -> is_byte g -> is_byte b ->
         representable 24 (-149) (decode r g b)
         /\ representable 53 (-1074) (inject_Z r * 256 + inject_Z g + inject_Z b / 256)
         /\ (- 32768 <= decode r g b <= 32767 + 255 / 256)%Q)
  /\ (decode 0 0 0 == - 32768)%Q
  /\ (decode 128 0 0 == 0)%Q
  /\ (decode 255 255 255 == 32767 + 255 / 256)%Q.
Proof.
  split; [|split; [|split; [|split]]].
  - intros cv w h i Hi p. rewrite decodeAll_nth by exact Hi.
    replace (i * 4)%nat with (i * 4 + 0)%nat at 1 by lia.
    rewrite !getImageData_at by (assumption || lia).
    reflexivity.
  - intros r g b Hr Hg Hb. split.
    + apply decode_representable32; assumption.
    + split; [apply (decode_steps_representable64 r g b); assumption|].
      unfold is_byte in *. rewrite decode_scaled.
      split.
      * apply Qle_shift_div_l; [reflexivity|].
        setoid_replace ((- 32768) * 256)%Q with (inject_Z (-8388608))
          by reflexivity.
        rewrite <- Zle_Qle. lia.
      * apply Qle_shift_div_r; [reflexivity|].
        setoid_replace ((32767 + 255 / 256) * 256)%Q with (inject_Z 8388607)
          by reflexivity.
        rewrite <- Zle_Qle. lia.
  - reflexivity.
  - reflexivity.
  - reflexivity.
Qed.

End DecodeTheorems.

Section MosaicFacts.
Import Raster Promise Mosaic.

Variable loadImage : URL -> Settled Image.
Variable mkURL : Z -> Z -> URL.

Lemma tilePromise_fulfilled (r : TileRange) (x y : Z) :
  tilePromise loadImage mkURL r x y = Fulfilled (tileResult loadImage mkURL r x y).
Proof.
  unfold tilePromise, tileResult, then_, catch_.
  destruct (loadImage (mkURL x y)); reflexivity.
Qed.

Lemma all_fulfilled {A : Type} (l : list A) :
  all (map Fulfilled l) = Fulfilled l.
Proof.
  induction l as [|a l IH]; simpl; [reflexivity|]. rewrite IH. reflexivity.
Qed.

Lemma flat_map_pairs {B : Type} (g : Z -> Z -> B) (xs ys : list Z) :
  flat_map (fun y => map (fun x => g x y) xs) ys
  = map (fun xy => g (fst xy) (snd xy))
        (flat_map (fun y => map (fun x => (x, y)) xs) ys).
Proof.
  induction ys as [|y ys IH]; simpl; [reflexivity|].
  rewrite map_app, map_map, IH. reflexivity.
Qed.

Lemma tilePromises_eq (r : TileRange) :
  tilePromises loadImage mkURL r
  = map Fulfilled (map (fun xy => tileResult loadImage mkURL r (fst xy) (snd xy)) (coords r)).
Proof.
  unfold tilePromises, coords.
  rewrite (flat_map_pairs (tilePromise loadImage mkURL r)), map_map.
  apply map_ext. intros [x y]. apply tilePromise_fulfilled.
Qed.

Lemma in_zrange (lo hi k : Z) : In k (zrange lo hi) <-> lo <= k <= hi.
Proof.
  unfold zrange. rewrite in_map_iff. split.
  - intros [n [<- Hn]]. apply in_seq in Hn. lia.
  - intros H. exists (Z.to_nat (k - lo)). split; [lia|].
    apply in_seq. lia.
Qed.

Lemma in_coords (r : TileRange) (x y : Z) :
  In (x, y) (coords r) <-> in_range r x y.
Proof.
  unfold coords, in_range. rewrite in_flat_map. split.
  - intros [y' [Hy Hx]]. apply in_map_iff in Hx.
    destruct Hx as [x' [E Hx]]. inversion E; subst.
    apply in_zrange in Hx, Hy. split; assumption.
  - intros [Hx Hy]. exists y. split; [apply in_zrange; exact Hy|].
    apply in_map_iff. exists x. split; [reflexivity|apply in_zrange; exact Hx].
Qed.

(** [loaded] counts the tiles that arrived. *)
Lemma composite_count (tiles : list (option Tile)) (acc : Image * Z) :
  snd (fold_left blit tiles acc)
  = snd acc + Z.of_nat (List.length (filter (fun t => match t with Some _ => true | None => false end) tiles)).
Proof.
  revert acc. induction tiles as [|t tiles IH]; intros acc; simpl; [lia|].
  rewrite IH. destruct t; simpl; lia.
Qed.

Lemma composite_size (tiles : list (option Tile)) (acc : Image * Z) :
  img_w (fst (fold_left blit tiles acc)) = img_w (fst acc)
  /\ img_h (fst (fold_left blit tiles acc)) = img_h (fst acc).
Proof.
  revert acc. induction tiles as [|t tiles IH]; intros acc; simpl.
  - split; reflexivity.
  - destruct (IH (blit acc t)) as [-> ->]. destruct t; simpl; split; reflexivity.
Qed.

Lemma loaded_succeeded (r : TileRange) (cv : Image) :
  snd (composite cv (map (fun xy => tileResult loadImage mkURL r (fst xy) (snd xy)) (coords r)))
  = succeeded loadImage mkURL r.
Proof.
  unfold composite, succeeded. rewrite composite_count. simpl.
  f_equal.
  induction (coords r) as [|[x y] l IH]; simpl; [reflexivity|].
  unfold tileResult at 1. simpl.
  destruct (loadImage (mkURL x y)); simpl; rewrite IH; reflexivity.
Qed.

(** The pixel a sequence of blits leaves at [(px, py)], when every tile
    drawn over that pixel would write the same value [v] there. *)
Lemma composite_px (tiles : list (option Tile)) (px py : Z) (v : RGBA) :
  forall acc : Image * Z,
    (forall t, In (Some t) tiles -> tile_covers t px py = true ->
               img_px (t_img t) (px - t_x t) (py - t_y t) = v) ->
    (img_px (fst acc) px py = v
     \/ exists t, In (Some t) tiles /\ tile_covers t px py = true) ->
    img_px (fst (fold_left blit tiles acc)) px py = v.
Proof.
  induction tiles as [|t tiles IH]; intros acc Hv Hex.
  - simpl. destruct Hex as [H|[t [[] _]]]. exact H.
  - simpl. apply IH.
    + intros t' Hin. apply Hv. right. exact Hin.
    + destruct t as [t|]; simpl.
      * unfold tile_covers in *.
        destruct (covers (t_x t) (t_y t) (img_w (t_img t)) (img_h (t_img t)) px py) eqn:Hc.
        -- left. apply Hv; [left; reflexivity|exact Hc].
        -- destruct Hex as [H|[t' [[E|Hin] Hc']]].
           ++ left. exact H.
           ++ inversion E; subst t'. congruence.
           ++ right. exists t'. split; assumption.
      * destruct Hex as [H|[t' [[E|Hin] Hc']]].
        -- left. exact H.
        -- discriminate E.
        -- right. exists t'. split; assumption.
Qed.

Lemma in_results (r : TileRange) (t : Tile) :
  In (Some t) (map (fun xy => tileResult loadImage mkURL r (fst xy) (snd xy)) (coords r)) <->
  exists x y img, in_range r x y /\ loadImage (mkURL x y) = Fulfilled img
                  /\ t = mkTile img ((x - xMin r) * tileSize) ((y - yMin r) * tileSize).
Proof.
  rewrite in_map_iff. split.
  - intros [[x y] [E Hin]]. simpl in E. apply in_coords in Hin.
    unfold tileResult in E. destruct (loadImage (mkURL x y)) as [img|] eqn:L;
      [|discriminate]. inversion E. exists x, y, img. auto.
  - intros [x [y [img [Hin [L ->]]]]]. exists (x, y). simpl.
    split; [|apply in_coords; exact Hin].
    unfold tileResult. rewrite L. reflexivity.
Qed.

Lemma covers_iff (x y w h px py : Z) :
  covers x y w h px py = true <-> x <= px < x + w /\ y <= py < y + h.
Proof. unfold covers. rewrite !andb_true_iff. lia. Qed.

(** The content of one tile's square of the mosaic. *)
Lemma mosaic_region (r : TileRange) (x y dx dy : Z) :
  tiles_sized loadImage ->
  in_range r x y -> 0 <= dx < tileSize -> 0 <= dy < tileSize ->
  img_px (fst (composite (createCanvas (mosaicWidth r) (mosaicHeight r))
                         (map (fun xy => tileResult loadImage mkURL r (fst xy) (snd xy)) (coords r))))
         ((x - xMin r) * tileSize + dx) ((y - yMin r) * tileSize + dy)
  = match loadImage (mkURL x y) with
    | Fulfilled img => img_px img dx dy
    | Rejected _ => blank
    end.
Proof.
  intros Hsz Hin Hdx Hdy. unfold composite.
  assert (Honly : forall t,
             In (Some t) (map (fun xy => tileResult loadImage mkURL r (fst xy) (snd xy)) (coords r)) ->
             tile_covers t ((x - xMin r) * tileSize + dx) ((y - yMin r) * tileSize + dy) = true ->
             exists img, loadImage (mkURL x y) = Fulfilled img
                         /\ t = mkTile img ((x - xMin r) * tileSize) ((y - yMin r) * tileSize)).
  { intros t Ht Hc. apply in_results in Ht.
    destruct Ht as [x' [y' [img [_ [L ->]]]]].
    unfold tile_covers in Hc. simpl in Hc. apply covers_iff in Hc.
    destruct (Hsz _ _ L) as [Hw Hh]. rewrite Hw, Hh in Hc.
    unfold tileSize in *.
    assert (x' = x) by lia. assert (y' = y) by lia. subst x' y'.
    exists img. split; [exact L|reflexivity]. }
  apply composite_px.
  - intros t Ht Hc. destruct (Honly t Ht Hc) as [img [L ->]]. rewrite L. simpl.
    f_equal; lia.
  - destruct (loadImage (mkURL x y)) as [img|e] eqn:L.
    + right. exists (mkTile img ((x - xMin r) * tileSize) ((y - yMin r) * tileSize)).
      split.
      * apply in_results. exists x, y, img. auto.
      * unfold tile_covers. simpl. apply covers_iff.
        destruct (Hsz _ _ L) as [-> ->]. lia.
    + left. reflexivity.
Qed.

End MosaicFacts.

Section MosaicTheorem.
Import Raster Promise Mosaic.

Variable loadImage : URL -> Settled Image.
Variable mkURL : Z -> Z -> URL.

Lemma length_zrange (lo hi : Z) :
  lo <= hi + 1 -> Z.of_nat (List.length (zrange lo hi)) = hi - lo + 1.
Proof.
  intros H. unfold zrange. rewrite length_map, length_seq. lia.
Qed.

Lemma length_grid {B : Type} (g : Z -> Z -> B) (xs ys : list Z) :
  List.length (flat_map (fun y => map (fun x => g x y) xs) ys)
  = (List.length ys * List.length xs)%nat.
Proof.
  induction ys as [|y ys IH]; simpl; [reflexivity|].
  rewrite length_app, length_map, IH. reflexivity.
Qed.

(** One fetch is issued for every tile of the rectangle. *)
Lemma tilePromises_count (r : TileRange) :
  xMin r <= xMax r -> yMin r <= yMax r ->
  Z.of_nat (List.length (tilePromises loadImage mkURL r)) = totalTiles r.
Proof.
  intros Hx Hy. unfold tilePromises, totalTiles.
  rewrite length_grid, Nat2Z.inj_mul, !length_zrange by lia. ring.
Qed.

Lemma fetchMosaic_unfold (r : TileRange) :
  fetchMosaic loadImage mkURL r
  = if succeeded loadImage mkURL r =? 0
    then Throw "No tiles loaded"
    else Ok (fst (composite (createCanvas (mosaicWidth r) (mosaicHeight r))
                            (map (fun xy => tileResult loadImage mkURL r (fst xy) (snd xy))
                                 (coords r)))).
Proof.
  unfold fetchMosaic. rewrite tilePromises_eq, all_fulfilled.
  rewrite <- (loaded_succeeded loadImage mkURL r
                (createCanvas (mosaicWidth r) (mosaicHeight r))).
  destruct (composite _ _) as [ctx loaded]. reflexivity.
Qed.

(** C2. For every rectangle of tiles and every way the per-tile fetches
    settle: one fetch is issued per tile, and the join over the tile
    promises is always fulfilled (no tile failure propagates); the mosaic
    stage throws, and then throws its
    no-data error, exactly when zero fetches succeed; and when at least
    one succeeds it completes with a canvas of the size of the rectangle
    in which, tiles having the tile size, the square of every tile that
    arrived holds that tile's pixels at its offset and the square of
    every tile that failed is blank. *)
Theorem mosaic_partial_failure (r : TileRange) :
  (exists tiles, all (tilePromises loadImage mkURL r) = Fulfilled tiles)
  /\ (xMin r <= xMax r -> yMin r <= yMax r ->
      Z.of_nat (List.length (tilePromises loadImage mkURL r)) = totalTiles r
      /\ 0 <= succeeded loadImage mkURL r <= totalTiles r)
  /\ ((exists msg, fetchMosaic loadImage mkURL r = Throw msg)
      <-> succeeded loadImage mkURL r = 0)
  /\ (forall msg, fetchMosaic loadImage mkURL r = Throw msg ->
                  msg = "No tiles loaded"%string)
  /\ (succeeded loadImage mkURL r <> 0 ->
      exists cv,
        fetchMosaic loadImage mkURL r = Ok cv
        /\ img_w cv = mosaicWidth r /\ img_h cv = mosaicHeight r
        /\ (tiles_sized loadImage ->
            forall x y dx dy,
              in_range r x y -> 0 <= dx < tileSize -> 0 <= dy < tileSize ->
              img_px cv ((x - xMin r) * tileSize + dx) ((y - yMin r) * tileSize + dy)
              = match loadImage (mkURL x y) with
                | Fulfilled img => img_px img dx dy
                | Rejected _ => blank
                end)).
Proof.
  split; [|split; [|split; [|split]]].
  - eexists. rewrite tilePromises_eq. apply all_fulfilled.
  - intros Hx Hy. pose proof (tilePromises_count r Hx Hy) as Hc.
    split; [exact Hc|]. rewrite <- Hc, tilePromises_eq, !length_map.
    unfold succeeded. split; [lia|].
    apply Nat2Z.inj_le, filter_length_le.
  - rewrite fetchMosaic_unfold.
    destruct (succeeded loadImage mkURL r =? 0) eqn:E.
    + apply Z.eqb_eq in E. split; [intros _; exact E|].
      intros _. eexists. reflexivity.
    + apply Z.eqb_neq in E. split; [intros [msg H]; discriminate H|].
      intros H. contradiction.
  - intros msg. rewrite fetchMosaic_unfold.
    destruct (succeeded loadImage mkURL r =? 0); intros H; inversion H.
    reflexivity.
  - intros Hn. rewrite fetchMosaic_unfold.
    apply Z.eqb_neq in Hn. rewrite Hn. eexists. split; [reflexivity|].
    unfold composite.
    destruct (composite_size
                (map (fun xy => tileResult loadImage mkURL r (fst xy) (snd xy)) (coords r))
                (createCanvas (mosaicWidth r) (mosaicHeight r), 0)) as [Hw Hh].
    split; [exact Hw|]. split; [exact Hh|].
    intros Hsz x y dx dy Hin Hdx Hdy.
    apply (mosaic_region loadImage mkURL r x y dx dy Hsz Hin Hdx Hdy).
Qed.

End MosaicTheorem.

Lemma mosaic_partial_failure_witness :
  exists cv,
    Mosaic.fetchMosaic Mosaic.three_of_four (Mosaic.TerrariumPng 11) (Mosaic.mkRange 0 1 0 1) = Ok cv
    /\ Raster.img_px cv 300 10 = Raster.mkRGBA 101 101 101 255
    /\ Raster.img_px cv 300 300 = Raster.blank.
Proof.
  destruct (mosaic_partial_failure Mosaic.three_of_four (Mosaic.TerrariumPng 11)
              (Mosaic.mkRange 0 1 0 1)) as [_ [_ [_ [_ H]]]].
  destruct H as [cv [E [_ [_ Hpx]]]]; [vm_compute; discriminate|].
  exists cv. split; [exact E|].
  assert (Hsz : Mosaic.tiles_sized Mosaic.three_of_four).
  { intros u img. destruct u as [z x y|z x y]; simpl; [|discriminate].
    destruct x as [|[x|x|]|]; try (intros H; inversion H; subst; split; reflexivity).
    destruct y as [|[y|y|]|]; intros H; inversion H; subst; split; reflexivity. }
  split.
  - apply (Hpx Hsz 1 0 44 10); unfold Mosaic.in_range, Mosaic.tileSize; simpl; lia.
  - apply (Hpx Hsz 1 1 44 44); unfold Mosaic.in_range, Mosaic.tileSize; simpl; lia.
Defined.

Section NumFacts.
Import JSNum.

Lemma Qltb_lt (x y : Q) : Qltb x y = true <-> (x < y)%Q.
Proof.
  unfold Qltb. rewrite Qlt_alt. destruct (x ?= y)%Q; split; congruence.
Qed.

Lemma Qltb_ge (x y : Q) : Qltb x y = false <-> (y <= x)%Q.
Proof.
  rewrite <- not_true_iff_false, Qltb_lt. split.
  - apply Qnot_lt_le.
  - apply Qle_not_lt.
Qed.

Lemma Qeqb_eq (x y : Q) : Qeqb x y = true <-> (x == y)%Q.
Proof.
  unfold Qeqb. rewrite Qeq_alt. destruct (x ?= y)%Q; split; congruence.
Qed.

Lemma roundHalfEven_comp (p q : Q) :
  (p == q)%Q -> roundHalfEven p = roundHalfEven q.
Proof.
  intros E. unfold roundHalfEven.
  rewrite (Qfloor_comp _ _ E).
  assert (E' : (p - inject_Z (Qfloor q) == q - inject_Z (Qfloor q))%Q)
    by (rewrite E; reflexivity).
  rewrite (Qcompare_comp _ _ E' (1 # 2) (1 # 2) (Qeq_refl _)). reflexivity.
Qed.

Lemma roundHalfEven_Z (k : Z) : roundHalfEven (inject_Z k) = k.
Proof.
  unfold roundHalfEven. rewrite Qfloor_Z.
  assert (E : (inject_Z k - inject_Z k == 0)%Q) by ring.
  rewrite (Qcompare_comp _ _ E (1 # 2) (1 # 2) (Qeq_refl _)). reflexivity.
Qed.

Lemma toUint8Clamped_byte (v : Num) : 0 <= toUint8Clamped v <= 255.
Proof. destruct v; simpl; lia. Qed.

Lemma toUint8Clamped_Z (q : Q) (k : Z) :
  (q == inject_Z k)%Q -> 0 <= k <= 255 -> toUint8Clamped (Fin q) = k.
Proof.
  intros E Hk. simpl. rewrite (roundHalfEven_comp _ _ E), roundHalfEven_Z. lia.
Qed.

End NumFacts.

Section NormalizeFacts.
Import JSNum Normalize.

Lemma range_of_step (vs : list Q) (acc : Num * Num) (e : Q) :
  range_of vs acc -> Qltb 0 e = true ->
  range_of (vs ++ [e]) (minmax_step acc e).
Proof.
  intros H He. unfold minmax_step. rewrite He. right.
  destruct H as [[-> ->]|[m [M [-> [Hm [HM Hb]]]]]].
  - exists e, e. simpl. repeat split; auto;
      destruct H as [<-|[]]; apply Qle_refl.
  - simpl.
    assert (Hin : forall v, In v (vs ++ [e]) -> (v == e \/ m <= v <= M)%Q).
    { intros v Hv. apply in_app_or in Hv. destruct Hv as [Hv|[<-|[]]].
      - right. apply Hb. exact Hv.
      - left. reflexivity. }
    assert (Hmm : (m <= M)%Q) by (destruct (Hb m Hm); assumption).
    destruct (Qltb e m) eqn:E1; destruct (Qltb M e) eqn:E2;
      try (apply Qltb_lt in E1); try (apply Qltb_ge in E1);
      try (apply Qltb_lt in E2); try (apply Qltb_ge in E2).
    + exfalso. qlra.
    + exists e, M. split; [reflexivity|].
      split; [apply in_or_app; right; left; reflexivity|].
      split; [apply in_or_app; left; exact HM|].
      intros v Hv. destruct (Hin v Hv) as [Ev|Hv']; [rewrite Ev|]; qlra.
    + exists m, e. split; [reflexivity|].
      split; [apply in_or_app; left; exact Hm|].
      split; [apply in_or_app; right; left; reflexivity|].
      intros v Hv. destruct (Hin v Hv) as [Ev|Hv']; [rewrite Ev|]; qlra.
    + exists m, M. split; [reflexivity|].
      split; [apply in_or_app; left; exact Hm|].
      split; [apply in_or_app; left; exact HM|].
      intros v Hv. destruct (Hin v Hv) as [Ev|Hv']; [rewrite Ev|]; qlra.
Qed.

Lemma range_of_fold (l vs : list Q) (acc : Num * Num) :
  range_of vs acc ->
  range_of (vs ++ valid l) (fold_left minmax_step l acc).
Proof.
  revert vs acc. induction l as [|e l IH]; intros vs acc H; simpl.
  - rewrite app_nil_r. exact H.
  - destruct (Qltb 0 e) eqn:He.
    + replace (vs ++ e :: valid l) with ((vs ++ [e]) ++ valid l)
        by (rewrite <- app_assoc; reflexivity).
      apply IH. apply range_of_step; assumption.
    + unfold valid in IH. replace (minmax_step acc e) with acc
        by (unfold minmax_step; rewrite He; reflexivity).
      apply IH. exact H.
Qed.

(** [eMin] and [eMax] are the least and the greatest valid sample. *)
Lemma minmax_range (elevation : list Q) :
  range_of (valid elevation) (minmax elevation).
Proof.
  apply (range_of_fold elevation [] (PInf, NInf)). left. split; reflexivity.
Qed.

(** The value computed for a valid sample when [eMin < eMax]. *)
Lemma normVal_valid (m M e : Q) :
  (0 < e)%Q -> (m < M)%Q ->
  normVal (Fin m) (Fin M) e = Fin ((e - m) / (M - m) * 255)%Q.
Proof.
  intros He HmM. unfold normVal.
  replace (Qltb 0 e) with true by (symmetry; apply Qltb_lt; exact He).
  simpl. replace (Qltb m M) with true by (symmetry; apply Qltb_lt; exact HmM).
  destruct (Qeqb (M + - m) 0) eqn:E; [|reflexivity].
  apply Qeqb_eq in E. exfalso. apply (Qlt_irrefl m).
  setoid_replace m with (m + (M + - m))%Q at 2 by (rewrite E; ring).
  setoid_replace (m + (M + - m))%Q with M by ring. exact HmM.
Qed.

Lemma normVal_degenerate (eMin eMax : Num) (e : Q) :
  Qltb 0 e = false \/ gt eMax eMin = false ->
  normVal eMin eMax e = Fin 0.
Proof.
  intros [H|H]; unfold normVal; rewrite H; [|rewrite andb_false_r]; reflexivity.
Qed.

Lemma unit_fraction (m M e : Q) :
  (m < M)%Q -> (m <= e <= M)%Q -> (0 <= (e - m) / (M - m) <= 1)%Q.
Proof.
  intros HmM [H1 H2].
  assert (Hd : (0 < M - m)%Q) by qlra.
  split.
  - apply Qle_shift_div_l; [exact Hd|]. qlra.
  - apply Qle_shift_div_r; [exact Hd|]. qlra.
Qed.

End NormalizeFacts.

Section NormalizeTheorem.
Import Raster JSNum Normalize.

Lemma in_valid (elevation : list Q) (e : Q) :
  In e (valid elevation) <-> In e elevation /\ (0 < e)%Q.
Proof. unfold valid. rewrite filter_In, Qltb_lt. reflexivity. Qed.

Lemma gt_range (vs : list Q) (p : Num * Num) :
  range_of vs p -> gt (snd p) (fst p) = true ->
  exists m M, p = (Fin m, Fin M) /\ (m < M)%Q
              /\ forall v, In v vs -> (m <= v <= M)%Q.
Proof.
  intros [[_ ->]|[m [M [-> [_ [_ Hb]]]]]] Hgt; simpl in Hgt; [discriminate|].
  exists m, M. split; [reflexivity|]. split; [apply Qltb_lt; exact Hgt|exact Hb].
Qed.

Lemma heightmapData_at (elevation : list Q) (i c : nat) :
  (i < List.length elevation)%nat -> (c < 4)%nat ->
  at_ (heightmapData elevation) (i * 4 + c)
  = nth c (hmPixel (fst (minmax elevation)) (snd (minmax elevation))
                   (nth i elevation 0%Q)) 0.
Proof.
  intros Hi Hc. unfold at_, heightmapData.
  destruct (minmax elevation) as [eMin eMax]. cbn [fst snd].
  apply nth_flat_map_quad; [reflexivity|exact Hi|exact Hc].
Qed.

(** C3. For every decoded raster: [eMin] and [eMax] are the least and
    the greatest of exactly the samples greater than 0 (the infinities
    when there is none); the grey value written for a valid sample when
    eMin < eMax is (value - eMin) / (eMax - eMin) * 255, a fraction in
    [0, 1] scaled to the bytes [0, 255], which is 0 for a sample that
    equals eMin and 255 for one that equals eMax; every invalid sample,
    and every sample when eMax = eMin or no sample is valid, is written
    as 0; and the division is evaluated with a positive divisor only. *)
Theorem normalized_heightmap (elevation : list Q) :
  let eMin := fst (minmax elevation) in
  let eMax := snd (minmax elevation) in
  range_of (valid elevation) (eMin, eMax)
  /\ (forall e, In e (valid elevation) <-> In e elevation /\ (0 < e)%Q)
  /\ (forall i c : nat,
         (i < List.length elevation)%nat -> (c < 3)%nat ->
         at_ (heightmapData elevation) (i * 4 + c)
         = toUint8Clamped (normVal eMin eMax (nth i elevation 0%Q))
         /\ at_ (heightmapData elevation) (i * 4 + 3) = 255)
  /\ (forall e, In e elevation ->
         0 <= toUint8Clamped (normVal eMin eMax e) <= 255
         /\ exists v, normVal eMin eMax e = Fin v /\ (0 <= v / 255 <= 1)%Q)
  /\ (forall e m M,
         In e elevation -> (0 < e)%Q ->
         eMin = Fin m -> eMax = Fin M -> (m < M)%Q ->
         normVal eMin eMax e = Fin ((e - m) / (M - m) * 255)%Q
         /\ (0 <= (e - m) / (M - m) <= 1)%Q
         /\ ((e == m)%Q -> toUint8Clamped (normVal eMin eMax e) = 0)
         /\ ((e == M)%Q -> toUint8Clamped (normVal eMin eMax e) = 255))
  /\ (forall e,
         In e elevation ->
         (e <= 0)%Q \/ valid elevation = []
         \/ (exists m M, eMin = Fin m /\ eMax = Fin M /\ (M == m)%Q) ->
         normVal eMin eMax e = Fin 0
         /\ toUint8Clamped (normVal eMin eMax e) = 0)
  /\ (gt eMax eMin = true ->
      exists d, sub eMax eMin = Fin d /\ (0 < d)%Q).
Proof.
  intros eMin eMax.
  assert (HR : range_of (valid elevation) (eMin, eMax)).
  { unfold eMin, eMax. rewrite <- surjective_pairing. apply minmax_range. }
  assert (Hvalid : forall e m M,
             In e elevation -> (0 < e)%Q ->
             eMin = Fin m -> eMax = Fin M -> (m < M)%Q ->
             normVal eMin eMax e = Fin ((e - m) / (M - m) * 255)%Q
             /\ (0 <= (e - m) / (M - m) <= 1)%Q).
  { intros e m M Hin He Em EM HmM. rewrite Em, EM. split.
    - apply normVal_valid; assumption.
    - apply unit_fraction; [exact HmM|].
      destruct HR as [[Hnil _]|[m' [M' [E [_ [_ Hb]]]]]].
      + exfalso. assert (Hv : In e (valid elevation)) by (apply in_valid; auto).
        rewrite Hnil in Hv. exact Hv.
      + rewrite Em, EM in E. inversion E; subst m' M'.
        apply Hb. apply in_valid. auto. }
  split; [exact HR|]. split; [apply in_valid|].
  split; [|split; [|split; [|split]]].
  - intros i c Hi Hc. split.
    + rewrite heightmapData_at by (assumption || lia).
      fold eMin eMax. unfold hmPixel.
      destruct c as [|[|[|c]]]; try reflexivity. lia.
    + rewrite heightmapData_at by (assumption || lia). reflexivity.
  - intros e Hin. split; [apply toUint8Clamped_byte|].
    destruct (Qltb 0 e && gt eMax eMin) eqn:G.
    + apply andb_true_iff in G. destruct G as [He Hgt].
      apply Qltb_lt in He.
      destruct (gt_range _ _ HR Hgt) as [m [M [E [HmM _]]]].
      inversion E as [[Em EM]].
      destruct (Hvalid e m M Hin He Em EM HmM) as [Hn [H0 H1]].
      exists ((e - m) / (M - m) * 255)%Q. split; [exact Hn|].
      setoid_replace ((e - m) / (M - m) * 255 / 255)%Q with ((e - m) / (M - m))%Q
        by (field; qlra).
      split; assumption.
    + exists 0%Q. split; [unfold normVal; rewrite G; reflexivity|].
      split; discriminate.
  - intros e m M Hin He Em EM HmM.
    destruct (Hvalid e m M Hin He Em EM HmM) as [Hn H01].
    split; [exact Hn|]. split; [exact H01|].
    rewrite Hn. split; intros Ee.
    + apply (toUint8Clamped_Z _ 0); [|lia].
      rewrite Ee. field. qlra.
    + apply (toUint8Clamped_Z _ 255); [|lia].
      rewrite Ee. field. qlra.
  - intros e Hin Hd.
    assert (Hz : normVal eMin eMax e = Fin 0).
    { apply normVal_degenerate.
      destruct Hd as [He|[Hnil|[m [M [Em [EM HmM]]]]]].
      - left. apply Qltb_ge. exact He.
      - right. destruct HR as [[_ E]|[m [M [_ [Hm _]]]]].
        + inversion E as [[Em EM]]. rewrite Em, EM. reflexivity.
        + rewrite Hnil in Hm. destruct Hm.
      - right. rewrite Em, EM. simpl. apply Qltb_ge. rewrite HmM. apply Qle_refl. }
    rewrite Hz. split; reflexivity.
  - intros Hgt. destruct (gt_range _ _ HR Hgt) as [m [M [E [HmM _]]]].
    inversion E as [[Em EM]]. exists (M + - m)%Q.
    split; [rewrite Em, EM; reflexivity|]. qlra.
Qed.

End NormalizeTheorem.

Lemma normalized_heightmap_witness :
  Normalize.range_of [100; 300; 200]%Q (JSNum.Fin 100, JSNum.Fin 300)
  /\ Normalize.heightmapData [-5; 100; 300; 0; 200]%Q
     = [0; 0; 0; 255; 0; 0; 0; 255; 255; 255; 255; 255; 0; 0; 0; 255; 128; 128; 128; 255].
Proof.
  split.
  - exact (proj1 (normalized_heightmap [-5; 100; 300; 0; 200]%Q)).
  - vm_compute. reflexivity.
Defined.

Section GeoFacts.
Import Geo.
Local Open Scope R_scope.

Lemma pow2_pos (z : nat) : 0 < pow2 z.
Proof. unfold pow2. apply pow_lt. lra. Qed.

(** The hyperbolic sine, as [tileToLatLon] writes it, is increasing. *)
Lemma sinh_lt (n1 n2 : R) :
  n1 < n2 -> 0.5 * (exp n1 - exp (- n1)) < 0.5 * (exp n2 - exp (- n2)).
Proof.
  intros H. pose proof (exp_increasing n1 n2 H) as H1.
  assert (H' : - n2 < - n1) by lra.
  pose proof (exp_increasing (- n2) (- n1) H') as H2. lra.
Qed.

Lemma sinh_le (n1 n2 : R) :
  n1 <= n2 -> 0.5 * (exp n1 - exp (- n1)) <= 0.5 * (exp n2 - exp (- n2)).
Proof.
  intros [H| ->]; [left; apply sinh_lt; exact H|right; reflexivity].
Qed.

Lemma atan_le (x y : R) : x <= y -> atan x <= atan y.
Proof.
  intros [H| ->]; [left; apply atan_increasing; exact H|right; reflexivity].
Qed.

(** The angle [n] of row [y] falls as [y] grows. *)
Lemma row_angle_lt (a b : R) (z : nat) :
  a < b -> PI - 2 * PI * b / pow2 z < PI - 2 * PI * a / pow2 z.
Proof.
  intros H. pose proof PI_RGT_0 as Hpi. pose proof (pow2_pos z) as Hp.
  assert (Hq : a / pow2 z < b / pow2 z).
  { unfold Rdiv. apply Rmult_lt_compat_r; [apply Rinv_0_lt_compat; exact Hp|exact H]. }
  unfold Rdiv in *. nra.
Qed.

(** The latitude of the top edge of a tile row falls strictly from one
    row to the next. *)
Lemma tile_lat_decreasing (x1 x2 y1 y2 : Z) (z : nat) :
  (y1 < y2)%Z -> lat (tileToLatLon x2 y2 z) < lat (tileToLatLon x1 y1 z).
Proof.
  intros H. unfold tileToLatLon. simpl.
  apply IZR_lt in H. pose proof PI_RGT_0 as Hpi.
  apply Rmult_lt_compat_l.
  - apply Rdiv_lt_0_compat; lra.
  - apply atan_increasing, sinh_lt, row_angle_lt. exact H.
Qed.

Lemma tile_lon_increasing (x1 x2 y1 y2 : Z) (z : nat) :
  (x1 < x2)%Z -> lon (tileToLatLon x1 y1 z) < lon (tileToLatLon x2 y2 z).
Proof.
  intros H. unfold tileToLatLon. simpl.
  apply IZR_lt in H. pose proof (pow2_pos z) as Hp.
  assert (Hq : IZR x1 / pow2 z < IZR x2 / pow2 z).
  { unfold Rdiv. apply Rmult_lt_compat_r; [apply Rinv_0_lt_compat; exact Hp|exact H]. }
  lra.
Qed.

(** The Mercator ordinate: [sinh (ln (tan p + 1 / cos p)) = tan p]
    between the poles. *)
Lemma mercator_sinh (p : R) :
  - (PI / 2) < p < PI / 2 ->
  0 < tan p + 1 / cos p
  /\ 0.5 * (exp (ln (tan p + 1 / cos p)) - exp (- ln (tan p + 1 / cos p))) = tan p.
Proof.
  intros [Hl Hu].
  pose proof (cos_gt_0 p Hl Hu) as Hc.
  pose proof (sin2_cos2 p) as Hsc. unfold Rsqr in Hsc.
  assert (Hcc : 0 < cos p * cos p) by (apply Rmult_lt_0_compat; exact Hc).
  assert (Hs : -1 < sin p).
  { apply Rnot_le_lt. intros Hle.
    assert (0 <= (- 1 - sin p) * (1 - sin p)) by (apply Rmult_le_pos; lra).
    lra. }
  assert (Hu' : tan p + 1 / cos p = (sin p + 1) / cos p).
  { unfold tan. field. lra. }
  assert (Hpos : 0 < tan p + 1 / cos p).
  { rewrite Hu'. apply Rdiv_lt_0_compat; lra. }
  split; [exact Hpos|].
  rewrite exp_Ropp, exp_ln by exact Hpos.
  rewrite Hu'. unfold tan.
  assert (Hc2 : cos p * cos p = 1 - sin p * sin p) by lra.
  field_simplify_eq; [|lra].
  replace (cos p ^ 2) with (1 - sin p * sin p) by (rewrite <- Hc2; ring).
  lra.
Qed.

End GeoFacts.

Section TileTheorem.
Import Geo.
Local Open Scope R_scope.

(** [Math.floor(a * P)] brackets [a] within [1 / P]. *)
Lemma floor_scaled (a P : R) :
  0 < P ->
  IZR (Zfloor (a * P)) / P <= a < IZR (Zfloor (a * P)) / P + 1 / P.
Proof.
  intros HP. destruct (Zfloor_bound (a * P)) as [Hlo Hhi].
  assert (HiP : 0 < / P) by (apply Rinv_0_lt_compat; exact HP).
  assert (E : a = a * P * / P) by (field; lra).
  split.
  - rewrite E at 2. unfold Rdiv.
    apply Rmult_le_compat_r; [lra|exact Hlo].
  - rewrite E at 1. unfold Rdiv. rewrite Rmult_1_l.
    rewrite <- (Rmult_1_l (/ P)) at 3. rewrite <- Rmult_plus_distr_r.
    apply Rmult_lt_compat_r; [exact HiP|exact Hhi].
Qed.

Lemma latRad_range (la : R) :
  -85.06 < la < 85.06 -> - (PI / 2) < la * PI / 180 < PI / 2.
Proof.
  intros [Hl Hu]. pose proof PI_RGT_0 as Hpi. split; nra.
Qed.

(** The row angle as a function of the row, solved for the Mercator
    ordinate [m]. *)
Lemma row_angle_solve (m q : R) :
  (q <= (1 - m / PI) / 2 -> m <= PI - 2 * PI * q)
  /\ ((1 - m / PI) / 2 < q -> PI - 2 * PI * q < m).
Proof.
  pose proof PI_RGT_0 as Hpi.
  assert (E : m = PI * (m / PI)) by (field; lra).
  split; intros H; rewrite E at 1 || rewrite E at 2; nra.
Qed.

(** C5, in exact arithmetic. For every latitude in (-85.06, 85.06),
    longitude in [-180, 180) and zoom, the corner that the formula of
    [tileToLatLon] gives for the tile of the formula of [latLonToTile],
    both evaluated over the real numbers, is the north-west corner of a
    tile that contains the point: the point's longitude lies in
    [lon', lon' + 360 / 2^zoom) and its latitude lies below or on the
    tile's top edge and strictly above the top edge of the next row.
    The engine evaluates the same formulas in binary64, where this holds
    up to rounding only. *)
Theorem tile_contains_point (la lo : R) (zoom : nat) :
  -85.06 < la < 85.06 -> -180 <= lo < 180 ->
  let t := latLonToTile la lo zoom in
  let nw := tileToLatLon (tx t) (ty t) zoom in
  (lon nw <= lo < lon nw + 360 / 2 ^ zoom)
  /\ (lat (tileToLatLon (tx t) (ty t + 1) zoom) < la <= lat nw).
Proof.
  intros Hla Hlo t nw.
  pose proof (pow2_pos zoom) as HP. pose proof PI_RGT_0 as Hpi.
  split.
  - unfold nw, t, tileToLatLon, latLonToTile. simpl.
    destruct (floor_scaled ((lo + 180) / 360) (pow2 zoom) HP) as [H1 H2].
    fold (pow2 zoom). unfold Rdiv in *. split; lra.
  - pose proof (latRad_range la Hla) as Hphi.
    destruct (mercator_sinh (la * PI / 180) Hphi) as [Hpos Hsinh].
    set (m := ln (tan (la * PI / 180) + 1 / cos (la * PI / 180))) in *.
    destruct (floor_scaled ((1 - m / PI) / 2) (pow2 zoom) HP) as [H1 H2].
    assert (Ela : la = 180 / PI * atan (tan (la * PI / 180))).
    { rewrite atan_tan by exact Hphi. field. lra. }
    assert (Hk : 0 < 180 / PI) by (apply Rdiv_lt_0_compat; lra).
    unfold nw, t, tileToLatLon, latLonToTile. simpl. fold m.
    set (y := Zfloor ((1 - m / PI) / 2 * pow2 zoom)) in *.
    split.
    + rewrite Ela at 1. apply Rmult_lt_compat_l; [exact Hk|].
      apply atan_increasing. rewrite <- Hsinh. apply sinh_lt.
      replace (2 * PI * IZR (y + 1) / pow2 zoom)
        with (2 * PI * (IZR y / pow2 zoom + 1 / pow2 zoom))
        by (rewrite plus_IZR; field; lra).
      apply (proj2 (row_angle_solve m _)). exact H2.
    + rewrite Ela at 1. apply Rmult_le_compat_l; [lra|].
      apply atan_le. rewrite <- Hsinh. apply sinh_le.
      replace (2 * PI * IZR y / pow2 zoom) with (2 * PI * (IZR y / pow2 zoom))
        by (field; lra).
      apply (proj1 (row_angle_solve m _)). exact H1.
Qed.

End TileTheorem.

Lemma tile_contains_point_witness :
  (-85.06 < 0 < 85.06)%R /\ (-180 <= 0 < 180)%R
  /\ let t := Geo.latLonToTile 0 0 1 in
     (Geo.lon (Geo.tileToLatLon (Geo.tx t) (Geo.ty t) 1) <= 0
      < Geo.lon (Geo.tileToLatLon (Geo.tx t) (Geo.ty t) 1) + 360 / 2 ^ 1)%R
     /\ (Geo.lat (Geo.tileToLatLon (Geo.tx t) (Geo.ty t + 1) 1) < 0
         <= Geo.lat (Geo.tileToLatLon (Geo.tx t) (Geo.ty t) 1))%R.
Proof.
  split; [lra|]. split; [lra|].
  apply (tile_contains_point 0 0 1); lra.
Defined.

(** In binary64 a longitude within one unit in the last place of a tile
    edge falls into the next column.  179.99999999999997 is a longitude
    in [-180, 180); adding 180 to it rounds to 360, so at zoom 11, the
    zoom of [fetchDEM], [latLonToTile] gives column 2048 = 2^11, one past
    the last column, and [tileToLatLon] puts the west edge of that column
    at 180, east of the point.  At zoom 0, whose only column is 0, it
    gives column 1. *)
Lemma tile_edge_counterexample :
  PrimFloat.leb (-180)%float Binary64.belowAntimeridian = true
  /\ PrimFloat.ltb Binary64.belowAntimeridian 180%float = true
  /\ Binary64.latLonToTile_x Binary64.belowAntimeridian 11 = 2048%float
  /\ Binary64.tileToLatLon_lon (Binary64.latLonToTile_x Binary64.belowAntimeridian 11) 11
     = 180%float
  /\ PrimFloat.leb
       (Binary64.tileToLatLon_lon (Binary64.latLonToTile_x Binary64.belowAntimeridian 11) 11)
       Binary64.belowAntimeridian
     = false
  /\ Binary64.latLonToTile_x Binary64.belowAntimeridian 0 = 1%float.
Proof. repeat split; vm_compute; reflexivity. Defined.

Section CropTheorems.
Import Geo Resample.
Local Open Scope R_scope.

(** The footprint of a non-empty tile rectangle has its east edge east
    of its west edge and its north edge north of its south edge, so
    both divisors of the crop formulas are positive. *)
Lemma footprint_proper (r : Mosaic.TileRange) (zoom : nat) :
  (Mosaic.xMin r <= Mosaic.xMax r)%Z -> (Mosaic.yMin r <= Mosaic.yMax r)%Z ->
  let nw := tileToLatLon (Mosaic.xMin r) (Mosaic.yMin r) zoom in
  let se := tileToLatLon (Mosaic.xMax r + 1) (Mosaic.yMax r + 1) zoom in
  0 < lon se - lon nw /\ 0 < lat nw - lat se.
Proof.
  intros Hx Hy nw se. split.
  - assert (H : lon nw < lon se) by (apply tile_lon_increasing; lia). lra.
  - assert (H : lat se < lat nw) by (apply tile_lat_decreasing; lia). lra.
Qed.

Lemma tileRange_nonempty (b : Bounds) (zoom : nat) :
  (Mosaic.xMin (tileRange b zoom) <= Mosaic.xMax (tileRange b zoom))%Z
  /\ (Mosaic.yMin (tileRange b zoom) <= Mosaic.yMax (tileRange b zoom))%Z.
Proof. unfold tileRange. simpl. lia. Qed.

Lemma mosaic_size_pos (r : Mosaic.TileRange) :
  (Mosaic.xMin r <= Mosaic.xMax r)%Z -> (Mosaic.yMin r <= Mosaic.yMax r)%Z ->
  0 < IZR (Mosaic.mosaicWidth r) /\ 0 < IZR (Mosaic.mosaicHeight r).
Proof.
  intros Hx Hy. unfold Mosaic.mosaicWidth, Mosaic.mosaicHeight, Mosaic.tileSize.
  split; apply IZR_lt; lia.
Qed.

(** Read back through the linear map from source pixels to degrees, the
    crop rectangle is the target box. *)
Lemma crop_edges (b : Bounds) (r : Mosaic.TileRange) (zoom : nat) :
  (Mosaic.xMin r <= Mosaic.xMax r)%Z -> (Mosaic.yMin r <= Mosaic.yMax r)%Z ->
  reads_back b r zoom
             (cropRect b r zoom (Mosaic.mosaicWidth r) (Mosaic.mosaicHeight r)).
Proof.
  intros Hx Hy.
  destruct (footprint_proper r zoom Hx Hy) as [Hlon Hlat].
  destruct (mosaic_size_pos r Hx Hy) as [Hw Hh].
  unfold reads_back, cropRect. cbn [cropX cropY cropW cropH].
  set (nw := tileToLatLon (Mosaic.xMin r) (Mosaic.yMin r) zoom) in *.
  set (se := tileToLatLon (Mosaic.xMax r + 1) (Mosaic.yMax r + 1) zoom) in *.
  repeat split; field; lra.
Qed.

(** C10, in exact arithmetic. For every (lat, lon) the box that
    [loadLocationTerrain] builds is {north: lat+0.15, south: lat-0.15,
    east: lon+0.15, west: lon-0.15}; evaluated over the real numbers,
    north - south and east - west are both 0.3, so north > south and
    east > west; and for every non-empty tile rectangle, in particular the
    ones that [fetchDEM] and [loadSatelliteTexture] derive from the box,
    both divisors of the crop formulas are nonzero.  The engine evaluates
    the sums in binary64, where the extents are 0.3 up to rounding only
    and vanish for coordinates of great magnitude. *)
Theorem location_bounds_proper (la lo : R) :
  let b := locationBounds la lo in
  b = mkBounds (la + 0.15) (la - 0.15) (lo + 0.15) (lo - 0.15)
  /\ north b - south b = 0.3 /\ east b - west b = 0.3
  /\ north b > south b /\ east b > west b
  /\ (forall (r : Mosaic.TileRange) (zoom : nat),
         ((Mosaic.xMin r <= Mosaic.xMax r)%Z /\ (Mosaic.yMin r <= Mosaic.yMax r)%Z)
         \/ r = tileRange b zoom ->
         lon (tileToLatLon (Mosaic.xMax r + 1) (Mosaic.yMax r + 1) zoom)
         - lon (tileToLatLon (Mosaic.xMin r) (Mosaic.yMin r) zoom) <> 0
         /\ lat (tileToLatLon (Mosaic.xMin r) (Mosaic.yMin r) zoom)
            - lat (tileToLatLon (Mosaic.xMax r + 1) (Mosaic.yMax r + 1) zoom) <> 0).
Proof.
  intros b. unfold b, locationBounds. cbn [north south east west].
  split; [reflexivity|]. repeat (split; [lra|]).
  intros r zoom H.
  assert (Hne : (Mosaic.xMin r <= Mosaic.xMax r)%Z /\ (Mosaic.yMin r <= Mosaic.yMax r)%Z).
  { destruct H as [H| ->]; [exact H|apply tileRange_nonempty]. }
  destruct (footprint_proper r zoom (proj1 Hne) (proj2 Hne)) as [H1 H2].
  split; lra.
Qed.

End CropTheorems.

(** In binary64 the box of the preset "Mount Everest" (27.9881, 86.925)
    is 0.29999999999999716 degrees high, not 0.3.  And for the latitude
    4e15, a finite number that a shared link can carry, adding 0.15 and
    subtracting 0.15 both give 4e15 back: north = south, and north > south
    fails. *)
Lemma location_bounds_counterexample :
  (Binary64.north (Binary64.locationBounds 27.9881 86.925)
   - Binary64.south (Binary64.locationBounds 27.9881 86.925))%float
  = 0.29999999999999716%float
  /\ PrimFloat.eqb
       (Binary64.north (Binary64.locationBounds 27.9881 86.925)
        - Binary64.south (Binary64.locationBounds 27.9881 86.925))%float
       0.3%float
     = false
  /\ Binary64.north (Binary64.locationBounds 4e15 0) = 4e15%float
  /\ Binary64.south (Binary64.locationBounds 4e15 0) = 4e15%float
  /\ PrimFloat.ltb (Binary64.south (Binary64.locationBounds 4e15 0))
                   (Binary64.north (Binary64.locationBounds 4e15 0))
     = false.
Proof. repeat split; vm_compute; reflexivity. Defined.

Section MeshFacts.
Import Raster Mesh.

Lemma inject_Z_nonzero (n : Z) : n <> 0 -> ~ (inject_Z n == 0)%Q.
Proof. intros Hn H. unfold Qeq in H. simpl in H. lia. Qed.

(** The floor of a scaled ratio of integers is an integer division. *)
Lemma floor_ratio (k n m : Z) :
  0 < n -> Qfloor (inject_Z k / inject_Z n * inject_Z m) = (k * m) / n.
Proof.
  intros Hn. rewrite Zdiv_Qdiv. apply Qfloor_comp.
  rewrite inject_Z_mult. field. apply inject_Z_nonzero. lia.
Qed.

Lemma sampledTexel_div (k n size : Z) :
  0 < n -> sampledTexel k n size = (k * (size - 1)) / n.
Proof. apply floor_ratio. Qed.

Lemma sampledTexel_range (k n size : Z) :
  0 <= k <= n -> 0 < n -> 1 <= size ->
  0 <= sampledTexel k n size <= size - 1.
Proof.
  intros Hk Hn Hs. rewrite sampledTexel_div by exact Hn. split.
  - apply Z.div_pos; nia.
  - apply Z.div_le_upper_bound; nia.
Qed.

(** The sampled texel is the one at or just below the vertex. *)
Lemma sampledTexel_below (k n size : Z) :
  (inject_Z (sampledTexel k n size)
   <= inject_Z k / inject_Z n * inject_Z (size - 1)
   < inject_Z (sampledTexel k n size) + 1)%Q.
Proof.
  unfold sampledTexel. split.
  - apply Qfloor_le.
  - rewrite <- (inject_Z_plus _ 1). apply Qlt_floor.
Qed.

Lemma pixel_index (px py W H : Z) :
  0 <= px <= W - 1 -> 0 <= py <= H - 1 ->
  (py * W + px) mod W = px /\ (py * W + px) / W = py
  /\ 0 <= py * W + px < W * H.
Proof.
  intros Hx Hy.
  assert (HW : 0 < W) by lia.
  split; [|split].
  - rewrite Z.add_comm, Z_mod_plus_full. apply Z.mod_small. lia.
  - rewrite Z.add_comm, Z_div_plus_full by lia.
    rewrite Z.div_small by lia. lia.
  - nia.
Qed.

(** The byte that vertex [i] reads is the red channel of the texel
    [(px, py)] it samples. *)
Lemma vertexZ_pixel (img : Image) (W H width : Z) (scale : Q) (i : Z) :
  2 <= width -> 1 <= W -> 1 <= H -> 0 <= i < width * width ->
  vertexZ (getImageData img W H) W H width scale i
  = (inject_Z (chR (img_px img (sampledTexel (i mod width) (width - 1) W)
                               (sampledTexel (i / width) (width - 1) H)))
     / 255 * scale)%Q.
Proof.
  intros Hw HW HH Hi. unfold vertexZ.
  rewrite <- Zdiv_Qdiv.
  fold (sampledTexel (i mod width) (width - 1) W).
  fold (sampledTexel (i / width) (width - 1) H).
  assert (Hx : 0 <= i mod width <= width - 1)
    by (pose proof (Z.mod_pos_bound i width); lia).
  assert (Hy : 0 <= i / width <= width - 1).
  { split; [apply Z.div_pos; lia|].
    assert (i / width < width) by (apply Z.div_lt_upper_bound; lia). lia. }
  pose proof (sampledTexel_range _ _ W Hx ltac:(lia) HW) as Hpx.
  pose proof (sampledTexel_range _ _ H Hy ltac:(lia) HH) as Hpy.
  set (px := sampledTexel (i mod width) (width - 1) W) in *.
  set (py := sampledTexel (i / width) (width - 1) H) in *.
  destruct (pixel_index px py W H Hpx Hpy) as [Hm [Hd Hr]].
  replace (Z.to_nat ((py * W + px) * 4)) with (Z.to_nat (py * W + px) * 4 + 0)%nat
    by lia.
  rewrite getImageData_at by lia.
  rewrite Z2Nat.id by lia. rewrite Hm, Hd. reflexivity.
Qed.

Lemma planeGeometry_count (segments : Z) :
  0 <= segments ->
  Z.of_nat (List.length (planeGeometry segments)) = (segments + 1) * (segments + 1)
  /\ Z.sqrt (Z.of_nat (List.length (planeGeometry segments))) = segments + 1.
Proof.
  intros Hs. unfold planeGeometry. rewrite repeat_length, Z2Nat.id by nia.
  split; [reflexivity|].
  apply Z.sqrt_square. lia.
Qed.

(** The height that mesh synthesis gives vertex [i]. *)
Lemma displaced_vertex (img : Image) (segments : Z) (e : Q) (i : Z) :
  1 <= segments -> 1 <= img_w img -> 1 <= img_h img ->
  0 <= i < (segments + 1) * (segments + 1) ->
  nth (Z.to_nat i) (applyHeightmapToGeometry (planeGeometry segments) img e) 0%Q
  = (inject_Z (chR (img_px img (sampledTexel (i mod (segments + 1)) segments (img_w img))
                               (sampledTexel (i / (segments + 1)) segments (img_h img))))
     / 255 * e)%Q.
Proof.
  intros Hs HW HH Hi. unfold applyHeightmapToGeometry.
  destruct (planeGeometry_count segments ltac:(lia)) as [Hc Hq].
  rewrite Hq.
  set (f := fun k : nat =>
              vertexZ (getImageData img (img_w img) (img_h img)) (img_w img) (img_h img)
                      (segments + 1) e (Z.of_nat k)).
  assert (Hlen : (Z.to_nat i < List.length (planeGeometry segments))%nat) by lia.
  rewrite nth_indep with (d' := f O) by (rewrite length_map, length_seq; exact Hlen).
  rewrite map_nth, seq_nth by exact Hlen. unfold f. simpl Nat.add.
  rewrite Z2Nat.id by lia.
  rewrite vertexZ_pixel by lia.
  replace (segments + 1 - 1) with segments by lia. reflexivity.
Qed.

End MeshFacts.

Section MeshTheorem.
Import Raster Mesh.

Lemma unit_sample (b : Z) : is_byte b -> (0 <= inject_Z b / 255 <= 1)%Q.
Proof.
  unfold is_byte. intros Hb. split.
  - apply Qle_shift_div_l; [reflexivity|].
    rewrite Qmult_0_l. change 0%Q with (inject_Z 0). rewrite <- Zle_Qle. lia.
  - apply Qle_shift_div_r; [reflexivity|].
    rewrite Qmult_1_l. change 255%Q with (inject_Z 255). rewrite <- Zle_Qle. lia.
Qed.

(** In binary64 and binary32 too, a scale of 0 stores 0 for every byte. *)
Lemma storedZ_flat (b : Z) :
  is_byte b -> PrimFloat.eqb (Binary64.storedZ b 0%float) 0%float = true.
Proof.
  unfold is_byte. intros Hb.
  assert (H : forallb (fun n => PrimFloat.eqb (Binary64.storedZ (Z.of_nat n) 0%float)
                                              0%float)
                      (seq 0 256) = true) by (vm_compute; reflexivity).
  rewrite forallb_forall in H. specialize (H (Z.to_nat b)).
  rewrite Z2Nat.id in H by lia. apply H. apply in_seq. lia.
Qed.

(** C6, as the code has it, for the value that the loop hands to
    [positions.setZ], in exact arithmetic (the [Float32Array] then keeps
    the nearest binary32 number).  For every heightmap image, segment
    count, exaggeration e and vertex i: the height of the vertex is
    (sampled red byte / 255) * e, where the texel sampled is
    (floor(u * (W - 1)), floor(v * (H - 1))), the texel at or just below
    the vertex's (u, v), inside the image; with e = 0 the height is 0
    whatever the heightmap holds; with e >= 0 the height lies in [0, e];
    and scaling e by k scales the height by k.  With e = 0 the number
    that the array stores, computed in binary64 and rounded to binary32,
    is 0 as well. *)
Theorem vertex_displacement (img : Image) (segments : Z) (e : Q) (i : Z) :
  1 <= segments -> 1 <= img_w img -> 1 <= img_h img ->
  (forall x y, is_byte (chR (img_px img x y))) ->
  0 <= i < (segments + 1) * (segments + 1) ->
  let W := img_w img in
  let H := img_h img in
  let x := i mod (segments + 1) in
  let y := i / (segments + 1) in
  let px := sampledTexel x segments W in
  let py := sampledTexel y segments H in
  let sample := chR (img_px img px py) in
  let z := fun scale : Q =>
             nth (Z.to_nat i)
                 (applyHeightmapToGeometry (planeGeometry segments) img scale) 0%Q in
  z e = (inject_Z sample / 255 * e)%Q
  /\ (0 <= px <= W - 1 /\ 0 <= py <= H - 1)
  /\ (inject_Z px <= inject_Z x / inject_Z segments * inject_Z (W - 1) < inject_Z px + 1)%Q
  /\ (inject_Z py <= inject_Z y / inject_Z segments * inject_Z (H - 1) < inject_Z py + 1)%Q
  /\ (z 0 == 0)%Q
  /\ ((0 <= e)%Q -> (0 <= z e <= e)%Q)
  /\ (forall k : Q, z (k * e) == k * z e)%Q
  /\ PrimFloat.eqb (Binary64.storedZ sample 0%float) 0%float = true.
Proof.
  intros Hs HW HH Hbyte Hi W H x y px py sample z.
  assert (Hz : forall scale, z scale = (inject_Z sample / 255 * scale)%Q).
  { intros scale. unfold z. apply displaced_vertex; assumption. }
  assert (Hx : 0 <= x <= segments)
    by (unfold x; pose proof (Z.mod_pos_bound i (segments + 1)); lia).
  assert (Hy : 0 <= y <= segments).
  { unfold y. split; [apply Z.div_pos; lia|].
    assert (i / (segments + 1) < segments + 1)
      by (apply Z.div_lt_upper_bound; lia). lia. }
  destruct (unit_sample sample (Hbyte px py)) as [H0 H1].
  split; [apply Hz|].
  split; [split; apply sampledTexel_range; assumption || lia|].
  split; [apply sampledTexel_below|]. split; [apply sampledTexel_below|].
  split; [rewrite Hz; ring|].
  split.
  - intros He. rewrite Hz. split.
    + apply Qmult_le_0_compat; assumption.
    + rewrite <- (Qmult_1_l e) at 2. apply Qmult_le_compat_r; assumption.
  - split; [intros k; rewrite !Hz; ring|].
    apply storedZ_flat. apply Hbyte.
Qed.

End MeshTheorem.

Lemma stripe_bytes (x y : Z) :
  Raster.is_byte (Raster.chR (Raster.img_px Mesh.stripe x y)).
Proof.
  unfold Raster.is_byte, Mesh.stripe. simpl. destruct (x =? 2); simpl; lia.
Qed.

Lemma vertex_displacement_witness :
  (nth 2 (Mesh.applyHeightmapToGeometry (Mesh.planeGeometry 256) Mesh.stripe 10) 0
   == 0)%Q
  /\ (nth 4 (Mesh.applyHeightmapToGeometry (Mesh.planeGeometry 256) Mesh.stripe 10) 0
      <= 10)%Q.
Proof.
  split.
  - pose proof (vertex_displacement Mesh.stripe 256 10 2
                  ltac:(lia) ltac:(cbn; lia) ltac:(cbn; lia) stripe_bytes ltac:(lia)) as H.
    cbv zeta in H. destruct H as [Hz _].
    change (Z.to_nat 2) with 2%nat in Hz. rewrite Hz. vm_compute. reflexivity.
  - pose proof (vertex_displacement Mesh.stripe 256 10 4
                  ltac:(lia) ltac:(cbn; lia) ltac:(cbn; lia) stripe_bytes ltac:(lia)) as H.
    cbv zeta in H. destruct H as [_ [_ [_ [_ [_ [Hr _]]]]]].
    change (Z.to_nat 4) with 4%nat in Hr. apply Hr. discriminate.
Defined.

Lemma lastColumn_bytes (x y : Z) :
  Raster.is_byte (Raster.chR (Raster.img_px Mesh.lastColumn x y)).
Proof.
  unfold Raster.is_byte, Mesh.lastColumn. simpl. destruct (x =? 3); simpl; lia.
Qed.

(** The texel read is not the nearest one, however a texel's place is
    read.  On an axis of 4 texels the vertex before the last, u = 255/256,
    reads texel 2 (the floor of 2.988); texel 3 is strictly nearer to u
    both when texel p sits at p / (W - 1) and when it sits at its centre
    (p + 1/2) / W; and the height of the vertex is that of texel 2, not
    that of texel 3.  On the 512-texel axis of the heightmaps that
    [fetchDEM] stores, the vertex next to the corner, u = 1/256, reads
    texel 1, while 2 is the nearest of the texels at p / (W - 1).  And the
    height is within [0, e] only before it is stored: for a white texel
    and e = 2.7 the array holds 2.700000047683716, which is above e. *)
Lemma nearest_texel_counterexample :
  (Mesh.sampledTexel (255 mod 257) 256 4 = 2
   /\ Mesh.nearestTexel (255 mod 257) 256 4 = 3
   /\ Mesh.nearestCentre (255 mod 257) 256 4 = 3
   /\ (Qabs ((255 # 256) - Mesh.cornerPos 3 4) < Qabs ((255 # 256) - Mesh.cornerPos 2 4))%Q
   /\ (Qabs ((255 # 256) - Mesh.centrePos 3 4) < Qabs ((255 # 256) - Mesh.centrePos 2 4))%Q
   /\ (nth 255 (Mesh.applyHeightmapToGeometry (Mesh.planeGeometry 256) Mesh.lastColumn 10) 0
       == 0)%Q
   /\ (inject_Z (Raster.chR (Raster.img_px Mesh.lastColumn 3 0)) / 255 * 10 == 10)%Q)
  /\ (Mesh.nearestTexel (1 mod 257) 256 512 = 2
      /\ Mesh.nearestTexel (1 / 257) 256 512 = 0
      /\ Mesh.sampledTexel (1 mod 257) 256 512 = 1
      /\ ~ (nth 1 (Mesh.applyHeightmapToGeometry (Mesh.planeGeometry 256) Mesh.stripe 10) 0
            == inject_Z (Raster.chR (Raster.img_px Mesh.stripe
                                       (Mesh.nearestTexel (1 mod 257) 256 512)
                                       (Mesh.nearestTexel (1 / 257) 256 512)))
               / 255 * 10)%Q)
  /\ (Binary64.storedZ 255 2.7%float = 2.700000047683716%float
      /\ PrimFloat.ltb 2.7%float (Binary64.storedZ 255 2.7%float) = true).
Proof.
  split; [|split].
  - split; [reflexivity|]. split; [reflexivity|]. split; [reflexivity|].
    split; [vm_compute; reflexivity|]. split; [vm_compute; reflexivity|].
    split; [|vm_compute; reflexivity].
    pose proof (displaced_vertex Mesh.lastColumn 256 10 255
                  ltac:(lia) ltac:(cbn; lia) ltac:(cbn; lia) ltac:(lia)) as Hz.
    change (Z.to_nat 255) with 255%nat in Hz. rewrite Hz.
    vm_compute. reflexivity.
  - split; [reflexivity|]. split; [reflexivity|]. split; [reflexivity|].
    pose proof (displaced_vertex Mesh.stripe 256 10 1
                  ltac:(lia) ltac:(cbn; lia) ltac:(cbn; lia) ltac:(lia)) as Hz.
    change (Z.to_nat 1) with 1%nat in Hz. rewrite Hz.
    vm_compute. discriminate.
  - split; vm_compute; reflexivity.
Defined.

Section EngineFacts.
Import Raster Promise Mosaic JSNum Geo Resample Engine.
Local Open Scope engine_scope.

(** The [try] block of [fetchDEM] either throws where its stages throw,
    leaving the page as it was at that moment, or installs what they
    computed. *)
Lemma fetchDEM_try_run (h : Host) (b : Bounds) (w : World) :
  fetchDEM_try h b w
  = match fetchDEM_stages h b with
    | Throw msg => Thrown (reached h b w) msg
    | Ok (final, eMin, eMax) => Done (installed final eMin eMax w) tt
    end.
Proof.
  unfold fetchDEM_try, fetchDEM_stages, reached, fetchDEM_computed, lateFault,
    interrupted, host, bindM, liftResult.
  destruct (hostFault h CreateCanvas); [reflexivity|]. cbn [ret throw].
  destruct (fetchMosaic (loadImage h) (TerrariumPng 11) (tileRange b 11));
    [|reflexivity]. cbn [ret throw].
  destruct (hostFault h GetImageData); [reflexivity|]. cbn [ret throw].
  destruct (hostFault h NewFloat32Array); [reflexivity|]. cbn [ret throw].
  destruct (hostFault h CreateImageData); [reflexivity|]. cbn [ret throw].
  destruct (hostFault h PutImageData); [reflexivity|]. cbn [ret throw].
  destruct (hostFault h DrawImageScaled); [reflexivity|]. cbn [ret throw].
  destruct (hostFault h NewCanvasTexture); [reflexivity|]. cbn [ret throw].
  unfold modify at 1 2. cbv beta iota.
  destruct (hostFault h BuildTerrain); [reflexivity|]. cbn [ret throw].
  unfold rebuilt, stored, updated, createTerrain, modify. cbn [world_of app exagValue dom].
  destruct (hostFault h AddToScene); [reflexivity|]. cbn [ret throw].
  unfold emit at 1 2. cbv beta iota. cbn [world_of app exagValue dom].
  destruct (hostFault h WriteCoordAlt).
  - unfold shown. cbn. rewrite <- !app_assoc. reflexivity.
  - unfold installed, emit. cbn. rewrite <- !app_assoc. reflexivity.
Qed.

(** [fetchDEM] always completes, with no value; the page afterwards. *)
Lemma fetchDEM_run (h : Host) (w : World) :
  fetchDEM h w
  = Done
      match bounds (app w) with
      | None => shown [SetStatus SetBoundsFirst KError] w
      | Some b =>
          let w1 := shown [ShowLoading "Fetching elevation tiles...";
                           SetStatus FetchingDEM KLoading] w in
          match fetchDEM_stages h b with
          | Throw msg =>
              shown [HideLoading; SetStatus (DemError msg) KError] (reached h b w1)
          | Ok (final, eMin, eMax) => installed final eMin eMax w1
          end
      end
      Undefined.
Proof.
  unfold fetchDEM. destruct (bounds (app w)) as [b|]; [|reflexivity].
  unfold bindM, tryCatch, emit. cbn [app exagValue dom].
  rewrite fetchDEM_try_run.
  destruct (fetchDEM_stages h b) as [[[final eMin] eMax]|msg].
  - unfold shown. cbn. rewrite <- !app_assoc. reflexivity.
  - unfold shown, ret. cbn. rewrite <- !app_assoc. reflexivity.
Qed.

Lemma computed_throw_no_tiles (h : Host) (b : Bounds) :
  succeeded (loadImage h) (TerrariumPng 11) (tileRange b 11) = 0 ->
  exists msg, fetchDEM_computed h b = Throw msg.
Proof.
  intros H0. unfold fetchDEM_computed.
  destruct (hostFault h CreateCanvas) as [m|]; [exists m; reflexivity|].
  rewrite fetchMosaic_unfold, H0. cbn. eexists. reflexivity.
Qed.

Lemma computed_throw_fault (h : Host) (b : Bounds) (c : HostCall) (m : string) :
  beforeStore c = true -> hostFault h c = Some m ->
  exists msg, fetchDEM_computed h b = Throw msg.
Proof.
  intros Hb Hc. unfold fetchDEM_computed.
  destruct (hostFault h CreateCanvas) as [m1|] eqn:E1; [eexists; reflexivity|].
  destruct (fetchMosaic _ _ _); [|eexists; reflexivity].
  destruct (hostFault h GetImageData) as [m2|] eqn:E2; [eexists; reflexivity|].
  destruct (hostFault h NewFloat32Array) as [m3|] eqn:E3; [eexists; reflexivity|].
  destruct (hostFault h CreateImageData) as [m4|] eqn:E4; [eexists; reflexivity|].
  destruct (hostFault h PutImageData) as [m5|] eqn:E5; [eexists; reflexivity|].
  destruct (hostFault h DrawImageScaled) as [m6|] eqn:E6; [eexists; reflexivity|].
  destruct (hostFault h NewCanvasTexture) as [m7|] eqn:E7; [eexists; reflexivity|].
  destruct c; try congruence; discriminate Hb.
Qed.

(** What has been computed when the assignments are reached is the
    resampled normalised heightmap of the decoded mosaic with the range
    of its valid samples; some tile has arrived and no call before the
    assignments has thrown. *)
Lemma computed_ok (h : Host) (b : Bounds) (final : Image) (eMin eMax : Num) :
  fetchDEM_computed h b = Ok (final, eMin, eMax) ->
  (forall c, beforeStore c = true -> hostFault h c = None)
  /\ succeeded (loadImage h) (TerrariumPng 11) (tileRange b 11) <> 0
  /\ exists ctx,
      fetchMosaic (loadImage h) (TerrariumPng 11) (tileRange b 11) = Ok ctx
      /\ let width := mosaicWidth (tileRange b 11) in
         let height := mosaicHeight (tileRange b 11) in
         let elevation :=
           Terrarium.decodeAll (getImageData ctx width height)
                               (Z.to_nat (width * height)) in
         final = drawScaled h (putImageData width height
                                            (Normalize.heightmapData elevation))
                            (heightmapDraw b)
         /\ eMin = fst (Normalize.minmax elevation)
         /\ eMax = snd (Normalize.minmax elevation).
Proof.
  intros H.
  assert (Hf : forall c, beforeStore c = true -> hostFault h c = None).
  { intros c Hc. destruct (hostFault h c) as [m|] eqn:E; [|reflexivity].
    destruct (computed_throw_fault h b c m Hc E) as [msg Hm]. congruence. }
  split; [exact Hf|]. split.
  - intros H0. destruct (computed_throw_no_tiles h b H0) as [msg Hm]. congruence.
  - unfold fetchDEM_computed in H.
    rewrite (Hf CreateCanvas eq_refl), (Hf GetImageData eq_refl),
      (Hf NewFloat32Array eq_refl), (Hf CreateImageData eq_refl),
      (Hf PutImageData eq_refl), (Hf DrawImageScaled eq_refl),
      (Hf NewCanvasTexture eq_refl) in H.
    destruct (fetchMosaic _ _ _) as [ctx|msg]; [|discriminate].
    exists ctx. split; [reflexivity|]. inversion H. repeat split.
Qed.

Lemma lateFault_none (h : Host) :
  lateFault h = None ->
  hostFault h BuildTerrain = None /\ hostFault h AddToScene = None
  /\ hostFault h WriteCoordAlt = None.
Proof.
  unfold lateFault.
  destruct (hostFault h BuildTerrain); [discriminate|].
  destruct (hostFault h AddToScene); [discriminate|].
  intros H. repeat split. exact H.
Qed.

(** The stages complete exactly when everything was computed and no call
    after the assignments throws. *)
Lemma stages_computed (h : Host) (b : Bounds) (result : Image * Num * Num) :
  fetchDEM_stages h b = Ok result
  <-> fetchDEM_computed h b = Ok result /\ lateFault h = None.
Proof.
  unfold fetchDEM_stages. destruct (fetchDEM_computed h b) as [r|msg].
  - destruct (lateFault h) as [m|]; split.
    + discriminate.
    + intros [_ H]. discriminate H.
    + intros H. split; [exact H|reflexivity].
    + intros [H _]. exact H.
  - split; [discriminate|]. intros [H _]. discriminate H.
Qed.

Lemma stages_throw_no_tiles (h : Host) (b : Bounds) :
  succeeded (loadImage h) (TerrariumPng 11) (tileRange b 11) = 0 ->
  exists msg, fetchDEM_stages h b = Throw msg.
Proof.
  intros H0. destruct (computed_throw_no_tiles h b H0) as [msg Hm].
  exists msg. unfold fetchDEM_stages. rewrite Hm. reflexivity.
Qed.

Lemma stages_throw_fault (h : Host) (b : Bounds) (c : HostCall) (m : string) :
  hostFault h c = Some m -> exists msg, fetchDEM_stages h b = Throw msg.
Proof.
  intros Hc. destruct (fetchDEM_stages h b) as [r|msg] eqn:Hs; [|eauto].
  exfalso. apply stages_computed in Hs. destruct Hs as [Hcomp Hlate].
  destruct r as [[final eMin] eMax].
  destruct (computed_ok h b final eMin eMax Hcomp) as [Hf _].
  destruct (lateFault_none h Hlate) as [H1 [H2 H3]].
  destruct c;
    match type of Hc with
    | hostFault h ?c' = _ =>
        first [ rewrite (Hf c' eq_refl) in Hc; discriminate Hc | congruence ]
    end.
Qed.

(** Wherever the [try] block throws, the two statistics are what they
    were. *)
Lemma reached_stats (h : Host) (b : Bounds) (w : World) :
  elevationMin (app (reached h b w)) = elevationMin (app w)
  /\ elevationMax (app (reached h b w)) = elevationMax (app w).
Proof.
  unfold reached, interrupted.
  destruct (fetchDEM_computed h b) as [[[final eMin] eMax]|msg]; [|split; reflexivity].
  destruct (hostFault h BuildTerrain); [split; reflexivity|].
  destruct (hostFault h AddToScene); split; reflexivity.
Qed.

(** A throw before the assignments leaves the page as it was. *)
Lemma reached_before (h : Host) (b : Bounds) (w : World) (msg : string) :
  fetchDEM_computed h b = Throw msg ->
  reached h b w = w /\ fetchDEM_stages h b = Throw msg.
Proof.
  intros H. unfold reached, fetchDEM_stages. rewrite H. split; reflexivity.
Qed.

(** When no call into the browser throws, the only throw is the one for
    no tiles, before the assignments. *)
Lemma reached_no_fault (h : Host) (b : Bounds) (w : World) (msg : string) :
  (forall c, hostFault h c = None) ->
  fetchDEM_stages h b = Throw msg ->
  reached h b w = w /\ fetchDEM_computed h b = Throw msg.
Proof.
  intros Hf. unfold fetchDEM_stages, reached, lateFault. rewrite !Hf.
  destruct (fetchDEM_computed h b) as [r|m]; [discriminate|].
  intros H. split; [reflexivity|exact H].
Qed.

(** A throw after them finds the textures stored, and the mesh rebuilt
    from them unless [createTerrain] threw before its own assignment. *)
Lemma reached_after (h : Host) (b : Bounds) (w : World)
      (final : Image) (eMin eMax : Num) (msg : string) :
  fetchDEM_computed h b = Ok (final, eMin, eMax) ->
  lateFault h = Some msg ->
  fetchDEM_stages h b = Throw msg
  /\ heightmapTexture (app (reached h b w)) = Some (CanvasTexture final)
  /\ colorTexture (app (reached h b w)) = None
  /\ terrain (app (reached h b w))
     = match hostFault h BuildTerrain with
       | Some _ => terrain (app w)
       | None => Some (mkMesh (Mesh.applyHeightmapToGeometry (Mesh.planeGeometry 256)
                                                             final (exagValue w))
                              VertexColors)
       end
  /\ exists shownBefore, dom (reached h b w) = dom w ++ shownBefore.
Proof.
  intros Hc Hl. unfold fetchDEM_stages, reached, interrupted. rewrite Hc, Hl.
  split; [reflexivity|].
  destruct (hostFault h BuildTerrain).
  - repeat (split; [reflexivity|]). exists []. cbn. rewrite app_nil_r. reflexivity.
  - destruct (hostFault h AddToScene).
    + repeat (split; [reflexivity|]). exists []. cbn. rewrite app_nil_r. reflexivity.
    + repeat (split; [reflexivity|]). eexists. reflexivity.
Qed.

(** When the stages complete, every one of them has succeeded, and their
    result is the resampled normalised heightmap of the decoded mosaic
    with the range of its valid samples. *)
Lemma stages_ok (h : Host) (b : Bounds) (final : Image) (eMin eMax : Num) :
  fetchDEM_stages h b = Ok (final, eMin, eMax) ->
  (forall c, hostFault h c = None)
  /\ succeeded (loadImage h) (TerrariumPng 11) (tileRange b 11) <> 0
  /\ exists ctx,
      fetchMosaic (loadImage h) (TerrariumPng 11) (tileRange b 11) = Ok ctx
      /\ let width := mosaicWidth (tileRange b 11) in
         let height := mosaicHeight (tileRange b 11) in
         let elevation :=
           Terrarium.decodeAll (getImageData ctx width height)
                               (Z.to_nat (width * height)) in
         final = drawScaled h (putImageData width height
                                            (Normalize.heightmapData elevation))
                            (heightmapDraw b)
         /\ eMin = fst (Normalize.minmax elevation)
         /\ eMax = snd (Normalize.minmax elevation).
Proof.
  intros H.
  assert (Hf : forall c, hostFault h c = None).
  { intros c. destruct (hostFault h c) as [m|] eqn:E; [|reflexivity].
    destruct (stages_throw_fault h b c m E) as [msg Hm]. congruence. }
  split; [exact Hf|]. split.
  - intros H0. destruct (stages_throw_no_tiles h b H0) as [msg Hm]. congruence.
  - apply stages_computed in H.
    exact (proj2 (proj2 (computed_ok h b final eMin eMax (proj1 H)))).
Qed.

(** The imagery mosaic always completes: it has no test for "no tiles". *)
Lemma fetchMosaicSat_run (load : URL -> Settled Image) (mk : Z -> Z -> URL) (r : TileRange) :
  fetchMosaicSat load mk r
  = Ok (fst (composite (createCanvas (mosaicWidth r) (mosaicHeight r))
                       (map (fun xy => tileResult load mk r (fst xy) (snd xy)) (coords r)))).
Proof.
  unfold fetchMosaicSat. rewrite tilePromises_eq, all_fulfilled. reflexivity.
Qed.

(** The page after an imagery load whose calls into the browser succeed:
    the texture is stored twice and the mesh rebuilt. *)
Lemma loadSatelliteTexture_run (h : Host) (w : World) (b : Bounds) :
  bounds (app w) = Some b ->
  hostFault h CreateCanvas = None -> hostFault h DrawImageScaled = None ->
  loadSatelliteTexture h w
  = Done (rebuilt (mkWorld (satelliteStored h b (app w)) (exagValue w) (dom w)))
         Undefined.
Proof.
  intros Hb Hc Hd. unfold loadSatelliteTexture. rewrite Hb.
  unfold bindM, host, liftResult. rewrite Hc. cbn [ret].
  rewrite fetchMosaicSat_run. cbn [ret]. rewrite Hd. cbn [ret].
  unfold satelliteStored, satelliteMosaic. rewrite fetchMosaicSat_run. reflexivity.
Qed.

End EngineFacts.

Section LoadTheorems.
Import Raster Promise Mosaic JSNum Geo Resample Engine.

Lemma succeeded_none (load : URL -> Settled Image) (mk : Z -> Z -> URL) (r : TileRange) :
  (forall u, is_fulfilled (load u) = false) -> succeeded load mk r = 0.
Proof.
  intros H. unfold succeeded.
  induction (coords r) as [|xy l IH]; [reflexivity|].
  simpl. rewrite H. exact IH.
Qed.

Lemma succeeded_some (load : URL -> Settled Image) (mk : Z -> Z -> URL) (r : TileRange) :
  (forall u, is_fulfilled (load u) = true) ->
  xMin r <= xMax r -> yMin r <= yMax r ->
  succeeded load mk r <> 0.
Proof.
  intros H Hx Hy. unfold succeeded.
  assert (Hin : In (xMin r, yMin r) (coords r)).
  { apply in_coords. unfold in_range. lia. }
  assert (Hf : In (xMin r, yMin r)
                  (filter (fun xy => is_fulfilled (load (mk (fst xy) (snd xy)))) (coords r))).
  { apply filter_In. split; [exact Hin|apply H]. }
  destruct (filter _ (coords r)); [destruct Hf|]. simpl. lia.
Qed.

(** When every tile arrives and no call into the browser throws, the
    stages complete. *)
Lemma stages_succeed (h : Host) (b : Bounds) :
  (forall u, is_fulfilled (loadImage h u) = true) ->
  (forall c, hostFault h c = None) ->
  exists final eMin eMax, fetchDEM_stages h b = Ok (final, eMin, eMax).
Proof.
  intros Hload Hf.
  destruct (fetchDEM_stages h b) as [[[final eMin] eMax]|msg] eqn:Hs; [eauto|].
  exfalso. unfold fetchDEM_stages, fetchDEM_computed, lateFault in Hs.
  rewrite !Hf, fetchMosaic_unfold in Hs.
  destruct (succeeded _ _ _ =? 0) eqn:E; [|discriminate Hs].
  apply Z.eqb_eq in E. revert E. apply succeeded_some.
  - exact Hload.
  - exact (proj1 (tileRange_nonempty b 11)).
  - exact (proj2 (tileRange_nonempty b 11)).
Qed.

(** C4. The crop rectangle that the code computes is the four
    linear-interpolation formulas of the specification, evaluated against
    the footprint whose north-west corner is tileToLatLon(xMin, yMin) and
    whose south-east corner is tileToLatLon(xMax+1, yMax+1), and it is
    the rectangle that the two loads draw from.  What [fetchDEM] stores as
    the heightmap texture is a 512 x 512 canvas, every pixel of which is
    the browser's resampling of the normalised mosaic over that rectangle
    (zoom 11) into 512 x 512; what [loadSatelliteTexture] stores as the
    colour texture is a 1024 x 1024 canvas, every pixel of which is the
    resampling of the imagery mosaic over that rectangle (zoom 13) into
    1024 x 1024.  On both, the rectangle read back through the footprint
    is the target box. *)
Theorem crop_rectangle (h : Host) (b : Bounds) :
  (forall (r : Mosaic.TileRange) (zoom : nat) (width height : Z),
      cropRect b r zoom width height
      = specCrop b
          (lon (tileToLatLon (Mosaic.xMin r) (Mosaic.yMin r) zoom))
          (lon (tileToLatLon (Mosaic.xMax r + 1) (Mosaic.yMax r + 1) zoom))
          (lat (tileToLatLon (Mosaic.xMin r) (Mosaic.yMin r) zoom))
          (lat (tileToLatLon (Mosaic.xMax r + 1) (Mosaic.yMax r + 1) zoom))
          (IZR width) (IZR height))
  /\ (forall (w : World) (final : Image) (eMin eMax : Num),
         bounds (app w) = Some b ->
         fetchDEM_stages h b = Ok (final, eMin, eMax) ->
         exists w' ctx,
           fetchDEM h w = Done w' Undefined
           /\ heightmapTexture (app w') = Some (CanvasTexture final)
           /\ fetchMosaic (loadImage h) (TerrariumPng 11) (tileRange b 11) = Ok ctx
           /\ let width := mosaicWidth (tileRange b 11) in
              let height := mosaicHeight (tileRange b 11) in
              let hmCanvas :=
                putImageData width height
                  (Normalize.heightmapData
                     (Terrarium.decodeAll (getImageData ctx width height)
                                          (Z.to_nat (width * height)))) in
              img_w hmCanvas = width /\ img_h hmCanvas = height
              /\ final = drawScaled h hmCanvas (heightmapDraw b)
              /\ img_w final = 512 /\ img_h final = 512
              /\ forall x y,
                  img_px final x y
                  = resample h hmCanvas (footprintCrop b (tileRange b 11) 11)
                             512 512 x y)
  /\ (forall (w : World),
         bounds (app w) = Some b ->
         hostFault h CreateCanvas = None -> hostFault h DrawImageScaled = None ->
         exists w' final,
           loadSatelliteTexture h w = Done w' Undefined
           /\ colorTexture (app w') = Some (CanvasTexture final)
           /\ satelliteTexture (app w') = Some (CanvasTexture final)
           /\ final = drawScaled h (satelliteMosaic h b) (satelliteDraw b)
           /\ fetchMosaicSat (loadImage h) (SatelliteTile 13) (tileRange b 13)
              = Ok (satelliteMosaic h b)
           /\ img_w (satelliteMosaic h b) = mosaicWidth (tileRange b 13)
           /\ img_h (satelliteMosaic h b) = mosaicHeight (tileRange b 13)
           /\ img_w final = 1024 /\ img_h final = 1024
           /\ forall x y,
               img_px final x y
               = resample h (satelliteMosaic h b) (footprintCrop b (tileRange b 13) 13)
                          1024 1024 x y)
  /\ reads_back b (tileRange b 11) 11 (src (heightmapDraw b))
  /\ reads_back b (tileRange b 13) 13 (src (satelliteDraw b)).
Proof.
  split; [reflexivity|]. split; [|split; [|split]].
  - intros w final eMin eMax Hb Hs.
    destruct (stages_ok h b final eMin eMax Hs) as [_ [_ [ctx [Hm Hfin]]]].
    cbv zeta in Hfin. destruct Hfin as [Hfinal _].
    eexists. exists ctx. split; [apply fetchDEM_run|].
    rewrite Hb. cbv zeta. rewrite Hs.
    split; [reflexivity|]. split; [exact Hm|].
    split; [reflexivity|]. split; [reflexivity|]. split; [exact Hfinal|].
    rewrite Hfinal. split; [reflexivity|]. split; [reflexivity|].
    intros x y. reflexivity.
  - intros w Hb Hc Hd. eexists. eexists.
    split; [apply (loadSatelliteTexture_run h w b Hb Hc Hd)|].
    split; [reflexivity|]. split; [reflexivity|]. split; [reflexivity|].
    split; [unfold satelliteMosaic; rewrite fetchMosaicSat_run; reflexivity|].
    split; [unfold satelliteMosaic; rewrite fetchMosaicSat_run; apply composite_size|].
    split; [unfold satelliteMosaic; rewrite fetchMosaicSat_run; apply composite_size|].
    split; [reflexivity|]. split; [reflexivity|].
    intros x y. reflexivity.
  - exact (crop_edges b (tileRange b 11) 11 (proj1 (tileRange_nonempty b 11))
                      (proj2 (tileRange_nonempty b 11))).
  - exact (crop_edges b (tileRange b 13) 13 (proj1 (tileRange_nonempty b 13))
                      (proj2 (tileRange_nonempty b 13))).
Qed.

Lemma crop_rectangle_witness :
  exists w1 w2 hm sat,
    fetchDEM onlineHost everestWorld = Done w1 Undefined
    /\ heightmapTexture (app w1) = Some (CanvasTexture hm)
    /\ img_w hm = 512 /\ img_h hm = 512
    /\ loadSatelliteTexture onlineHost everestWorld = Done w2 Undefined
    /\ colorTexture (app w2) = Some (CanvasTexture sat)
    /\ img_w sat = 1024 /\ img_h sat = 1024
    /\ img_px sat 0 0
       = resample onlineHost (satelliteMosaic onlineHost everest)
                  (footprintCrop everest (tileRange everest 13) 13) 1024 1024 0 0.
Proof.
  destruct (stages_succeed onlineHost everest (fun _ => eq_refl) (fun _ => eq_refl))
    as [final [eMin [eMax Hs]]].
  destruct (crop_rectangle onlineHost everest) as [_ [Hdem [Hsat _]]].
  destruct (Hdem everestWorld final eMin eMax eq_refl Hs)
    as [w1 [ctx [Hrun1 [Htex1 [_ H1]]]]].
  cbv zeta in H1. destruct H1 as [_ [_ [_ [Hw1 [Hh1 _]]]]].
  destruct (Hsat everestWorld eq_refl eq_refl eq_refl)
    as [w2 [sat [Hrun2 [Hcol [_ [_ [_ [_ [_ [Hw2 [Hh2 Hpx]]]]]]]]]]].
  exists w1, w2, final, sat.
  split; [exact Hrun1|]. split; [exact Htex1|]. split; [exact Hw1|]. split; [exact Hh1|].
  split; [exact Hrun2|]. split; [exact Hcol|]. split; [exact Hw2|]. split; [exact Hh2|].
  apply Hpx.
Defined.

(** C7, as the code has it. For every page and every way the network and
    the browser behave, [fetchDEM] completes and returns no value.  When
    its stages succeed it delivers the 512 x 512 normalised heightmap by
    storing it in [state.heightmapTexture] (clearing [state.colorTexture]
    and rebuilding the mesh from it), and it reports the elevation range
    over the valid samples only as text in the document; the fields
    [state.elevationMin] and [state.elevationMax] keep their values. *)
Theorem fetchDEM_returns_nothing (h : Host) (w : World) :
  exists w',
    fetchDEM h w = Done w' Undefined
    /\ elevationMin (app w') = elevationMin (app w)
    /\ elevationMax (app w') = elevationMax (app w)
    /\ forall b final eMin eMax,
        bounds (app w) = Some b ->
        fetchDEM_stages h b = Ok (final, eMin, eMax) ->
        heightmapTexture (app w') = Some (CanvasTexture final)
        /\ img_w final = 512 /\ img_h final = 512
        /\ colorTexture (app w') = None
        /\ terrain (app w')
           = Some (mkMesh (Mesh.applyHeightmapToGeometry (Mesh.planeGeometry 256)
                                                         final (exagValue w))
                          VertexColors)
        /\ dom w' = dom w ++ [ShowLoading "Fetching elevation tiles...";
                              SetStatus FetchingDEM KLoading;
                              HideLoading;
                              SetStatus (LoadedElevation eMin eMax) KSuccess;
                              CoordAlt eMin eMax]
        /\ exists ctx,
            fetchMosaic (loadImage h) (TerrariumPng 11) (tileRange b 11) = Ok ctx
            /\ let width := mosaicWidth (tileRange b 11) in
               let height := mosaicHeight (tileRange b 11) in
               let elevation :=
                 Terrarium.decodeAll (getImageData ctx width height)
                                     (Z.to_nat (width * height)) in
               final = drawScaled h (putImageData width height
                                                  (Normalize.heightmapData elevation))
                                  (heightmapDraw b)
               /\ (eMin, eMax) = Normalize.minmax elevation.
Proof.
  eexists. split; [apply fetchDEM_run|].
  destruct (bounds (app w)) as [b|] eqn:Hb.
  - destruct (fetchDEM_stages h b) as [[[final eMin] eMax]|msg] eqn:Hs.
    + split; [reflexivity|]. split; [reflexivity|].
      intros b' final' eMin' eMax' Eb Es. inversion Eb; subst b'.
      rewrite Hs in Es. inversion Es; subst final' eMin' eMax'.
      destruct (stages_ok h b final eMin eMax Hs) as [_ [_ [ctx [Hm Hfin]]]].
      cbv zeta in Hfin. destruct Hfin as [Hfinal [HeMin HeMax]].
      split; [reflexivity|].
      split; [rewrite Hfinal; reflexivity|]. split; [rewrite Hfinal; reflexivity|].
      split; [reflexivity|]. split; [reflexivity|].
      split; [cbn; rewrite <- app_assoc; reflexivity|].
      exists ctx. split; [exact Hm|]. cbv zeta. split; [exact Hfinal|].
      rewrite HeMin, HeMax. symmetry. apply surjective_pairing.
    + split; [exact (proj1 (reached_stats h b _))|].
      split; [exact (proj2 (reached_stats h b _))|].
      intros b' final eMin eMax Eb Es. inversion Eb; subst b'. congruence.
  - split; [reflexivity|]. split; [reflexivity|].
    intros b final eMin eMax Eb. discriminate Eb.
Qed.

(** C8, as the code has it. A run of [fetchDEM] that fails before line
    1226 (no bounds, zero tiles, or a call into the browser that throws
    before the heightmap is stored) leaves the whole of [state], and with it
    the stored heightmap texture, the stored colour texture and the
    installed mesh, as it was, and reports an error.  A run that fails
    afterwards, inside the same [try] ([createTerrain()] or the write into
    "coord-alt" throws), reports an error too, but by then the new
    heightmap texture is stored and the colour texture is cleared;
    [state.terrain] is still the previous mesh only when [createTerrain]
    threw before its own assignment (it may by then have taken that mesh
    out of the scene, lines 991-996, which [state] does not record), and
    is the rebuilt mesh otherwise.  And a run that changes [state] is one
    in which everything up to line 1226 has succeeded. *)
Theorem failed_load_keeps_terrain (h : Host) (w : World) :
  (fails_before_store h w ->
   exists w',
     fetchDEM h w = Done w' Undefined
     /\ app w' = app w
     /\ heightmapTexture (app w') = heightmapTexture (app w)
     /\ colorTexture (app w') = colorTexture (app w)
     /\ terrain (app w') = terrain (app w)
     /\ exists shownBefore text,
         dom w' = dom w ++ shownBefore ++ [SetStatus text KError])
  /\ (fails_after_store h w ->
      exists w' b final eMin eMax msg,
        fetchDEM h w = Done w' Undefined
        /\ bounds (app w) = Some b
        /\ fetchDEM_computed h b = Ok (final, eMin, eMax)
        /\ lateFault h = Some msg
        /\ heightmapTexture (app w') = Some (CanvasTexture final)
        /\ colorTexture (app w') = None
        /\ terrain (app w')
           = match hostFault h BuildTerrain with
             | Some _ => terrain (app w)
             | None => Some (mkMesh (Mesh.applyHeightmapToGeometry
                                       (Mesh.planeGeometry 256) final (exagValue w))
                                    VertexColors)
             end
        /\ exists shownBefore,
            dom w' = dom w ++ shownBefore ++ [SetStatus (DemError msg) KError])
  /\ (forall w',
         fetchDEM h w = Done w' Undefined -> app w' <> app w ->
         ~ fails_before_store h w
         /\ exists b final eMin eMax,
             bounds (app w) = Some b
             /\ fetchDEM_computed h b = Ok (final, eMin, eMax)
             /\ heightmapTexture (app w') = Some (CanvasTexture final)).
Proof.
  split; [|split].
  - intros Hfail.
    assert (Hcase : bounds (app w) = None
                    \/ exists b msg, bounds (app w) = Some b
                                     /\ fetchDEM_computed h b = Throw msg).
    { destruct Hfail as [Hn|[b [Hb [H0|[c [m [Hc Hm]]]]]]].
      - left. exact Hn.
      - right. destruct (computed_throw_no_tiles h b H0) as [msg Hmsg]. eauto.
      - right. destruct (computed_throw_fault h b c m Hc Hm) as [msg Hmsg]. eauto. }
    eexists. split; [apply fetchDEM_run|].
    destruct Hcase as [Hn|[b [msg [Hb Hm]]]].
    + rewrite Hn. repeat (split; [reflexivity|]).
      exists [], SetBoundsFirst. reflexivity.
    + rewrite Hb. cbv zeta.
      destruct (reached_before h b
                  (shown [ShowLoading "Fetching elevation tiles...";
                          SetStatus FetchingDEM KLoading] w) msg Hm) as [Hr Hs].
      rewrite Hs, Hr. repeat (split; [reflexivity|]).
      exists [ShowLoading "Fetching elevation tiles..."; SetStatus FetchingDEM KLoading;
              HideLoading], (DemError msg).
      cbn. rewrite <- app_assoc. reflexivity.
  - intros [b [[[final eMin] eMax] [msg [Hb [Hc Hl]]]]].
    eexists. exists b, final, eMin, eMax, msg.
    split; [apply fetchDEM_run|].
    split; [exact Hb|]. split; [exact Hc|]. split; [exact Hl|].
    rewrite Hb. cbv zeta.
    destruct (reached_after h b
                (shown [ShowLoading "Fetching elevation tiles...";
                        SetStatus FetchingDEM KLoading] w) final eMin eMax msg Hc Hl)
      as [Hs [Hh [Hcol [Ht [before Hd]]]]].
    rewrite Hs.
    split; [exact Hh|]. split; [exact Hcol|]. split; [exact Ht|].
    exists ([ShowLoading "Fetching elevation tiles..."; SetStatus FetchingDEM KLoading]
            ++ before ++ [HideLoading]).
    unfold shown at 1. cbn [dom]. rewrite Hd. cbn [shown dom].
    rewrite <- !app_assoc. reflexivity.
  - intros w' Hrun Hchg. rewrite fetchDEM_run in Hrun. inversion Hrun as [Hw'].
    clear Hrun. destruct (bounds (app w)) as [b|] eqn:Hb.
    + cbv zeta in Hw'.
      destruct (fetchDEM_computed h b) as [[[final eMin] eMax]|msg] eqn:Hc.
      * destruct (computed_ok h b final eMin eMax Hc) as [Hf [Hn0 _]].
        split.
        -- intros [Hn|[b' [Hb' [H0|[c [m [Hbc Hm]]]]]]].
           ++ congruence.
           ++ assert (b' = b) by congruence. subst b'. contradiction.
           ++ rewrite (Hf c Hbc) in Hm. discriminate Hm.
        -- exists b, final, eMin, eMax.
           split; [reflexivity|]. split; [exact Hc|].
           destruct (lateFault h) as [msg|] eqn:Hl.
           ++ destruct (reached_after h b
                          (shown [ShowLoading "Fetching elevation tiles...";
                                  SetStatus FetchingDEM KLoading] w)
                          final eMin eMax msg Hc Hl) as [Hs [Hh _]].
              rewrite Hs. exact Hh.
           ++ assert (Hs : fetchDEM_stages h b = Ok (final, eMin, eMax)).
              { apply stages_computed. split; [exact Hc|exact Hl]. }
              rewrite Hs. reflexivity.
      * exfalso. apply Hchg.
        destruct (reached_before h b
                    (shown [ShowLoading "Fetching elevation tiles...";
                            SetStatus FetchingDEM KLoading] w) msg Hc) as [Hr Hs].
        rewrite Hs, Hr in Hw'. rewrite <- Hw'. reflexivity.
    + exfalso. apply Hchg. rewrite <- Hw'. reflexivity.
Qed.

End LoadTheorems.

Lemma failed_load_keeps_terrain_witness :
  Engine.fails_before_store Engine.offlineHost Engine.shownTerrain
  /\ exists w' mesh,
      Engine.fetchDEM Engine.offlineHost Engine.shownTerrain = Engine.Done w' Engine.Undefined
      /\ Engine.app w' = Engine.app Engine.shownTerrain
      /\ Engine.terrain (Engine.app w') = Some mesh
      /\ Engine.heightmapTexture (Engine.app w')
         = Some (Engine.CanvasTexture Engine.pixel).
Proof.
  assert (Hfail : Engine.fails_before_store Engine.offlineHost Engine.shownTerrain).
  { right. exists Engine.everest. split; [reflexivity|]. left.
    apply succeeded_none. intros u. reflexivity. }
  split; [exact Hfail|].
  destruct (proj1 (failed_load_keeps_terrain Engine.offlineHost Engine.shownTerrain) Hfail)
    as [w' [Hrun [Happ [Hh [_ [Ht _]]]]]].
  exists w'. eexists. split; [exact Hrun|]. split; [exact Happ|].
  split; [rewrite Ht; reflexivity|]. rewrite Hh. reflexivity.
Defined.

(** A failing load that changes what is stored: every tile around Everest
    arrives, the heightmap is computed and stored, and [createTerrain]
    throws.  The error is reported, the heightmap texture is the new
    512 x 512 one and not the one stored before, the colour texture
    stored before is gone, and [state.terrain] is the old mesh, built
    from the textures that are no longer stored. *)
Lemma late_failure_counterexample :
  Engine.load_fails Engine.brokenRebuild Engine.shownTerrain
  /\ exists w' final msg shownBefore,
      Engine.fetchDEM Engine.brokenRebuild Engine.shownTerrain
      = Engine.Done w' Engine.Undefined
      /\ Engine.dom w'
         = shownBefore ++ [Engine.SetStatus (Engine.DemError msg) Engine.KError]
      /\ Engine.heightmapTexture (Engine.app w') = Some (Engine.CanvasTexture final)
      /\ Raster.img_w final = 512
      /\ Engine.heightmapTexture (Engine.app w')
         <> Engine.heightmapTexture (Engine.app Engine.shownTerrain)
      /\ Engine.colorTexture (Engine.app Engine.shownTerrain)
         = Some (Engine.CanvasTexture Engine.pixel)
      /\ Engine.colorTexture (Engine.app w') = None
      /\ Engine.terrain (Engine.app w') = Engine.terrain (Engine.app Engine.shownTerrain).
Proof.
  destruct (Engine.fetchDEM_computed Engine.brokenRebuild Engine.everest)
    as [[[final eMin] eMax]|msg] eqn:Hc.
  - assert (Hl : Engine.lateFault Engine.brokenRebuild
                 = Some "Cannot read properties of null"%string) by reflexivity.
    split.
    { right. exists Engine.everest, (final, eMin, eMax). eexists.
      split; [reflexivity|]. split; [exact Hc|exact Hl]. }
    destruct (computed_ok _ _ _ _ _ Hc) as [_ [_ [ctx [_ Hfin]]]].
    cbv zeta in Hfin. destruct Hfin as [Hfinal _].
    assert (Hw : Raster.img_w final = 512) by (rewrite Hfinal; reflexivity).
    destruct (reached_after Engine.brokenRebuild Engine.everest
                (Engine.shown [Engine.ShowLoading "Fetching elevation tiles...";
                               Engine.SetStatus Engine.FetchingDEM Engine.KLoading]
                              Engine.shownTerrain)
                final eMin eMax _ Hc Hl) as [Hs [Hh [Hcol [Ht _]]]].
    eexists. exists final. eexists. eexists.
    split; [apply fetchDEM_run|].
    cbn [Engine.bounds Engine.app Engine.shownTerrain Engine.set_bounds
         Engine.set_terrain Engine.set_colorTexture Engine.set_heightmapTexture].
    cbv zeta. rewrite Hs.
    split; [unfold Engine.shown at 1; cbn [Engine.dom];
            exact (app_assoc _ [Engine.HideLoading] [_])|].
    split; [exact Hh|]. split; [exact Hw|].
    split.
    { cbn [Engine.shown Engine.app]. cbn [Engine.shown Engine.app] in Hh. rewrite Hh.
      intros E. inversion E as [E']. rewrite E' in Hw. discriminate Hw. }
    split; [reflexivity|]. split; [exact Hcol|exact Ht].
  - exfalso. unfold Engine.fetchDEM_computed in Hc.
    cbn [Engine.hostFault Engine.brokenRebuild] in Hc.
    rewrite fetchMosaic_unfold in Hc.
    destruct (Mosaic.succeeded _ _ _ =? 0) eqn:E; [|discriminate Hc].
    apply Z.eqb_eq in E. revert E. apply succeeded_some.
    + intros u. reflexivity.
    + exact (proj1 (tileRange_nonempty Engine.everest 11)).
    + exact (proj2 (tileRange_nonempty Engine.everest 11)).
Defined.

(** A load that succeeds: every tile around Everest arrives.  The function
    still returns no value. *)
Lemma fetchDEM_result_counterexample :
  exists w' final,
    Engine.fetchDEM Engine.onlineHost Engine.everestWorld = Engine.Done w' Engine.Undefined
    /\ Engine.heightmapTexture (Engine.app w') = Some (Engine.CanvasTexture final)
    /\ forall hm lo hi,
        Engine.fetchDEM Engine.onlineHost Engine.everestWorld
        <> Engine.Done w' (Engine.ElevationResult hm lo hi).
Proof.
  destruct (Engine.fetchDEM_stages Engine.onlineHost Engine.everest)
    as [[[final eMin] eMax]|msg] eqn:Hs.
  - eexists. exists final. split; [apply fetchDEM_run|].
    cbn [Engine.bounds Engine.app Engine.everestWorld Engine.set_bounds].
    cbv zeta. rewrite Hs. split; [reflexivity|].
    intros hm lo hi. rewrite fetchDEM_run. intros H. inversion H.
  - exfalso. unfold Engine.fetchDEM_stages, Engine.fetchDEM_computed, Engine.lateFault in Hs.
    cbn [Engine.hostFault Engine.onlineHost] in Hs.
    rewrite fetchMosaic_unfold in Hs.
    destruct (Mosaic.succeeded _ _ _ =? 0) eqn:E; [|discriminate Hs].
    apply Z.eqb_eq in E. revert E. apply succeeded_some.
    + intros u. reflexivity.
    + exact (proj1 (tileRange_nonempty Engine.everest 11)).
    + exact (proj2 (tileRange_nonempty Engine.everest 11)).
Defined.

Section StatsFacts.
Import Raster Promise Mosaic JSNum Geo Resample Engine.
Local Open Scope engine_scope.

Lemma keeps_ret {A : Type} (a : A) : keeps_stats (ret a).
Proof. intros w. reflexivity. Qed.

Lemma keeps_throw {A : Type} (msg : string) : keeps_stats (@throw A msg).
Proof. intros w. reflexivity. Qed.

Lemma keeps_emit (e : UIEvent) : keeps_stats (emit e).
Proof. intros w. reflexivity. Qed.

Lemma keeps_modify (f : State -> State) :
  (forall s, elevationMin (f s) = elevationMin s
             /\ elevationMax (f s) = elevationMax s) ->
  keeps_stats (modify f).
Proof.
  intros Hf w. unfold elevationStats. cbn.
  destruct (Hf (app w)) as [-> ->]. reflexivity.
Qed.

Lemma keeps_bind {A B : Type} (m : M A) (k : A -> M B) :
  keeps_stats m -> (forall a, keeps_stats (k a)) -> keeps_stats (bindM m k).
Proof.
  intros Hm Hk w. unfold bindM. specialize (Hm w).
  destruct (m w) as [w' a|w' e]; cbn in *.
  - rewrite Hk. exact Hm.
  - exact Hm.
Qed.

Lemma keeps_tryCatch {A : Type} (body : M A) (handler : string -> M A) :
  keeps_stats body -> (forall e, keeps_stats (handler e)) ->
  keeps_stats (tryCatch body handler).
Proof.
  intros Hm Hk w. unfold tryCatch. specialize (Hm w).
  destruct (body w) as [w' a|w' e]; cbn in *.
  - exact Hm.
  - rewrite Hk. exact Hm.
Qed.

Lemma keeps_host (h : Host) (c : HostCall) : keeps_stats (host h c).
Proof.
  unfold host. destruct (hostFault h c); [apply keeps_throw|apply keeps_ret].
Qed.

Lemma keeps_liftResult {A : Type} (r : Result A) : keeps_stats (liftResult r).
Proof. destruct r; [apply keeps_ret|apply keeps_throw]. Qed.

Lemma keeps_if {A : Type} (c : bool) (m1 m2 : M A) :
  keeps_stats m1 -> keeps_stats m2 -> keeps_stats (if c then m1 else m2).
Proof. destruct c; auto. Qed.

Lemma keeps_createTerrain : keeps_stats createTerrain.
Proof. intros w. reflexivity. Qed.

Lemma keeps_updateWaterPlane : keeps_stats updateWaterPlane.
Proof. intros w. reflexivity. Qed.

Create HintDb stats.

#[local] Hint Resolve keeps_ret keeps_throw keeps_emit keeps_host keeps_liftResult
  keeps_createTerrain keeps_updateWaterPlane : stats.

(** Sequences of statements that keep the statistics keep them. *)
Ltac keeps :=
  repeat first
    [ apply keeps_bind; [|intros ?]
    | apply keeps_tryCatch; [|intros ?]
    | apply keeps_if
    | apply keeps_modify; intros ?; split; reflexivity
    | solve [auto with stats] ].

Lemma keeps_fetchDEM (h : Host) : keeps_stats (fetchDEM h).
Proof.
  intros w. unfold fetchDEM.
  destruct (bounds (app w)) as [b|].
  - revert w. change (keeps_stats
      (emit (ShowLoading "Fetching elevation tiles...") ;;
       emit (SetStatus FetchingDEM KLoading) ;;
       tryCatch (fetchDEM_try h b)
                (fun msg => emit HideLoading ;; emit (SetStatus (DemError msg) KError)) ;;
       ret Undefined)).
    unfold fetchDEM_try. keeps.
  - revert w. change (keeps_stats (emit (SetStatus SetBoundsFirst KError) ;; ret Undefined)).
    keeps.
Qed.

Lemma keeps_loadSatelliteTexture (h : Host) : keeps_stats (loadSatelliteTexture h).
Proof.
  intros w. unfold loadSatelliteTexture.
  destruct (bounds (app w)) as [b|]; [|reflexivity].
  revert w.
  change (keeps_stats
    (host h CreateCanvas ;;
     canvas <- liftResult (fetchMosaicSat (loadImage h) (SatelliteTile 13) (tileRange b 13)) ;;
     host h CreateCanvas ;;
     host h DrawImageScaled ;;
     modify (set_satelliteTexture
               (Some (CanvasTexture (drawScaled h canvas (satelliteDraw b))))) ;;
     modify (fun s => set_colorTexture (satelliteTexture s) s) ;;
     createTerrain ;;
     ret Undefined)).
  keeps.
Qed.

#[local] Hint Resolve keeps_fetchDEM keeps_loadSatelliteTexture : stats.

Lemma keeps_loadLocationTerrain (h : Host) (name : string) (lat lon : R) :
  keeps_stats (loadLocationTerrain h name lat lon).
Proof. unfold loadLocationTerrain. keeps. Qed.

Lemma keeps_toggleSatelliteMode (h : Host) : keeps_stats (toggleSatelliteMode h).
Proof.
  intros w. unfold toggleSatelliteMode. cbv zeta.
  destruct (negb (satelliteMode (app w)));
    match goal with
    | |- elevationStats (world_of (?m ?v)) = _ => revert v; change (keeps_stats m)
    end; keeps.
Qed.

Lemma keeps_onExagInput (v : Q) : keeps_stats (onExagInput v).
Proof.
  intros w. unfold onExagInput. cbn [app].
  destruct (terrain (app w)), (heightmapTexture (app w)); reflexivity.
Qed.

Lemma keeps_animateFlood : keeps_stats animateFlood.
Proof.
  intros w. unfold animateFlood.
  destruct (waterAnimating (app w)); [|reflexivity].
  unfold bindM, modify. cbn [app exagValue dom].
  match goal with
  | |- context [if ?c then _ else _] => destruct c
  end; reflexivity.
Qed.

Lemma keeps_toggleWaterAnimation : keeps_stats toggleWaterAnimation.
Proof.
  intros w. unfold toggleWaterAnimation.
  destruct (waterAnimating (app w)); [reflexivity|].
  revert w.
  change (keeps_stats (modify (set_waterAnimating true) ;;
                       modify (set_waterLevel 0) ;; animateFlood)).
  pose proof keeps_animateFlood. keeps; assumption.
Qed.

(** No event writes [state.elevationMin] or [state.elevationMax]. *)
Lemma handle_keeps_stats (w : World) (e : Event) :
  elevationStats (handle w e) = elevationStats w.
Proof.
  destruct e; unfold handle.
  - apply keeps_loadLocationTerrain.
  - apply keeps_fetchDEM.
  - apply keeps_toggleSatelliteMode.
  - apply keeps_onExagInput.
  - revert w. change (keeps_stats (onWaterInput level)). unfold onWaterInput. keeps.
  - apply keeps_toggleWaterAnimation.
  - apply keeps_animateFlood.
  - revert w. change (keeps_stats resetWater). unfold resetWater. keeps.
  - revert w. change (keeps_stats (loadTexture img)). unfold loadTexture. keeps.
  - reflexivity.
  - reflexivity.
Qed.

Lemma run_keeps_stats (events : list Event) (w : World) :
  elevationStats (fold_left handle events w) = elevationStats w.
Proof.
  revert w. induction events as [|e events IH]; intros w; [reflexivity|].
  simpl. rewrite IH. apply handle_keeps_stats.
Qed.

End StatsFacts.

Section StatsTheorem.
Import Engine.

Lemma jsRound_comp (p q : Q) : (p == q)%Q -> jsRound p = jsRound q.
Proof.
  intros E. unfold jsRound. apply Qfloor_comp. rewrite E. reflexivity.
Qed.

(** C9. After every sequence of events, [state.elevationMin] and
    [state.elevationMax] hold their initial values 0 and 1000: no
    operation writes them, and a load that decodes a range [eMin], [eMax]
    leaves them so.  Hence the altitude readout of the flood simulation is
    round(waterLevel / 100 * 1000), and the profile labels are
    minElev * 50 and maxElev * 50, computed from these constants and not
    from the terrain that was loaded. *)
Theorem elevation_stats_never_written (exag0 : Q) (events : list Event) :
  let w := run exag0 events in
  elevationMin (app w) = 0%Q
  /\ elevationMax (app w) = 1000%Q
  /\ realAltitude (app w) = jsRound (waterLevel (app w) / 100 * 1000)
  /\ (forall minElev maxElev : Q,
         (profileRealMin (app w) minElev == minElev * 50)%Q
         /\ (profileRealMax (app w) maxElev == maxElev * 50)%Q)
  /\ (forall (h : Host) (b : Geo.Bounds) (final : Raster.Image) (eMin eMax : JSNum.Num),
         bounds (app w) = Some b ->
         fetchDEM_stages h b = Ok (final, eMin, eMax) ->
         exists w',
           fetchDEM h w = Done w' Undefined
           /\ In (CoordAlt eMin eMax) (dom w')
           /\ elevationMin (app w') = 0%Q
           /\ elevationMax (app w') = 1000%Q).
Proof.
  intros w.
  assert (Hs : elevationStats w = (0%Q, 1000%Q)).
  { unfold w, run. rewrite run_keeps_stats. reflexivity. }
  unfold elevationStats in Hs. inversion Hs as [[Hmin Hmax]].
  split; [reflexivity|]. split; [reflexivity|].
  split; [|split].
  - unfold realAltitude. rewrite Hmin, Hmax. apply jsRound_comp. ring.
  - intros minElev maxElev. unfold profileRealMin, profileRealMax.
    rewrite Hmin. split; ring.
  - intros h b final eMin eMax Hb Hst.
    eexists. split; [apply fetchDEM_run|].
    rewrite Hb. cbv zeta. rewrite Hst. split.
    + unfold installed. cbn [dom]. apply in_or_app. right. simpl. auto.
    + unfold installed. cbn. rewrite Hmin, Hmax. split; reflexivity.
Qed.

End StatsTheorem.

(* ================================================================= *)
(** * Part III: further properties of the code *)
(* ================================================================= *)

Section TileCoverage.
Import Geo Resample.
Local Open Scope R_scope.

Lemma tile_lon_monotone (x1 x2 y1 y2 : Z) (z : nat) :
  (x1 <= x2)%Z -> lon (tileToLatLon x1 y1 z) <= lon (tileToLatLon x2 y2 z).
Proof.
  intros H. destruct (Z.eq_dec x1 x2) as [->|Hne].
  - right. reflexivity.
  - left. apply tile_lon_increasing. lia.
Qed.

Lemma tile_lat_antitone (x1 x2 y1 y2 : Z) (z : nat) :
  (y1 <= y2)%Z -> lat (tileToLatLon x2 y2 z) <= lat (tileToLatLon x1 y1 z).
Proof.
  intros H. destruct (Z.eq_dec y1 y2) as [->|Hne].
  - right. reflexivity.
  - left. apply tile_lat_decreasing. lia.
Qed.

(** The column of a longitude: its west edge is at or west of the
    longitude, the west edge of the next column is east of it.  No range
    of longitudes is needed. *)
Lemma column_bracket (la lo : R) (z : nat) (y y' : Z) :
  lon (tileToLatLon (tx (latLonToTile la lo z)) y z) <= lo
  < lon (tileToLatLon (tx (latLonToTile la lo z) + 1) y' z).
Proof.
  pose proof (pow2_pos z) as HP.
  unfold tileToLatLon, latLonToTile. simpl.
  destruct (floor_scaled ((lo + 180) / 360) (pow2 z) HP) as [H1 H2].
  rewrite plus_IZR. unfold Rdiv in *. split; lra.
Qed.

(** The row of a latitude between the poles: its top edge is at or north
    of the latitude, the top edge of the next row is south of it. *)
Lemma row_bracket (la lo : R) (z : nat) (x x' : Z) :
  -90 < la < 90 ->
  lat (tileToLatLon x' (ty (latLonToTile la lo z) + 1) z) < la
  <= lat (tileToLatLon x (ty (latLonToTile la lo z)) z).
Proof.
  intros Hla.
  pose proof (pow2_pos z) as HP. pose proof PI_RGT_0 as Hpi.
  assert (Hphi : - (PI / 2) < la * PI / 180 < PI / 2) by (split; nra).
  destruct (mercator_sinh (la * PI / 180) Hphi) as [Hpos Hsinh].
  set (m := ln (tan (la * PI / 180) + 1 / cos (la * PI / 180))) in *.
  destruct (floor_scaled ((1 - m / PI) / 2) (pow2 z) HP) as [H1 H2].
  assert (Ela : la = 180 / PI * atan (tan (la * PI / 180))).
  { rewrite atan_tan by exact Hphi. field. lra. }
  assert (Hk : 0 < 180 / PI) by (apply Rdiv_lt_0_compat; lra).
  unfold tileToLatLon, latLonToTile. simpl. fold m.
  set (y := Zfloor ((1 - m / PI) / 2 * pow2 z)) in *.
  split.
  - rewrite Ela at 1. apply Rmult_lt_compat_l; [exact Hk|].
    apply atan_increasing. rewrite <- Hsinh. apply sinh_lt.
    replace (2 * PI * IZR (y + 1) / pow2 z)
      with (2 * PI * (IZR y / pow2 z + 1 / pow2 z))
      by (rewrite plus_IZR; field; lra).
    apply (proj2 (row_angle_solve m _)). exact H2.
  - rewrite Ela at 1. apply Rmult_le_compat_l; [lra|].
    apply atan_le. rewrite <- Hsinh. apply sinh_le.
    replace (2 * PI * IZR y / pow2 z) with (2 * PI * (IZR y / pow2 z))
      by (field; lra).
    apply (proj1 (row_angle_solve m _)). exact H1.
Qed.

Lemma ratio_lt_1 (a d : R) : 0 < d -> a < d -> a / d < 1.
Proof.
  intros Hd Ha. unfold Rdiv.
  replace 1 with (d * / d) by (field; lra).
  apply Rmult_lt_compat_r; [apply Rinv_0_lt_compat; exact Hd|exact Ha].
Qed.

(** X1. The tile rectangle that [fetchDEM] and [loadSatelliteTexture] derive
    from a bounding box covers the box, whatever the order of its edges:
    the footprint of the rectangle reaches at least as far west and north,
    and strictly farther east and south.  So the crop rectangle never
    leaves the mosaic. *)
Theorem crop_inside_mosaic (b : Bounds) (zoom : nat) :
  -90 < north b < 90 -> -90 < south b < 90 ->
  let r := tileRange b zoom in
  let nw := tileToLatLon (Mosaic.xMin r) (Mosaic.yMin r) zoom in
  let se := tileToLatLon (Mosaic.xMax r + 1) (Mosaic.yMax r + 1) zoom in
  let c := cropRect b r zoom (Mosaic.mosaicWidth r) (Mosaic.mosaicHeight r) in
  (lon nw <= west b /\ east b < lon se /\ lat se < south b /\ north b <= lat nw)
  /\ 0 <= cropX c
  /\ cropX c + cropW c < IZR (Mosaic.mosaicWidth r)
  /\ 0 <= cropY c
  /\ cropY c + cropH c < IZR (Mosaic.mosaicHeight r).
Proof.
  intros Hn Hs r nw se c.
  assert (Hbox : lon nw <= west b /\ east b < lon se
                 /\ lat se < south b /\ north b <= lat nw).
  { unfold nw, se, r, tileRange. cbn [Mosaic.xMin Mosaic.xMax Mosaic.yMin Mosaic.yMax].
    set (minTile := latLonToTile (north b) (west b) zoom).
    set (maxTile := latLonToTile (south b) (east b) zoom).
    destruct (column_bracket (north b) (west b) zoom
                (Z.min (ty minTile) (ty maxTile)) 0) as [Hw _].
    destruct (column_bracket (south b) (east b) zoom
                0 (Z.max (ty minTile) (ty maxTile) + 1)) as [_ He].
    destruct (row_bracket (north b) (west b) zoom
                (Z.min (tx minTile) (tx maxTile)) 0 Hn) as [_ Hno].
    destruct (row_bracket (south b) (east b) zoom
                0 (Z.max (tx minTile) (tx maxTile) + 1) Hs) as [Hso _].
    fold minTile in Hw, Hno. fold maxTile in He, Hso.
    repeat split.
    - eapply Rle_trans; [|exact Hw]. apply tile_lon_monotone. lia.
    - eapply Rlt_le_trans; [exact He|]. apply tile_lon_monotone. lia.
    - eapply Rle_lt_trans; [|exact Hso]. apply tile_lat_antitone. lia.
    - eapply Rle_trans; [exact Hno|]. apply tile_lat_antitone. lia. }
  split; [exact Hbox|]. destruct Hbox as [Hw [He [Hso Hno]]].
  destruct (tileRange_nonempty b zoom) as [Hx Hy]. fold r in Hx, Hy.
  destruct (footprint_proper r zoom Hx Hy) as [Hlon Hlat].
  destruct (mosaic_size_pos r Hx Hy) as [HW HH].
  fold nw se in Hlon, Hlat.
  unfold c, cropRect. cbn [cropX cropY cropW cropH]. fold nw se.
  set (W := IZR (Mosaic.mosaicWidth r)) in *.
  set (H := IZR (Mosaic.mosaicHeight r)) in *.
  assert (Hi1 : 0 < / (lon se - lon nw)) by (apply Rinv_0_lt_compat; exact Hlon).
  assert (Hi2 : 0 < / (lat nw - lat se)) by (apply Rinv_0_lt_compat; exact Hlat).
  repeat split.
  - unfold Rdiv. apply Rmult_le_pos; [apply Rmult_le_pos|]; lra.
  - replace ((west b - lon nw) / (lon se - lon nw) * W
             + (east b - west b) / (lon se - lon nw) * W)
      with ((east b - lon nw) / (lon se - lon nw) * W) by (field; lra).
    rewrite <- (Rmult_1_l W) at 2. apply Rmult_lt_compat_r; [exact HW|].
    apply ratio_lt_1; lra.
  - unfold Rdiv. apply Rmult_le_pos; [apply Rmult_le_pos|]; lra.
  - replace ((lat nw - north b) / (lat nw - lat se) * H
             + (north b - south b) / (lat nw - lat se) * H)
      with ((lat nw - south b) / (lat nw - lat se) * H) by (field; lra).
    rewrite <- (Rmult_1_l H) at 2. apply Rmult_lt_compat_r; [exact HH|].
    apply ratio_lt_1; lra.
Qed.

End TileCoverage.

Lemma crop_inside_mosaic_witness :
  (-90 < Geo.north Engine.everest < 90)%R
  /\ (-90 < Geo.south Engine.everest < 90)%R
  /\ (0 <= Resample.cropX (Resample.src (Resample.heightmapDraw Engine.everest)))%R.
Proof.
  assert (Hn : (-90 < Geo.north Engine.everest < 90)%R) by (simpl; lra).
  assert (Hs : (-90 < Geo.south Engine.everest < 90)%R) by (simpl; lra).
  split; [exact Hn|]. split; [exact Hs|].
  exact (proj1 (proj2 (crop_inside_mosaic Engine.everest 11 Hn Hs))).
Defined.

Section TileIndices.
Import Geo.
Local Open Scope R_scope.

Lemma pow2_IZR (z : nat) : pow2 z = IZR (2 ^ Z.of_nat z).
Proof. unfold pow2. rewrite <- pow_IZR. reflexivity. Qed.

(** X2. [latLonToTile] gives a column of the tile pyramid, 0 <= x < 2^z, for
    every longitude in [-180, 180); and between the poles it gives a row
    of the pyramid, 0 <= y < 2^z, exactly for the latitudes below or on
    the top edge of row 0 and above the bottom edge of the last row, as
    [tileToLatLon] places them.  Latitudes nearer the poles get a row
    outside the pyramid. *)
Theorem tile_index_valid (la lo : R) (z : nat) :
  -180 <= lo < 180 -> -90 < la < 90 ->
  let t := latLonToTile la lo z in
  (0 <= tx t < 2 ^ Z.of_nat z)%Z
  /\ ((0 <= ty t < 2 ^ Z.of_nat z)%Z
      <-> lat (tileToLatLon 0 (2 ^ Z.of_nat z) z) < la <= lat (tileToLatLon 0 0 z)).
Proof.
  intros Hlo Hla t. pose proof (pow2_pos z) as HP.
  split.
  - unfold t, latLonToTile. simpl.
    set (u := (lo + 180) / 360 * pow2 z).
    assert (Hu : 0 <= u < pow2 z).
    { unfold u. split.
      - apply Rmult_le_pos; lra.
      - rewrite <- (Rmult_1_l (pow2 z)) at 2.
        apply Rmult_lt_compat_r; [exact HP|lra]. }
    destruct (Zfloor_bound u) as [H1 H2]. split.
    + apply Zfloor_lub. simpl. lra.
    + apply lt_IZR. rewrite <- pow2_IZR. lra.
  - destruct (row_bracket la lo z 0 0 Hla) as [Hbelow Habove].
    fold t in Hbelow, Habove. split.
    + intros [H0 H1]. split.
      * eapply Rle_lt_trans; [|exact Hbelow]. apply tile_lat_antitone. lia.
      * eapply Rle_trans; [exact Habove|]. apply tile_lat_antitone. lia.
    + intros [Hbot Htop]. split.
      * destruct (Z_lt_le_dec (ty t) 0) as [Hneg|Hok]; [|exact Hok].
        exfalso.
        assert (lat (tileToLatLon 0 0 z) <= lat (tileToLatLon 0 (ty t + 1) z))
          by (apply tile_lat_antitone; lia).
        lra.
      * destruct (Z_lt_le_dec (ty t) (2 ^ Z.of_nat z)) as [Hok|Hbig]; [exact Hok|].
        exfalso.
        assert (lat (tileToLatLon 0 (ty t) z) <= lat (tileToLatLon 0 (2 ^ Z.of_nat z) z))
          by (apply tile_lat_antitone; lia).
        lra.
Qed.

Lemma floor_shift (a d : R) (k : Z) :
  IZR k < d < IZR k + 1 ->
  (Zfloor a + k <= Zfloor (a + d) <= Zfloor a + k + 1)%Z.
Proof.
  intros Hd. destruct (Zfloor_bound a) as [A1 A2].
  destruct (Zfloor_bound (a + d)) as [B1 B2]. split.
  - apply Zfloor_lub. rewrite plus_IZR. lra.
  - assert (H : (Zfloor (a + d) < Zfloor a + k + 2)%Z).
    { apply lt_IZR. rewrite !plus_IZR. simpl. lra. }
    lia.
Qed.

(** X3. The box of a location load is 0.3 degrees wide, and a tile is
    360/2048 degrees wide at zoom 11 and 360/8192 at zoom 13: whatever the
    location, the elevation mosaic is 2 or 3 tiles wide and the imagery
    mosaic 7 or 8 tiles wide. *)
Theorem location_tile_columns (la lo : R) :
  let b := locationBounds la lo in
  let columns := fun zoom =>
    (Mosaic.xMax (tileRange b zoom) - Mosaic.xMin (tileRange b zoom) + 1)%Z in
  (columns 11%nat = 2%Z \/ columns 11%nat = 3%Z)
  /\ (columns 13%nat = 7%Z \/ columns 13%nat = 8%Z)
  /\ (Mosaic.mosaicWidth (tileRange b 11) = 512%Z
      \/ Mosaic.mosaicWidth (tileRange b 11) = 768%Z)
  /\ (Mosaic.mosaicWidth (tileRange b 13) = 1792%Z
      \/ Mosaic.mosaicWidth (tileRange b 13) = 2048%Z).
Proof.
  intros b columns.
  assert (H11 : (1 <= tx (latLonToTile (south b) (east b) 11)
                      - tx (latLonToTile (north b) (west b) 11) <= 2)%Z).
  { unfold b, locationBounds, latLonToTile. cbn [tx north south east west].
    set (a := (lo - 0.15 + 180) / 360 * pow2 11).
    replace ((lo + 0.15 + 180) / 360 * pow2 11) with (a + 0.3 / 360 * pow2 11)
      by (unfold a, pow2; simpl; lra).
    assert (Hd : IZR 1 < 0.3 / 360 * pow2 11 < IZR 1 + 1)
      by (unfold pow2; simpl; lra).
    pose proof (floor_shift a _ 1 Hd). lia. }
  assert (H13 : (6 <= tx (latLonToTile (south b) (east b) 13)
                      - tx (latLonToTile (north b) (west b) 13) <= 7)%Z).
  { unfold b, locationBounds, latLonToTile. cbn [tx north south east west].
    set (a := (lo - 0.15 + 180) / 360 * pow2 13).
    replace ((lo + 0.15 + 180) / 360 * pow2 13) with (a + 0.3 / 360 * pow2 13)
      by (unfold a, pow2; simpl; lra).
    assert (Hd : IZR 6 < 0.3 / 360 * pow2 13 < IZR 6 + 1)
      by (unfold pow2; simpl; lra).
    pose proof (floor_shift a _ 6 Hd). lia. }
  unfold columns, Mosaic.mosaicWidth, Mosaic.tileSize, tileRange.
  cbn [Mosaic.xMin Mosaic.xMax]. repeat split; lia.
Qed.

End TileIndices.

Lemma tile_index_valid_witness :
  (-180 <= 0 < 180)%R /\ (-90 < 0 < 90)%R
  /\ (0 <= Geo.tx (Geo.latLonToTile 0 0 11) < 2 ^ Z.of_nat 11)%Z.
Proof.
  assert (Hlo : (-180 <= 0 < 180)%R) by lra.
  assert (Hla : (-90 < 0 < 90)%R) by lra.
  split; [exact Hlo|]. split; [exact Hla|].
  exact (proj1 (tile_index_valid 0 0 11 Hlo Hla)).
Defined.

Section SatelliteLoad.
Import Raster Promise Mosaic JSNum Geo Resample Engine.
Local Open Scope engine_scope.

Lemma composite_nothing (tiles : list (option Tile)) (acc : Image * Z) :
  (forall t, In t tiles -> t = None) -> fold_left blit tiles acc = acc.
Proof.
  revert acc. induction tiles as [|t tiles IH]; intros acc H; [reflexivity|].
  simpl. rewrite (H t (or_introl eq_refl)). simpl. apply IH.
  intros t' Ht'. apply H. right. exact Ht'.
Qed.

Lemma succeeded_zero_none (load : URL -> Settled Image) (mk : Z -> Z -> URL) (r : TileRange) :
  succeeded load mk r = 0 ->
  forall t, In t (map (fun xy => tileResult load mk r (fst xy) (snd xy)) (coords r)) ->
            t = None.
Proof.
  unfold succeeded. intros H0 t Ht. apply in_map_iff in Ht.
  destruct Ht as [[x y] [<- Hin]]. simpl.
  unfold tileResult. destruct (load (mk x y)) as [img|e] eqn:L; [|reflexivity].
  exfalso.
  assert (Hf : In (x, y) (filter (fun xy => is_fulfilled (load (mk (fst xy) (snd xy))))
                                 (coords r))).
  { apply filter_In. split; [exact Hin|]. simpl. rewrite L. reflexivity. }
  destruct (filter _ (coords r)); [destruct Hf|]. simpl in H0. lia.
Qed.

Lemma loadSatelliteTexture_no_bounds (h : Host) (w : World) :
  bounds (app w) = None -> loadSatelliteTexture h w = Done w Undefined.
Proof. intros Hb. unfold loadSatelliteTexture. rewrite Hb. reflexivity. Qed.

End SatelliteLoad.

Section LocationLoad.
Import Raster Promise Mosaic JSNum Geo Resample Engine.
Local Open Scope engine_scope.

(** Reading fields of [state] and of the page through the writes that the
    loads perform. *)
Ltac page_fields :=
  unfold rebuilt, createTerrain, satelliteStored, installed, shown, modify, emit,
         world_of, ret;
  cbn [app exagValue dom bounds currentLocation elevationMin elevationMax
       colorTexture heightmapTexture satelliteTexture terrain satelliteMode
       waterLevel waterAnimating
       set_bounds set_currentLocation set_colorTexture set_heightmapTexture
       set_satelliteTexture set_terrain set_satelliteMode set_waterLevel
       set_waterAnimating].

(** X4. [loadSatelliteTexture] has no test for missing tiles.  With bounds set
    and the browser calls succeeding it always completes, reports nothing,
    stores one texture as both [satelliteTexture] and [colorTexture],
    keeps the heightmap texture and rebuilds the mesh textured; when no
    imagery tile arrives, the mosaic behind that texture is blank at
    every pixel. *)
Theorem satellite_load_without_tiles (h : Host) (w : World) (b : Bounds) :
  bounds (app w) = Some b ->
  hostFault h CreateCanvas = None -> hostFault h DrawImageScaled = None ->
  let tex := CanvasTexture (drawScaled h (satelliteMosaic h b) (satelliteDraw b)) in
  (exists w',
      loadSatelliteTexture h w = Done w' Undefined
      /\ satelliteTexture (app w') = Some tex
      /\ colorTexture (app w') = Some tex
      /\ tex_image tex <> None
      /\ heightmapTexture (app w') = heightmapTexture (app w)
      /\ (exists zs, terrain (app w') = Some (mkMesh zs (Textured tex)))
      /\ dom w' = dom w)
  /\ (succeeded (loadImage h) (SatelliteTile 13) (tileRange b 13) = 0 ->
      forall x y, img_px (satelliteMosaic h b) x y = blank).
Proof.
  intros Hb Hc Hd tex. split.
  - eexists. split; [apply (loadSatelliteTexture_run h w b Hb Hc Hd)|].
    page_fields. fold tex.
    split; [reflexivity|]. split; [reflexivity|]. split; [discriminate|].
    split; [reflexivity|]. split; [eexists; reflexivity|reflexivity].
  - intros H0 x y. unfold satelliteMosaic. rewrite fetchMosaicSat_run.
    unfold composite. rewrite composite_nothing; [reflexivity|].
    apply succeeded_zero_none. exact H0.
Qed.


(** Statements as steps between pages, each page named once. *)
Lemma modify_run (f : State -> State) (w : World) :
  modify f w = Done (updated f w) tt.
Proof. reflexivity. Qed.

Lemma emit_run (e : UIEvent) (w : World) : emit e w = Done (shown [e] w) tt.
Proof. reflexivity. Qed.

Lemma updateWaterPlane_run (w : World) :
  updateWaterPlane w = Done (shown [WaterAlt (realAltitude (app w))] w) tt.
Proof. reflexivity. Qed.

Lemma loadSatelliteTexture_step (h : Host) (w : World) (b : Bounds) :
  bounds (app w) = Some b ->
  hostFault h CreateCanvas = None -> hostFault h DrawImageScaled = None ->
  loadSatelliteTexture h w = Done (rebuilt (updated (satelliteStored h b) w)) Undefined.
Proof. exact (loadSatelliteTexture_run h w b). Qed.

Lemma dom_shown (es : list UIEvent) (w : World) : dom (shown es w) = dom w ++ es.
Proof. reflexivity. Qed.

Lemma dom_updated (f : State -> State) (w : World) : dom (updated f w) = dom w.
Proof. reflexivity. Qed.

Lemma dom_rebuilt (w : World) : dom (rebuilt w) = dom w.
Proof. reflexivity. Qed.

Lemma dom_installed (final : Image) (eMin eMax : Num) (w : World) :
  dom (installed final eMin eMax w)
  = dom w ++ [HideLoading; SetStatus (LoadedElevation eMin eMax) KSuccess;
              CoordAlt eMin eMax].
Proof. reflexivity. Qed.

Ltac step :=
  first [ rewrite modify_run | rewrite emit_run | rewrite updateWaterPlane_run ];
  cbv beta iota.

Ltac page_dom :=
  repeat first [ rewrite dom_shown | rewrite dom_updated | rewrite dom_rebuilt
               | rewrite dom_installed ].

(** X5. [fetchDEM] catches its own errors, so [loadLocationTerrain] goes on to
    the imagery whatever became of the elevation.  When the browser calls
    succeed, the location load always completes as a success: the new box
    and location are stored, satellite mode is on, the water level is 0
    and the imagery of the new box textures the mesh.  If no elevation
    tile arrived, that imagery lies over the heightmap of the place loaded
    before, and the error status of the elevation load has been
    overwritten by the success status. *)
Theorem location_load_after_failed_elevation
        (h : Host) (name : string) (la lo : R) (w : World) :
  (forall c, hostFault h c = None) ->
  let b := locationBounds la lo in
  let tex := CanvasTexture (drawScaled h (satelliteMosaic h b) (satelliteDraw b)) in
  exists w',
    loadLocationTerrain h name la lo w = Done w' Undefined
    /\ bounds (app w') = Some b
    /\ currentLocation (app w') = Some (name, la, lo)
    /\ satelliteMode (app w') = true
    /\ waterLevel (app w') = 0%Q
    /\ colorTexture (app w') = Some tex
    /\ satelliteTexture (app w') = Some tex
    /\ (exists zs, terrain (app w') = Some (mkMesh zs (Textured tex)))
    /\ (exists before,
           dom w' = dom w ++ before ++ [HideLoading; SetStatus (PlaceLoaded name) KSuccess])
    /\ (succeeded (loadImage h) (TerrariumPng 11) (tileRange b 11) = 0 ->
        heightmapTexture (app w') = heightmapTexture (app w)
        /\ In (SetStatus (DemError "No tiles loaded") KError) (dom w')).
Proof.
  intros Hf b tex.
  unfold loadLocationTerrain, bindM, tryCatch. do 4 step.
  match goal with |- context [fetchDEM h ?W] => set (w0 := W) end.
  assert (Hb0 : bounds (app w0) = Some b) by reflexivity.
  rewrite fetchDEM_run, Hb0. cbv beta iota zeta.
  destruct (fetchDEM_stages h b) as [[[final eMin] eMax]|msg] eqn:Hs.
  - step.
    match goal with |- context [loadSatelliteTexture h ?W] => set (w1 := W) end.
    rewrite (loadSatelliteTexture_step h w1 b) by (reflexivity || apply Hf).
    cbv beta iota. do 5 step. unfold ret.
    eexists. split; [reflexivity|].
    repeat (split; [reflexivity|]).
    split; [eexists; reflexivity|].
    split.
    + subst w1 w0. page_dom. rewrite <- !app_assoc. cbn [List.app].
      match goal with
      | |- exists before, dom w ++ ?l = _ =>
          exists (firstn (List.length l - 2)%nat l); reflexivity
      end.
    + intros H0. exfalso.
      destruct (stages_throw_no_tiles h b H0) as [m Hm]. congruence.
  - match goal with
    | |- context [reached h b ?W] =>
        destruct (reached_no_fault h b W msg Hf Hs) as [Hr Hcomp]; rewrite Hr
    end.
    step.
    match goal with |- context [loadSatelliteTexture h ?W] => set (w1 := W) end.
    rewrite (loadSatelliteTexture_step h w1 b) by (reflexivity || apply Hf).
    cbv beta iota. do 5 step. unfold ret.
    eexists. split; [reflexivity|].
    repeat (split; [reflexivity|]).
    split; [eexists; reflexivity|].
    split.
    + subst w1 w0. page_dom. rewrite <- !app_assoc. cbn [List.app].
      match goal with
      | |- exists before, dom w ++ ?l = _ =>
          exists (firstn (List.length l - 2)%nat l); reflexivity
      end.
    + intros H0. split; [reflexivity|].
      assert (Hmsg : msg = "No tiles loaded"%string).
      { unfold fetchDEM_computed in Hcomp. rewrite !Hf in Hcomp.
        rewrite fetchMosaic_unfold, H0 in Hcomp. cbn in Hcomp. congruence. }
      subst msg. subst w1 w0. page_dom.
      rewrite !in_app_iff. simpl. tauto.
Qed.

End LocationLoad.

Lemma location_load_after_failed_elevation_witness :
  (forall c, Engine.hostFault Engine.offlineHost c = None)
  /\ exists w',
      Engine.loadLocationTerrain Engine.offlineHost "Everest" 27.9881 86.925
                                 (Engine.mkWorld Engine.initialState 2 [])
      = Engine.Done w' Engine.Undefined
      /\ Engine.satelliteMode (Engine.app w') = true
      /\ Engine.heightmapTexture (Engine.app w') = None.
Proof.
  assert (Hf : forall c, Engine.hostFault Engine.offlineHost c = None)
    by (intros c; reflexivity).
  split; [exact Hf|].
  destruct (location_load_after_failed_elevation
              Engine.offlineHost "Everest" 27.9881 86.925
              (Engine.mkWorld Engine.initialState 2 []) Hf)
    as [w' [Hrun [_ [_ [Hsat [_ [_ [_ [_ [_ Hfail]]]]]]]]]].
  exists w'. split; [exact Hrun|]. split; [exact Hsat|].
  apply Hfail. apply succeeded_none. intros u. reflexivity.
Defined.

Lemma satellite_load_without_tiles_witness :
  Engine.bounds (Engine.app Engine.everestWorld) = Some Engine.everest
  /\ forall x y,
      Raster.img_px (Engine.satelliteMosaic Engine.offlineHost Engine.everest) x y
      = Raster.blank.
Proof.
  split; [reflexivity|].
  apply (satellite_load_without_tiles Engine.offlineHost Engine.everestWorld Engine.everest
           eq_refl eq_refl eq_refl).
  apply succeeded_none. intros u. reflexivity.
Defined.

Section SatelliteToggle.
Import Raster Promise Mosaic JSNum Geo Resample Engine.

(** X6. Switching satellite mode off clears [satelliteTexture] only:
    [colorTexture] keeps the imagery, so the mesh that is rebuilt for the
    "terrain view" is still textured with it. *)
Theorem satellite_off_keeps_imagery (h : Host) (w : World) :
  satelliteMode (app w) = true ->
  exists w',
    toggleSatelliteMode h w = Done w' Undefined
    /\ satelliteMode (app w') = false
    /\ satelliteTexture (app w') = None
    /\ colorTexture (app w') = colorTexture (app w)
    /\ heightmapTexture (app w') = heightmapTexture (app w)
    /\ (forall c, colorTexture (app w) = Some c ->
                  exists zs, terrain (app w') = Some (mkMesh zs (Textured c)))
    /\ dom w' = dom w ++ [SetStatus TerrainEnabled KSuccess].
Proof.
  intros Hon. unfold toggleSatelliteMode. rewrite Hon. cbn [negb].
  unfold bindM, modify, emit, createTerrain, ret.
  cbn [app exagValue dom colorTexture heightmapTexture satelliteTexture terrain
       satelliteMode set_satelliteMode set_satelliteTexture set_terrain].
  eexists. split; [reflexivity|].
  cbn [app exagValue dom colorTexture heightmapTexture satelliteTexture terrain
       satelliteMode set_satelliteMode set_satelliteTexture set_terrain].
  repeat (split; [reflexivity|]). split; [|reflexivity].
  intros c Hc. rewrite Hc. eexists. reflexivity.
Qed.

End SatelliteToggle.

Lemma satellite_off_keeps_imagery_witness :
  let w := Engine.mkWorld
             (Engine.set_satelliteMode true
                (Engine.set_colorTexture (Some (Engine.CanvasTexture Engine.greyTile))
                                         Engine.initialState)) 2 [] in
  Engine.satelliteMode (Engine.app w) = true
  /\ exists w',
      Engine.toggleSatelliteMode Engine.onlineHost w = Engine.Done w' Engine.Undefined
      /\ Engine.colorTexture (Engine.app w') = Some (Engine.CanvasTexture Engine.greyTile).
Proof.
  split; [reflexivity|].
  destruct (satellite_off_keeps_imagery Engine.onlineHost
              (Engine.mkWorld
                 (Engine.set_satelliteMode true
                    (Engine.set_colorTexture (Some (Engine.CanvasTexture Engine.greyTile))
                                             Engine.initialState)) 2 [])
              eq_refl) as [w' [Hrun [_ [_ [Hc _]]]]].
  exists w'. split; [exact Hrun|exact Hc].
Defined.

Section LoadedMesh.
Import Raster Promise Mosaic JSNum Geo Resample Engine.

(** Every entry of [hmData.data] is a byte. *)
Lemma heightmapData_bytes (elevation : list Q) (k : nat) :
  is_byte (at_ (Normalize.heightmapData elevation) k).
Proof.
  unfold at_. 
  assert (HF : Forall is_byte (Normalize.heightmapData elevation)).
  { unfold Normalize.heightmapData. destruct (Normalize.minmax elevation) as [eMin eMax].
    apply Forall_flat_map. apply Forall_forall. intros e _.
    unfold Normalize.hmPixel.
    pose proof (toUint8Clamped_byte (Normalize.normVal eMin eMax e)) as Hb.
    repeat constructor; unfold is_byte; lia. }
  destruct (Nat.lt_ge_cases k (List.length (Normalize.heightmapData elevation))) as [Hk|Hk].
  - rewrite Forall_forall in HF. apply HF. apply nth_In. exact Hk.
  - rewrite nth_overflow by exact Hk. unfold is_byte. lia.
Qed.

(** X7. After a load that succeeds the mesh has 257 x 257 vertices and vertex
    colours, and, the browser's resampling of bytes giving bytes and the
    exaggeration slider being at e >= 0, every vertex height lies in
    [0, e]: the mesh is a relief between the ground plane and the
    exaggeration, whatever the absolute elevations were.  The heights are
    the values that the loop hands to [positions.setZ], over the
    rationals: exact arithmetic, before the [Float32Array] of the
    positions rounds each of them to binary32. *)
Theorem loaded_mesh_heights (h : Host) (w : World) (b : Bounds)
        (final : Image) (eMin eMax : Num) :
  bounds (app w) = Some b ->
  fetchDEM_stages h b = Ok (final, eMin, eMax) ->
  (forall s c dw dh,
      (forall x y, is_byte (chR (img_px s x y))) ->
      forall x y, is_byte (chR (resample h s c dw dh x y))) ->
  (0 <= exagValue w)%Q ->
  exists w' zs,
    fetchDEM h w = Done w' Undefined
    /\ terrain (app w') = Some (mkMesh zs VertexColors)
    /\ Z.of_nat (List.length zs) = 66049
    /\ forall i, 0 <= i < 66049 ->
                 (0 <= nth (Z.to_nat i) zs 0 <= exagValue w)%Q.
Proof.
  intros Hb Hs Hres He.
  destruct (stages_ok h b final eMin eMax Hs) as [_ [_ [ctx [_ Hfin]]]].
  cbv zeta in Hfin. destruct Hfin as [Hfinal _].
  eexists. eexists. split; [apply fetchDEM_run|].
  rewrite Hb. cbv zeta. rewrite Hs.
  unfold installed.
  cbn [app exagValue dom terrain set_terrain set_colorTexture set_heightmapTexture shown].
  split; [reflexivity|]. split.
  - unfold Mesh.applyHeightmapToGeometry.
    rewrite length_map, length_seq.
    apply (proj1 (planeGeometry_count 256 ltac:(lia))).
  - intros i Hi.
    assert (HW : img_w final = 512 /\ img_h final = 512)
      by (rewrite Hfinal; split; reflexivity).
    destruct HW as [HW HH].
    rewrite (displaced_vertex final 256 (exagValue w) i) by lia.
    assert (Hbyte : forall x y, is_byte (chR (img_px final x y))).
    { intros x y. rewrite Hfinal. unfold drawScaled. cbn [img_px].
      apply Hres. intros x' y'. unfold putImageData. cbn [img_px chR].
      apply heightmapData_bytes. }
    destruct (unit_sample _ (Hbyte (Mesh.sampledTexel (i mod (256 + 1)) 256 (img_w final))
                                   (Mesh.sampledTexel (i / (256 + 1)) 256 (img_h final))))
      as [H0 H1].
    split.
    + apply Qmult_le_0_compat; assumption.
    + rewrite <- (Qmult_1_l (exagValue w)) at 2.
      apply Qmult_le_compat_r; assumption.
Qed.

End LoadedMesh.

Lemma loaded_mesh_heights_witness :
  exists w' zs,
    Engine.fetchDEM Engine.onlineHost Engine.everestWorld = Engine.Done w' Engine.Undefined
    /\ Engine.terrain (Engine.app w') = Some (Engine.mkMesh zs Engine.VertexColors)
    /\ Z.of_nat (List.length zs) = 66049.
Proof.
  destruct (Engine.fetchDEM_stages Engine.onlineHost Engine.everest)
    as [[[final eMin] eMax]|msg] eqn:Hs.
  - destruct (loaded_mesh_heights Engine.onlineHost Engine.everestWorld Engine.everest
                final eMin eMax eq_refl Hs) as [w' [zs [Hrun [Ht [Hl _]]]]].
    + intros s c dw dh Hsrc x y. apply Hsrc.
    + discriminate.
    + exists w', zs. split; [exact Hrun|]. split; [exact Ht|exact Hl].
  - exfalso. unfold Engine.fetchDEM_stages, Engine.fetchDEM_computed, Engine.lateFault in Hs.
    cbn [Engine.hostFault Engine.onlineHost] in Hs.
    rewrite fetchMosaic_unfold in Hs.
    destruct (Mosaic.succeeded _ _ _ =? 0) eqn:E; [|discriminate Hs].
    apply Z.eqb_eq in E. revert E. apply succeeded_some.
    + intros u. reflexivity.
    + exact (proj1 (tileRange_nonempty Engine.everest 11)).
    + exact (proj2 (tileRange_nonempty Engine.everest 11)).
Defined.

Section ColourRamp.
Import JSNum TerrainColors.
Local Open Scope Q_scope.

Lemma normalizedHeight_unit (height : Q) : 0 <= normalizedHeight height <= 1.
Proof.
  unfold normalizedHeight. split.
  - apply Q.min_glb; [discriminate|apply Q.le_max_l].
  - apply Q.le_min_l.
Qed.

Lemma normalizedHeight_low (height : Q) :
  height <= 0 -> normalizedHeight height == 0.
Proof.
  intros H. unfold normalizedHeight.
  assert (Hd : height / 30 <= 0).
  { apply Qle_shift_div_r; [reflexivity|]. qlra. }
  rewrite (Q.max_l 0 (height / 30)) by exact Hd.
  apply Q.min_r. discriminate.
Qed.

Lemma normalizedHeight_high (height : Q) :
  30 <= height -> normalizedHeight height == 1.
Proof.
  intros H. unfold normalizedHeight.
  assert (Hd : 1 <= height / 30).
  { apply Qle_shift_div_l; [reflexivity|]. qlra. }
  rewrite (Q.max_r 0 (height / 30)) by qlra.
  apply Q.min_l. exact Hd.
Qed.

Lemma normalizedHeight_mid (height : Q) :
  0 <= height <= 30 -> normalizedHeight height == height / 30.
Proof.
  intros [H0 H1]. unfold normalizedHeight.
  assert (Hd0 : 0 <= height / 30).
  { apply Qle_shift_div_l; [reflexivity|]. qlra. }
  assert (Hd1 : height / 30 <= 1).
  { apply Qle_shift_div_r; [reflexivity|]. qlra. }
  rewrite (Q.max_r 0 (height / 30)) by exact Hd0.
  apply Q.min_r. exact Hd1.
Qed.

(** The four bands of the ramp, by the inequalities that select them. *)
Lemma ramp_cases (n : Q) :
  (n < 0.2 /\ ramp n = (0.15 + n * 0.3, 0.35 + n * 0.25, 0.15))
  \/ (0.2 <= n < 0.5
      /\ ramp n = (0.21 + (n - 0.2) / 0.3 * 0.35,
                   0.4 - (n - 0.2) / 0.3 * 0.15,
                   0.15 + (n - 0.2) / 0.3 * 0.1))
  \/ (0.5 <= n < 0.75
      /\ ramp n = (0.56 - (n - 0.5) / 0.25 * 0.16,
                   0.45 - (n - 0.5) / 0.25 * 0.15,
                   0.25 + (n - 0.5) / 0.25 * 0.25))
  \/ (0.75 <= n
      /\ ramp n = (0.6 + (n - 0.75) / 0.25 * 0.35,
                   0.6 + (n - 0.75) / 0.25 * 0.35,
                   0.65 + (n - 0.75) / 0.25 * 0.3)).
Proof.
  unfold ramp.
  destruct (Qltb n 0.2) eqn:E1; [left; split; [apply Qltb_lt; exact E1|reflexivity]|].
  apply Qltb_ge in E1.
  destruct (Qltb n 0.5) eqn:E2;
    [right; left; split; [split; [exact E1|apply Qltb_lt; exact E2]|reflexivity]|].
  apply Qltb_ge in E2.
  destruct (Qltb n 0.75) eqn:E3;
    [right; right; left; split; [split; [exact E2|apply Qltb_lt; exact E3]|reflexivity]|].
  apply Qltb_ge in E3. right; right; right. split; [exact E3|reflexivity].
Qed.

Lemma band_fractions (n : Q) :
  (n - 0.2) / 0.3 == (n - 0.2) * (10 # 3)
  /\ (n - 0.5) / 0.25 == (n - 0.5) * 4
  /\ (n - 0.75) / 0.25 == (n - 0.75) * 4.
Proof. repeat split; field. Qed.

(** X8. Every colour that [applyTerrainColors] assigns is a colour: whatever
    the height of the vertex (negative, huge), red, green and blue lie in
    [0.15, 0.95]. *)
Theorem terrain_colors_range (height : Q) :
  let c := vertexColor height in
  0.15 <= red c <= 0.95 /\ 0.25 <= green c <= 0.95 /\ 0.15 <= blue c <= 0.95.
Proof.
  intros c. unfold c, vertexColor.
  destruct (normalizedHeight_unit height) as [H0 H1].
  set (n := normalizedHeight height) in *.
  destruct (band_fractions n) as [F1 [F2 F3]].
  destruct (ramp_cases n) as [[Hn ->]|[[Hn ->]|[[Hn ->]|[Hn ->]]]];
    unfold red, green, blue; cbn [fst snd];
    rewrite ?F1, ?F2, ?F3; repeat split; qlra.
Qed.

(** X9. The colour depends on the height only between 0 and 30: everything at
    or below 0 has the lowland colour (0.15, 0.35, 0.15), everything at or
    above 30 the snow colour (0.95, 0.95, 0.95); and blue tells snow from
    the rest: it is at least 0.65 from height 22.5 on and at most 0.5
    below.  This is said of the r, g and b that the loop computes, over
    the rationals: exact arithmetic, before they are written into the
    [Float32Array] of line 1064, which rounds each of them to binary32;
    what the array holds for the bound 0.65 is 0.6499999761581421, just
    below it. *)
Theorem terrain_colors_bands (height : Q) :
  let c := vertexColor height in
  (height <= 0 -> red c == 0.15 /\ green c == 0.35 /\ blue c == 0.15)
  /\ (30 <= height -> red c == 0.95 /\ green c == 0.95 /\ blue c == 0.95)
  /\ (height < 22.5 -> blue c <= 0.5)
  /\ (22.5 <= height -> 0.65 <= blue c)
  /\ (Binary64.fround 0.65%float = 0.6499999761581421%float
      /\ PrimFloat.ltb (Binary64.fround 0.65%float) 0.65%float = true).
Proof.
  intros c. unfold c, vertexColor.
  destruct (normalizedHeight_unit height) as [H0 H1].
  destruct (band_fractions (normalizedHeight height)) as [F1 [F2 F3]].
  split; [|split; [|split; [|split; [|split; vm_compute; reflexivity]]]].
  - intros Hl. pose proof (normalizedHeight_low height Hl) as En.
    destruct (ramp_cases (normalizedHeight height))
      as [[Hn ->]|[[Hn ->]|[[Hn ->]|[Hn ->]]]];
      unfold red, green, blue; cbn [fst snd]; try (exfalso; qlra).
    rewrite En. repeat split; reflexivity.
  - intros Hh. pose proof (normalizedHeight_high height Hh) as En.
    destruct (ramp_cases (normalizedHeight height))
      as [[Hn ->]|[[Hn ->]|[[Hn ->]|[Hn ->]]]];
      unfold red, green, blue; cbn [fst snd]; try (exfalso; qlra).
    rewrite F3, En. repeat split; reflexivity.
  - intros Hl.
    assert (Hn' : normalizedHeight height < 0.75).
    { destruct (Qlt_le_dec height 0) as [Hneg|Hpos].
      - rewrite (normalizedHeight_low height) by qlra. reflexivity.
      - rewrite (normalizedHeight_mid height) by (split; qlra).
        apply Qlt_shift_div_r; [reflexivity|]. qlra. }
    destruct (ramp_cases (normalizedHeight height))
      as [[Hn ->]|[[Hn ->]|[[Hn ->]|[Hn ->]]]];
      unfold blue; cbn [fst snd]; rewrite ?F1, ?F2, ?F3; qlra.
  - intros Hh.
    assert (Hn' : 0.75 <= normalizedHeight height).
    { destruct (Qlt_le_dec 30 height) as [Hbig|Hsmall].
      - rewrite (normalizedHeight_high height) by qlra. discriminate.
      - rewrite (normalizedHeight_mid height) by (split; qlra).
        apply Qle_shift_div_l; [reflexivity|]. qlra. }
    destruct (ramp_cases (normalizedHeight height))
      as [[Hn ->]|[[Hn ->]|[[Hn ->]|[Hn ->]]]];
      unfold blue; cbn [fst snd]; rewrite ?F1, ?F2, ?F3; qlra.
Qed.

End ColourRamp.

Section FloodAnimation.
Import Engine.
Local Open Scope engine_scope.

Lemma frame_idle (w : World) :
  waterAnimating (app w) = false -> handle w AnimationFrame = w.
Proof.
  intros Ha. cbn [handle]. unfold animateFlood. rewrite Ha. reflexivity.
Qed.

Lemma frame_rising (w : World) :
  waterAnimating (app w) = true ->
  (waterLevel (app w) + (1 # 2) < 100)%Q ->
  waterAnimating (app (handle w AnimationFrame)) = true
  /\ waterLevel (app (handle w AnimationFrame)) = (waterLevel (app w) + (1 # 2))%Q
  /\ exagValue (handle w AnimationFrame) = exagValue w.
Proof.
  intros Ha Hl. cbn [handle]. unfold animateFlood. rewrite Ha.
  unfold bindM, modify. cbn [app exagValue dom waterLevel set_waterLevel].
  destruct (Qle_bool 100 (waterLevel (app w) + (1 # 2))) eqn:E.
  - apply Qle_bool_iff in E. exfalso. revert E Hl. apply Qle_not_lt.
  - unfold updateWaterPlane, emit, world_of.
    cbn [app exagValue dom waterLevel waterAnimating set_waterLevel].
    split; [exact Ha|]. split; reflexivity.
Qed.

Lemma frame_full (w : World) :
  waterAnimating (app w) = true ->
  (100 <= waterLevel (app w) + (1 # 2))%Q ->
  waterAnimating (app (handle w AnimationFrame)) = false
  /\ waterLevel (app (handle w AnimationFrame)) = 100%Q
  /\ In (SetStatus FloodComplete KSuccess) (dom (handle w AnimationFrame)).
Proof.
  intros Ha Hl. cbn [handle]. unfold animateFlood. rewrite Ha.
  unfold bindM, modify. cbn [app exagValue dom waterLevel set_waterLevel].
  apply Qle_bool_iff in Hl. rewrite Hl.
  unfold updateWaterPlane, emit, world_of.
  cbn [app exagValue dom waterLevel waterAnimating set_waterLevel set_waterAnimating].
  split; [reflexivity|]. split; [reflexivity|].
  rewrite !in_app_iff. simpl. tauto.
Qed.

Lemma frames_S (n : nat) (w : World) :
  frames (S n) w = handle (frames n w) AnimationFrame.
Proof. reflexivity. Qed.

Lemma frames_0 (w : World) : frames 0 w = w.
Proof. reflexivity. Qed.

Lemma half_below (z : Z) : z < 200 -> (inject_Z z / 2 < 100)%Q.
Proof. intros H. unfold Qlt, Qdiv, Qmult, Qinv, inject_Z. simpl. lia. Qed.

Lemma half_above (z : Z) : 200 <= z -> (100 <= inject_Z z / 2)%Q.
Proof. intros H. unfold Qle, Qdiv, Qmult, Qinv, inject_Z. simpl. lia. Qed.

Lemma half_steps (k : nat) :
  (inject_Z (Z.of_nat (S k) + 1) / 2 == inject_Z (Z.of_nat k + 1) / 2 + (1 # 2))%Q.
Proof.
  rewrite Nat2Z.inj_succ. unfold Z.succ. rewrite !inject_Z_plus. field.
Qed.

Lemma started_level (w : World) :
  waterAnimating (app w) = false ->
  waterAnimating (app (handle w ToggleWaterAnimation)) = true
  /\ waterLevel (app (handle w ToggleWaterAnimation)) = (0 + (1 # 2))%Q.
Proof.
  intros Ha. cbn [handle]. unfold toggleWaterAnimation. rewrite Ha.
  unfold bindM, modify. cbn [app exagValue dom].
  set (w0 := mkWorld _ _ _).
  assert (Ha0 : waterAnimating (app w0) = true) by reflexivity.
  assert (Hl0 : (waterLevel (app w0) + (1 # 2) < 100)%Q) by reflexivity.
  destruct (frame_rising w0 Ha0 Hl0) as [H1 [H2 _]].
  cbn [handle] in H1, H2. split; [exact H1|exact H2].
Qed.

(** While the flood animation runs, the level after the start and [k]
    further frames is (k + 1) / 2. *)
Lemma frames_rising (w : World) (k : nat) :
  waterAnimating (app w) = false -> (k < 199)%nat ->
  waterAnimating (app (frames k (handle w ToggleWaterAnimation))) = true
  /\ (waterLevel (app (frames k (handle w ToggleWaterAnimation)))
      == inject_Z (Z.of_nat k + 1) / 2)%Q.
Proof.
  intros Ha. induction k as [|k IH]; intros Hk.
  - destruct (started_level w Ha) as [H1 H2]. split; [exact H1|].
    rewrite frames_0, H2. reflexivity.
  - destruct (IH ltac:(lia)) as [H1 H2].
    assert (Hl : (waterLevel (app (frames k (handle w ToggleWaterAnimation)))
                  + (1 # 2) < 100)%Q).
    { rewrite H2, <- half_steps. apply half_below. lia. }
    destruct (frame_rising _ H1 Hl) as [H3 [H4 _]].
    rewrite frames_S. split; [exact H3|]. rewrite H4, H2, half_steps. reflexivity.
Qed.

(** X10. A flood animation started from rest climbs half a percent per frame:
    after the start and [k] < 199 further frames the level is (k + 1) / 2
    and the animation still runs; the 199th further frame brings the
    level to exactly 100, stops the animation and reports completion;
    frames after that change nothing. *)
Theorem flood_animation_completes (w : World) :
  waterAnimating (app w) = false ->
  let started := handle w ToggleWaterAnimation in
  (forall k, (k < 199)%nat ->
     waterAnimating (app (frames k started)) = true
     /\ (waterLevel (app (frames k started)) == inject_Z (Z.of_nat k + 1) / 2)%Q)
  /\ (forall k, (199 <= k)%nat ->
        frames k started = frames 199 started
        /\ waterAnimating (app (frames k started)) = false
        /\ waterLevel (app (frames k started)) = 100%Q)
  /\ In (SetStatus FloodComplete KSuccess) (dom (frames 199 started)).
Proof.
  intros Ha started.
  assert (Hrise : forall k, (k < 199)%nat ->
     waterAnimating (app (frames k started)) = true
     /\ (waterLevel (app (frames k started)) == inject_Z (Z.of_nat k + 1) / 2)%Q)
    by (intros k Hk; apply frames_rising; assumption).
  destruct (Hrise 198%nat ltac:(lia)) as [H1 H2].
  assert (Hl : (100 <= waterLevel (app (frames 198 started)) + (1 # 2))%Q).
  { rewrite H2, <- half_steps. apply half_above. lia. }
  destruct (frame_full _ H1 Hl) as [H3 [H4 H5]].
  rewrite <- frames_S in H3, H4, H5.
  assert (Hstay : forall n, frames (n + 199) started = frames 199 started).
  { induction n as [|n IH]; [reflexivity|].
    change (S n + 199)%nat with (S (n + 199)). rewrite frames_S, IH.
    apply frame_idle. exact H3. }
  split; [exact Hrise|]. split; [|exact H5].
  intros k Hk. replace k with (k - 199 + 199)%nat by lia.
  rewrite Hstay. split; [reflexivity|]. split; [exact H3|exact H4].
Qed.

End FloodAnimation.

Lemma flood_animation_completes_witness :
  Engine.waterAnimating (Engine.app (Engine.mkWorld Engine.initialState 2 [])) = false
  /\ Engine.waterLevel
       (Engine.app (Engine.frames 199 (Engine.handle (Engine.mkWorld Engine.initialState 2 [])
                                              Engine.ToggleWaterAnimation)))
     = 100%Q.
Proof.
  split; [reflexivity|].
  destruct (flood_animation_completes (Engine.mkWorld Engine.initialState 2 []) eq_refl)
    as [_ [Hdone _]].
  destruct (Hdone 199%nat (Nat.le_refl _)) as [_ [_ Hlevel]]. exact Hlevel.
Defined.

Section GeoPositions.
Import Geo Scene.
Local Open Scope R_scope.

(** X11. Markers and positions are two readings of one linear map between the
    bounding box and the terrain square: the geographic position of the
    point where [addPeakMarker] puts a peak is the latitude and longitude
    of that peak, and a marker for the geographic position of a point
    stands over that point. *)
Theorem peak_marker_round_trip (b : Bounds) (ground : R -> R -> option R) (la lo : R)
        (pos : Vector3) :
  north b <> south b -> east b <> west b ->
  (exists p g,
      addPeakMarker (Some b) true ground la lo = Some p
      /\ getGeoPosition (Some b) p = Some g
      /\ geo_lat g = la /\ geo_lon g = lo)
  /\ (exists g p,
         getGeoPosition (Some b) pos = Some g
         /\ addPeakMarker (Some b) true ground (geo_lat g) (geo_lon g) = Some p
         /\ vx p = vx pos /\ vz p = vz pos).
Proof.
  intros Hns Hew. split.
  - eexists. eexists. split; [reflexivity|]. split; [reflexivity|].
    cbn [geo_lat geo_lon vx vz]. replace 0.5 with (1 / 2) by lra.
    split; field; lra.
  - eexists. eexists. split; [reflexivity|]. split; [reflexivity|].
    cbn [geo_lat geo_lon vx vz]. replace 0.5 with (1 / 2) by lra.
    split; field; lra.
Qed.

(** X12. In a proper box a peak's marker stands inside the terrain square
    exactly when the peak lies inside the box; the north edge is z = -50,
    the west edge x = -50; and its height is decided by the ray cast down
    at its own (x, z): 2 above the ground that the ray meets, and 10
    where it meets none. *)
Theorem peak_marker_inside (b : Bounds) (ground : R -> R -> option R) (la lo : R) :
  south b < north b -> west b < east b ->
  exists p,
    addPeakMarker (Some b) true ground la lo = Some p
    /\ (-50 <= vx p <= 50 <-> west b <= lo <= east b)
    /\ (-50 <= vz p <= 50 <-> south b <= la <= north b)
    /\ (lo = west b -> vx p = -50)
    /\ (la = north b -> vz p = -50)
    /\ vy p = match ground (vx p) (vz p) with
              | Some py => py + 2
              | None => 10
              end.
Proof.
  intros Hns Hew. eexists. split; [reflexivity|]. cbn [vx vy vz].
  set (dx := east b - west b). set (dz := north b - south b).
  assert (Edx : dx = east b - west b) by reflexivity.
  assert (Edz : dz = north b - south b) by reflexivity.
  assert (Hdx : 0 < dx) by lra.
  assert (Hdz : 0 < dz) by lra.
  assert (Ex : (lo - west b) / dx * dx = lo - west b) by (field; lra).
  assert (Ez : (north b - la) / dz * dz = north b - la) by (field; lra).
  set (u := (lo - west b) / dx) in *. set (v := (north b - la) / dz) in *.
  clearbody u v dx dz.
  split; [|split; [|split; [|split]]].
  - split; intros H.
    + assert (0 <= u <= 1) by lra.
      assert (0 <= u * dx <= dx) by (split; nra). lra.
    + assert (0 <= u * dx <= dx) by lra.
      assert (0 <= u <= 1) by (split; nra). lra.
  - split; intros H.
    + assert (0 <= v <= 1) by lra.
      assert (0 <= v * dz <= dz) by (split; nra). lra.
    + assert (0 <= v * dz <= dz) by lra.
      assert (0 <= v <= 1) by (split; nra). lra.
  - intros E. assert (u * dx = 0) by lra. assert (u = 0) by nra. lra.
  - intros E. assert (v * dz = 0) by lra. assert (v = 0) by nra. lra.
  - reflexivity.
Qed.

Lemma peak_marker_round_trip_witness :
  Geo.north Engine.everest <> Geo.south Engine.everest
  /\ Geo.east Engine.everest <> Geo.west Engine.everest
  /\ exists p g,
      Scene.addPeakMarker (Some Engine.everest) true (fun _ _ => None) 27.9881 86.925
      = Some p
      /\ Scene.getGeoPosition (Some Engine.everest) p = Some g
      /\ Scene.geo_lat g = 27.9881 /\ Scene.geo_lon g = 86.925.
Proof.
  assert (H1 : Geo.north Engine.everest <> Geo.south Engine.everest)
    by (cbn; lra).
  assert (H2 : Geo.east Engine.everest <> Geo.west Engine.everest)
    by (cbn; lra).
  split; [exact H1|]. split; [exact H2|].
  exact (proj1 (peak_marker_round_trip Engine.everest (fun _ _ => None) 27.9881 86.925
                  (Scene.mkVector3 0 0 0) H1 H2)).
Defined.

Lemma peak_marker_inside_witness :
  Geo.south Engine.everest < Geo.north Engine.everest
  /\ Geo.west Engine.everest < Geo.east Engine.everest
  /\ exists p,
      Scene.addPeakMarker (Some Engine.everest) true (fun _ _ => Some 3) 27.9881 86.925
      = Some p
      /\ -50 <= Scene.vx p <= 50
      /\ Scene.vy p = 5.
Proof.
  assert (H1 : Geo.south Engine.everest < Geo.north Engine.everest)
    by (cbn; lra).
  assert (H2 : Geo.west Engine.everest < Geo.east Engine.everest)
    by (cbn; lra).
  split; [exact H1|]. split; [exact H2|].
  destruct (peak_marker_inside Engine.everest (fun _ _ => Some 3) 27.9881 86.925 H1 H2)
    as [p [Hp [Hx [_ [_ [_ Hy]]]]]].
  exists p. split; [exact Hp|]. split; [apply Hx; cbn; lra|].
  rewrite Hy. lra.
Defined.

End GeoPositions.

Section OrbitControls.
Import Scene.
Local Open Scope R_scope.

Lemma clampPhi_range (phi : R) : 0.1 <= clampPhi phi <= PI / 2 - 0.1.
Proof.
  pose proof PI2_1 as Hpi. unfold clampPhi.
  split; [apply Rmax_l|].
  apply Rmax_lub; [lra|apply Rmin_l].
Qed.

Lemma clampRadius_range (radius : R) : 20 <= clampRadius radius <= 300.
Proof.
  unfold clampRadius. split; [apply Rmax_l|].
  apply Rmax_lub; [lra|apply Rmin_l].
Qed.

Lemma control_keeps (c : Controls) (e : ControlEvent) :
  orbit_ok c -> orbit_ok (control c e).
Proof.
  intros [Hp Hr]. unfold orbit_ok.
  destruct e as [x y|x y| | |d|ts|ts| |r|m]; cbn [control].
  - destruct (isOrbit c); cbn [orbitPhi orbitRadius]; split; assumption.
  - destruct (isOrbit c && isDragging c); cbn [orbitPhi orbitRadius];
      split; try assumption. apply clampPhi_range.
  - cbn [orbitPhi orbitRadius]; split; assumption.
  - cbn [orbitPhi orbitRadius]; split; assumption.
  - destruct (isOrbit c); cbn [orbitPhi orbitRadius]; split; try assumption.
    apply clampRadius_range.
  - destruct (isOrbit c); [|split; assumption].
    destruct ts as [|t0 [|t1 [|t2 ts]]]; cbn [orbitPhi orbitRadius];
      split; assumption.
  - destruct (isOrbit c); [|split; assumption].
    destruct ts as [|t0 [|t1 [|t2 ts]]]; [split; assumption| | |split; assumption].
    + destruct (isTouching c); cbn [orbitPhi orbitRadius]; split; try assumption.
      apply clampPhi_range.
    + cbn [orbitPhi orbitRadius]. split; [assumption|apply clampRadius_range].
  - cbn [orbitPhi orbitRadius]; split; assumption.
  - destruct (isOrbit c && negb (isDragging c)); cbn [orbitPhi orbitRadius];
      split; assumption.
  - cbn [orbitPhi orbitRadius]; split; assumption.
Qed.

Lemma controlled_ok (events : list ControlEvent) : orbit_ok (controlled events).
Proof.
  unfold controlled.
  assert (H0 : orbit_ok initialControls).
  { pose proof PI2_1. unfold orbit_ok, initialControls. cbn [orbitPhi orbitRadius]. lra. }
  revert H0. generalize initialControls as c.
  induction events as [|e events IH]; intros c Hc; [exact Hc|].
  cbn [fold_left]. apply IH. apply control_keeps. exact Hc.
Qed.

(** X13. However the mouse, the wheel, the touch screen, the frames of the
    auto-rotation and the mode switches follow one another, the polar
    angle of the orbit stays in [0.1, pi/2 - 0.1] and its radius in
    [20, 300]; so the position that [updateOrbitCamera] gives the camera
    is at that radius from the origin and strictly above the plane y = 0. *)
Theorem orbit_camera_above_ground (events : list ControlEvent) :
  let c := controlled events in
  let p := updateOrbitCamera c in
  0.1 <= orbitPhi c <= PI / 2 - 0.1
  /\ 20 <= orbitRadius c <= 300
  /\ vx p * vx p + vy p * vy p + vz p * vz p = orbitRadius c * orbitRadius c
  /\ 0 < vy p.
Proof.
  intros c p. destruct (controlled_ok events) as [Hp Hr]. fold c in Hp, Hr.
  split; [exact Hp|]. split; [exact Hr|]. unfold p, updateOrbitCamera. cbn [vx vy vz].
  split.
  - pose proof (sin2_cos2 (orbitPhi c)) as E1.
    pose proof (sin2_cos2 (orbitAngle c)) as E2. unfold Rsqr in E1, E2.
    set (sp := sin (orbitPhi c)) in *. set (cp := cos (orbitPhi c)) in *.
    set (sa := sin (orbitAngle c)) in *. set (ca := cos (orbitAngle c)) in *.
    set (r := orbitRadius c).
    replace (r * sp * ca * (r * sp * ca) + r * cp * (r * cp) + r * sp * sa * (r * sp * sa))
      with (r * r * (sp * sp * (sa * sa + ca * ca) + cp * cp)) by ring.
    rewrite E2, Rmult_1_r, E1. ring.
  - apply Rmult_lt_0_compat; [lra|]. apply cos_gt_0; lra.
Qed.

End OrbitControls.

Section MeasuringTool.
Import Scene Measure.
Local Open Scope R_scope.

Lemma removeMarker_all (labels scene : list Marker) :
  (forall o, In o scene -> In (marker_id o) (map marker_id labels)) ->
  fold_left removeMarker labels scene = [].
Proof.
  revert scene. induction labels as [|m labels IH]; intros scene H.
  - destruct scene as [|o scene]; [reflexivity|].
    destruct (H o (or_introl eq_refl)).
  - cbn [fold_left]. apply IH. intros o Ho.
    unfold removeMarker in Ho. apply filter_In in Ho. destruct Ho as [Ho Hne].
    destruct (H o Ho) as [E|Hin]; [|exact Hin].
    rewrite E, Nat.eqb_refl in Hne. discriminate Hne.
Qed.

Lemma clear_markers (labels : list Marker) : fold_left removeMarker labels labels = [].
Proof. apply removeMarker_all. intros o Ho. apply in_map. exact Ho. Qed.

Lemma removeLine_self (l : Segment) : removeLine [l] l = [].
Proof. unfold removeLine. cbn [filter]. rewrite Nat.eqb_refl. reflexivity. Qed.

Lemma clear_ok (p : Panel) :
  sceneMarkers p = measureLabels p ->
  sceneLines p = match measureLine p with Some l => [l] | None => [] end ->
  clickListener p = measureMode p ->
  panel_ok (clearMeasurePoints p).
Proof.
  intros Hm Hl Hc. unfold panel_ok, clearMeasurePoints.
  cbn [measurePoints measureLabels measureLine sceneMarkers sceneLines
       clickListener measureMode List.length map].
  rewrite Hm, clear_markers, Hl.
  repeat split; try reflexivity; try lia; try assumption.
  destruct (measureLine p) as [l|]; [apply removeLine_self|reflexivity].
Qed.

Lemma mark_fields (point : Vector3) (p : Panel) :
  measurePoints (mark point p) = measurePoints p ++ [point]
  /\ measureLabels (mark point p) = measureLabels p ++ [mkMarker (created p) point]
  /\ sceneMarkers (mark point p) = sceneMarkers p ++ [mkMarker (created p) point]
  /\ sceneLines (mark point p) = sceneLines p
  /\ measureLine (mark point p) = measureLine p
  /\ clickListener (mark point p) = clickListener p
  /\ measureMode (mark point p) = measureMode p.
Proof. repeat split; reflexivity. Qed.

Lemma click_ok (hasTerrain : bool) (hit : option Vector3) (p : Panel) :
  panel_ok p -> panel_ok (onMeasureClick hasTerrain hit p).
Proof.
  intros Hp. unfold onMeasureClick.
  destruct (negb (measureMode p) || negb hasTerrain) eqn:Hg; [exact Hp|].
  destruct hit as [point|]; [|exact Hp].
  apply orb_false_elim in Hg. destruct Hg as [Hmode _].
  apply negb_false_iff in Hmode.
  destruct Hp as [Hlen [Hat [Hsm [Hsl [Hline [Hcl Hoff]]]]]].
  destruct (mark_fields point p) as [F1 [F2 [F3 [F4 [F5 [F6 F7]]]]]].
  rewrite F1, length_app. cbn [List.length].
  destruct (measurePoints p) as [|a [|b rest]] eqn:Hpts.
  - (* first point *)
    cbn [List.length Nat.add Nat.eqb Nat.ltb Nat.leb].
    unfold panel_ok. rewrite ?F1, ?F2, ?F3, ?F4, ?F5, ?F6, ?F7, ?Hpts, ?map_app, ?Hat.
    cbn [map marker_at app List.length].
    destruct (measureLine p) as [l|]; [discriminate Hline|].
    repeat split; try assumption; try lia; try congruence.
  - (* second point *)
    cbn [List.length Nat.add Nat.eqb].
    unfold calculateMeasurement. rewrite F1, ?Hpts. cbn [app].
    unfold panel_ok.
    cbn [measurePoints measureLabels measureLine sceneMarkers sceneLines
         clickListener measureMode seg_from seg_to].
    rewrite ?F1, ?F2, ?F3, ?F4, ?F5, ?F6, ?F7, ?Hpts, ?map_app, ?Hat.
    cbn [map marker_at app List.length].
    destruct (measureLine p) as [l|]; [discriminate Hline|].
    rewrite Hsl.
    repeat split; try assumption; try lia; try congruence.
  - (* third point *)
    cbn [List.length] in Hlen.
    assert (rest = []) by (destruct rest; [reflexivity|cbn in Hlen; lia]). subst rest.
    cbn [List.length Nat.add Nat.eqb Nat.ltb Nat.leb].
    assert (Hc : panel_ok (clearMeasurePoints (mark point p))).
    { apply clear_ok; rewrite ?F2, ?F3, ?F4, ?F5, ?F6, ?F7; congruence. }
    destruct Hc as [_ [Gat [Gsm [Gsl [_ [Gcl _]]]]]].
    set (q := clearMeasurePoints (mark point p)) in *.
    destruct (mark_fields point q) as [K1 [K2 [K3 [K4 [K5 [K6 K7]]]]]].
    unfold panel_ok. rewrite K1, K2, K3, K4, K5, K6, K7, Gsm, Gsl, Gcl.
    change (measurePoints q) with (@nil Vector3).
    change (measureLabels q) with (@nil Marker).
    change (measureLine q) with (@None Segment).
    change (measureMode q) with (measureMode p).
    cbn [map marker_at app List.length].
    repeat split; try lia; try congruence.
Qed.

Lemma measure_ok (p : Panel) (e : MeasureEvent) : panel_ok p -> panel_ok (measure p e).
Proof.
  intros Hp. destruct e as [|t hit]; cbn [measure].
  - unfold toggleMeasureMode.
    destruct Hp as [Hlen [Hat [Hsm [Hsl [Hline [Hcl Hoff]]]]]].
    destruct (measureMode p) eqn:Hmode; cbn [negb].
    + unfold exitMeasureMode. apply clear_ok; assumption || reflexivity.
    + unfold panel_ok.
      cbn [measurePoints measureLabels measureLine sceneMarkers sceneLines
           clickListener measureMode].
      repeat split; try assumption; try reflexivity. discriminate.
  - destruct (clickListener p); [apply click_ok; exact Hp|exact Hp].
Qed.

(** X14. Whatever the order of presses of the measure button and clicks on the
    canvas, the tool holds at most two points, one marker at each; the
    scene holds those markers and no others, and the measuring line
    exactly when there are two points, which it joins; clicks count only
    in measure mode, and leaving the mode empties the tool. *)
Theorem measuring_tool_invariant (distance : R) (gain loss : Z) (hidden : bool)
        (events : list MeasureEvent) :
  let p := fold_left measure events (initialPanel distance gain loss hidden) in
  (List.length (measurePoints p) <= 2)%nat
  /\ map marker_at (measureLabels p) = measurePoints p
  /\ sceneMarkers p = measureLabels p
  /\ sceneLines p = match measureLine p with Some l => [l] | None => [] end
  /\ match measureLine p with
     | Some l => measurePoints p = [seg_from l; seg_to l]
     | None => (List.length (measurePoints p) < 2)%nat
     end
  /\ clickListener p = measureMode p
  /\ (measureMode p = false -> measurePoints p = []).
Proof.
  intros p. change (panel_ok p). unfold p.
  assert (H0 : panel_ok (initialPanel distance gain loss hidden)).
  { unfold panel_ok, initialPanel. cbn. repeat split; try lia; reflexivity. }
  revert H0. generalize (initialPanel distance gain loss hidden) as q.
  induction events as [|e events IH]; intros q Hq; [exact Hq|].
  cbn [fold_left]. apply IH. apply measure_ok. exact Hq.
Qed.

Lemma round_nonneg (x : R) : 0 <= x -> (0 <= round x)%Z.
Proof. intros H. unfold round. apply Zfloor_lub. lra. Qed.

Lemma round_nonpos (x : R) : x < 0 -> (round x <= 0)%Z.
Proof.
  intros H. unfold round. pose proof (Zfloor_bound (x + 1 / 2)) as B.
  apply le_IZR. assert (IZR (Zfloor (x + 1 / 2)) < 1) by lra.
  apply lt_IZR in H0. apply IZR_le. lia.
Qed.

(** X15. With one point [a] placed, a click that hits the terrain at [b] draws
    the line from [a] to [b], shows 0.3 times their distance as
    kilometres and the rounded 50-fold height difference as gain when it
    is not negative and as loss otherwise, the other of the two being 0,
    and shows the profile; the click after that starts over with its own
    point alone, the line gone, the readouts at 0 and the profile hidden. *)
Theorem second_click_measures (p : Panel) (a b c : Vector3) :
  measureMode p = true -> measurePoints p = [a] ->
  let q := onMeasureClick true (Some b) p in
  let r := onMeasureClick true (Some c) q in
  measurePoints q = [a; b]
  /\ (exists l, measureLine q = Some l /\ seg_from l = a /\ seg_to l = b)
  /\ distanceKm q = distanceTo a b * (3 / 10)
  /\ 0 <= distanceKm q
  /\ (elevationGain q + elevationLoss q)%Z = round ((vy b - vy a) * 50)
  /\ (0 <= elevationGain q)%Z /\ (elevationLoss q <= 0)%Z
  /\ (elevationGain q = 0%Z \/ elevationLoss q = 0%Z)
  /\ profileHidden q = false
  /\ measurePoints r = [c]
  /\ measureLine r = None
  /\ distanceKm r = 0 /\ elevationGain r = 0%Z /\ elevationLoss r = 0%Z
  /\ profileHidden r = true.
Proof.
  intros Hmode Hpts q r.
  assert (Eq : q = calculateMeasurement (mark b p)).
  { unfold q, onMeasureClick. rewrite Hmode. cbn [negb orb].
    destruct (mark_fields b p) as [F1 _]. rewrite F1, Hpts. reflexivity. }
  assert (Hq : measurePoints q = [a; b] /\ measureMode q = true).
  { rewrite Eq. unfold calculateMeasurement.
    destruct (mark_fields b p) as [F1 [_ [_ [_ [_ [_ F7]]]]]].
    rewrite F1, Hpts. cbn [app measurePoints measureMode]. rewrite ?F1, ?F7, ?Hpts.
    split; [reflexivity|exact Hmode]. }
  destruct Hq as [Hq Hqm].
  assert (Er : r = mark c (clearMeasurePoints (mark c q))).
  { unfold r, onMeasureClick. rewrite Hqm. cbn [negb orb].
    destruct (mark_fields c q) as [F1 _]. rewrite F1, Hq. reflexivity. }
  split; [exact Hq|].
  assert (Hd : 0 <= distanceTo a b) by (unfold distanceTo; apply sqrt_pos).
  rewrite Er. rewrite Eq. unfold calculateMeasurement.
  destruct (mark_fields b p) as [F1 _]. rewrite F1, Hpts. cbn [app].
  cbn [measureLine distanceKm elevationGain elevationLoss profileHidden
       seg_from seg_to measurePoints mark clearMeasurePoints app].
  split; [eexists; split; [reflexivity|split; reflexivity]|].
  split; [field|]. split; [lra|].
  destruct (Rle_dec 0 ((vy b - vy a) * 50)) as [Hup|Hdown].
  - pose proof (round_nonneg _ Hup).
    repeat split; try reflexivity; try lia; right; reflexivity.
  - assert (Hneg : (vy b - vy a) * 50 < 0) by lra.
    pose proof (round_nonpos _ Hneg).
    repeat split; try reflexivity; try lia; left; reflexivity.
Qed.

Lemma second_click_measures_witness :
  let p := measure (measure (initialPanel 0 0 0 true) MeasureButton)
                   (CanvasClick true (Some (mkVector3 0 1 0))) in
  measureMode p = true /\ measurePoints p = [mkVector3 0 1 0]
  /\ measurePoints (onMeasureClick true (Some (mkVector3 3 5 4)) p)
     = [mkVector3 0 1 0; mkVector3 3 5 4].
Proof.
  cbv zeta.
  assert (H1 : measureMode (measure (measure (initialPanel 0 0 0 true) MeasureButton)
                                    (CanvasClick true (Some (mkVector3 0 1 0)))) = true)
    by reflexivity.
  assert (H2 : measurePoints (measure (measure (initialPanel 0 0 0 true) MeasureButton)
                                      (CanvasClick true (Some (mkVector3 0 1 0))))
               = [mkVector3 0 1 0])
    by reflexivity.
  split; [exact H1|]. split; [exact H2|].
  exact (proj1 (second_click_measures _ (mkVector3 0 1 0) (mkVector3 3 5 4)
                  (mkVector3 0 0 0) H1 H2)).
Defined.

End MeasuringTool.

Section ProfilePlot.
Import Profile.
Local Open Scope Q_scope.

Lemma fold_min_le (rest : list Q) (e : Q) :
  fold_left Qmin rest e <= e
  /\ forall x, In x rest -> fold_left Qmin rest e <= x.
Proof.
  revert e. induction rest as [|a rest IH]; intros e.
  - split; [apply Qle_refl|intros x []].
  - cbn [fold_left]. destruct (IH (Qmin e a)) as [H1 H2]. split.
    + apply (Qle_trans _ _ _ H1). apply Q.le_min_l.
    + intros x [<-|Hx]; [|apply H2; exact Hx].
      apply (Qle_trans _ _ _ H1). apply Q.le_min_r.
Qed.

Lemma fold_max_ge (rest : list Q) (e : Q) :
  e <= fold_left Qmax rest e
  /\ forall x, In x rest -> x <= fold_left Qmax rest e.
Proof.
  revert e. induction rest as [|a rest IH]; intros e.
  - split; [apply Qle_refl|intros x []].
  - cbn [fold_left]. destruct (IH (Qmax e a)) as [H1 H2]. split.
    + apply (Qle_trans _ (Qmax e a)); [apply Q.le_max_l|exact H1].
    + intros x [<-|Hx]; [|apply H2; exact Hx].
      apply (Qle_trans _ (Qmax e a)); [apply Q.le_max_r|exact H1].
Qed.

Lemma between_min_max (l : list Q) (x : Q) : In x l -> minOf l <= x <= maxOf l.
Proof.
  destruct l as [|e rest]; [intros []|]. intros [<-|Hx]; cbn [minOf maxOf].
  - split; [exact (proj1 (fold_min_le rest e))|exact (proj1 (fold_max_ge rest e))].
  - split; [exact (proj2 (fold_min_le rest e) x Hx)
           |exact (proj2 (fold_max_ge rest e) x Hx)].
Qed.

Lemma elevations_count (ground : Q -> Q -> option Q) (x1 z1 x2 z2 : Q) :
  List.length (elevations ground x1 z1 x2 z2) = S samples.
Proof. unfold elevations. rewrite length_map, length_seq. reflexivity. Qed.

Lemma fraction_unit (i : nat) : (i <= samples)%nat -> 0 <= fraction i <= 1.
Proof.
  intros Hi. unfold fraction, samples in *.
  assert (H50 : 0 < inject_Z (Z.of_nat 50)) by reflexivity.
  split.
  - apply Qle_shift_div_l; [exact H50|]. rewrite Qmult_0_l.
    rewrite <- (Zle_Qle 0). lia.
  - apply Qle_shift_div_r; [exact H50|]. rewrite Qmult_1_l.
    rewrite <- Zle_Qle. lia.
Qed.

(** The share of the range [rng] that a height takes lies in [0, 1], and
    is 0 all along a flat line. *)
Lemma share_unit (lo hi e : Q) :
  lo <= e <= hi ->
  0 <= (e - lo) / range lo hi <= 1
  /\ (hi - lo == 0 -> (e - lo) / range lo hi == 0).
Proof.
  intros [H1 H2]. unfold range. cbv zeta.
  destruct (Qeq_bool (hi - lo) 0) eqn:E.
  - apply Qeq_bool_iff in E.
    assert (E0 : e - lo == 0) by qlra.
    split; [|intros _; rewrite E0; reflexivity].
    rewrite E0. split; [apply Qle_refl|]. unfold Qdiv. rewrite Qmult_0_l. discriminate.
  - apply Qeq_bool_neq in E.
    assert (Hd : 0 < hi - lo).
    { destruct (Q_dec (hi - lo) 0) as [[C|C]|C]; [qlra|exact C|contradiction]. }
    split; [|intros C; contradiction].
    split.
    + apply Qle_shift_div_l; [exact Hd|]. qlra.
    + apply Qle_shift_div_r; [exact Hd|]. qlra.
Qed.

(** X16. On a canvas at least 20 high, the profile line has 51 points, runs
    from the left edge to the right edge, never left of 0 or right of
    [width], and stays between 10 below the top and 10 above the bottom;
    over a flat line ([maxElev = minElev], where the range is replaced by
    1) it runs along the lower margin. *)
Theorem profile_inside_canvas (ground : Q -> Q -> option Q) (x1 z1 x2 z2 width height : Q) :
  0 <= width -> 20 <= height ->
  let elevs := elevations ground x1 z1 x2 z2 in
  let line := profileLine width height elevs in
  List.length line = 51%nat
  /\ (forall pt, In pt line ->
        0 <= fst pt <= width /\ 10 <= snd pt <= height - 10)
  /\ fst (nth 0 line (0, 0)) == 0
  /\ fst (nth 50 line (0, 0)) == width
  /\ (maxOf elevs - minOf elevs == 0 ->
      forall pt, In pt line -> snd pt == height - 10).
Proof.
  intros Hw Hh elevs line.
  assert (Hpt : forall pt, In pt line ->
            exists i s, (i <= samples)%nat
                        /\ 0 <= s <= 1
                        /\ (maxOf elevs - minOf elevs == 0 -> s == 0)
                        /\ pt = (fraction i * width, height - s * (height - 20) - 10)).
  { intros pt Hin. unfold line, profileLine in Hin. apply in_map_iff in Hin.
    destruct Hin as [i [<- Hi]]. apply in_seq in Hi.
    assert (He : In (nth i elevs 0) elevs).
    { apply nth_In. unfold elevs. rewrite elevations_count. lia. }
    destruct (share_unit _ _ _ (between_min_max _ _ He)) as [Hs Hflat].
    exists i. eexists. split; [unfold samples in *; lia|].
    split; [exact Hs|]. split; [exact Hflat|reflexivity]. }
  split; [unfold line, profileLine; rewrite length_map, length_seq; reflexivity|].
  split; [|split; [|split]].
  - intros pt Hin. destruct (Hpt pt Hin) as [i [s [Hi [Hs [_ ->]]]]].
    cbn [fst snd]. destruct (fraction_unit i Hi) as [F0 F1].
    assert (P1 : 0 <= fraction i * width) by (apply Qmult_le_0_compat; assumption).
    assert (P2 : 0 <= (1 - fraction i) * width) by (apply Qmult_le_0_compat; qlra).
    assert (P3 : 0 <= s * (height - 20)) by (apply Qmult_le_0_compat; qlra).
    assert (P4 : 0 <= (1 - s) * (height - 20)) by (apply Qmult_le_0_compat; qlra).
    split; split; qlra.
  - unfold line, profileLine. cbn [seq map nth fst samples]. unfold fraction.
    cbn [Z.of_nat]. unfold Qdiv. rewrite !Qmult_0_l. reflexivity.
  - unfold line, profileLine.
    change (fst (nth 50 (map ?f (seq 0 (S samples))) (0, 0)))
      with (fraction 50 * width).
    unfold fraction, samples. change (inject_Z (Z.of_nat 50)) with 50. field.
  - intros Hflat pt Hin. destruct (Hpt pt Hin) as [i [s [_ [_ [Hz ->]]]]].
    cbn [snd]. rewrite (Hz Hflat). ring.
Qed.

Lemma profile_inside_canvas_witness :
  0 <= 300 /\ 20 <= 100
  /\ List.length (profileLine 300 100 (elevations (fun _ _ => None) 0 0 10 10)) = 51%nat.
Proof.
  assert (H1 : 0 <= 300) by discriminate.
  assert (H2 : 20 <= 100) by discriminate.
  split; [exact H1|]. split; [exact H2|].
  exact (proj1 (profile_inside_canvas (fun _ _ => None) 0 0 10 10 300 100 H1 H2)).
Defined.

End ProfilePlot.

Section WaterPlaneFacts.
Import JSNum Engine Water.
Local Open Scope Q_scope.

(** X17. For a level between 0 and 100 and a slider of exaggeration that is
    not negative, the water plane is shown exactly when the level is
    positive, lies between 1 below the base of the terrain and 1 below
    80% of the exaggeration, hence strictly below the height [exag] of
    the brightest texel, its opacity is between 0.6 and 0.8, and the
    flooded area is round(0.7 * level), between 0 and 70: the cap at 100
    is never reached. *)
Theorem water_plane_ranges (level exag : Q) :
  0 <= level <= 100 -> 0 <= exag ->
  let p := updateWaterPlane level exag in
  (visible p = true <-> 0 < level)
  /\ -(1) <= positionY p <= exag * 0.8 - 1
  /\ positionY p < exag
  /\ 0.6 <= opacity p <= 0.8
  /\ floodedArea p = jsRound (level * 0.7)
  /\ (0 <= floodedArea p <= 70)%Z.
Proof.
  intros [H0 H100] He p. unfold p, updateWaterPlane.
  cbn [visible positionY opacity floodedArea].
  assert (F : level / 100 == level * (1 # 100)) by (field; discriminate).
  assert (Hl : 0 <= level * (1 # 100) <= 1) by (split; qlra).
  assert (P1 : 0 <= level * (1 # 100) * (exag * 0.8)).
  { apply Qmult_le_0_compat; [qlra|]. apply Qmult_le_0_compat; [exact He|discriminate]. }
  assert (P2 : 0 <= (1 - level * (1 # 100)) * (exag * 0.8)).
  { apply Qmult_le_0_compat; [qlra|]. apply Qmult_le_0_compat; [exact He|discriminate]. }
  assert (Hr : (0 <= jsRound (level * 0.7) <= 70)%Z).
  { unfold jsRound. split.
    - change 0%Z with (Qfloor 0). apply Qfloor_resp_le. qlra.
    - change 70%Z with (Qfloor (141 # 2)). apply Qfloor_resp_le. qlra. }
  split; [|split; [|split; [|split; [|split]]]].
  - split; intros H.
    + apply Qltb_lt. exact H.
    + destruct (Qltb 0 level) eqn:E; [reflexivity|]. apply Qltb_ge in E. qlra.
  - rewrite F. split; qlra.
  - rewrite F. qlra.
  - rewrite F. split; qlra.
  - apply Z.min_r. lia.
  - rewrite Z.min_r by lia. exact Hr.
Qed.

Lemma water_plane_ranges_witness :
  0 <= 50 <= 100 /\ 0 <= 2
  /\ positionY (updateWaterPlane 50 2) < 2
  /\ floodedArea (updateWaterPlane 50 2) = 35%Z.
Proof.
  assert (H1 : 0 <= 50 <= 100) by (split; discriminate).
  assert (H2 : 0 <= 2) by discriminate.
  split; [exact H1|]. split; [exact H2|].
  destruct (water_plane_ranges 50 2 H1 H2) as [_ [_ [Hy [_ [Ha _]]]]].
  split; [exact Hy|]. rewrite Ha. reflexivity.
Defined.

End WaterPlaneFacts.

Section Preserved.
Import Raster Promise Mosaic JSNum Geo Resample Engine Invariants.
Local Open Scope engine_scope.

Variable P : State -> Prop.

Lemma pres_ret {A : Type} (a : A) : preserves P (ret a).
Proof. intros w H. exact H. Qed.

Lemma pres_throw {A : Type} (msg : string) : preserves P (@throw A msg).
Proof. intros w H. exact H. Qed.

Lemma pres_emit (e : UIEvent) : preserves P (emit e).
Proof. intros w H. exact H. Qed.

Lemma pres_modify (f : State -> State) :
  (forall s, P s -> P (f s)) -> preserves P (modify f).
Proof. intros Hf w H. apply Hf. exact H. Qed.

Lemma pres_bind {A B : Type} (m : M A) (k : A -> M B) :
  preserves P m -> (forall a, preserves P (k a)) -> preserves P (bindM m k).
Proof.
  intros Hm Hk w H. unfold bindM. specialize (Hm w H).
  destruct (m w) as [w' a|w' e]; cbn [world_of] in *.
  - apply Hk. exact Hm.
  - exact Hm.
Qed.

Lemma pres_tryCatch {A : Type} (body : M A) (handler : string -> M A) :
  preserves P body -> (forall e, preserves P (handler e)) ->
  preserves P (tryCatch body handler).
Proof.
  intros Hm Hk w H. unfold tryCatch. specialize (Hm w H).
  destruct (body w) as [w' a|w' e]; cbn [world_of] in *.
  - exact Hm.
  - apply Hk. exact Hm.
Qed.

Lemma pres_host (h : Host) (c : HostCall) : preserves P (host h c).
Proof.
  unfold host. destruct (hostFault h c); [apply pres_throw|apply pres_ret].
Qed.

Lemma pres_liftResult {A : Type} (r : Result A) : preserves P (liftResult r).
Proof. destruct r; [apply pres_ret|apply pres_throw]. Qed.

Lemma pres_updateWaterPlane : preserves P updateWaterPlane.
Proof. intros w H. exact H. Qed.

(** Properties that the texture and location fields do not bear on, and
    that rebuilding the mesh keeps. *)
Hypothesis P_bounds : forall v s, P s -> P (set_bounds v s).
Hypothesis P_location : forall v s, P s -> P (set_currentLocation v s).
Hypothesis P_color : forall v s, P s -> P (set_colorTexture v s).
Hypothesis P_heightmap : forall v s, P s -> P (set_heightmapTexture v s).
Hypothesis P_satellite : forall v s, P s -> P (set_satelliteTexture v s).
Hypothesis P_mode : forall v s, P s -> P (set_satelliteMode v s).
Hypothesis P_animating : forall v s, P s -> P (set_waterAnimating v s).
Hypothesis P_rebuilt : forall w, P (app w) -> P (app (rebuilt w)).
Hypothesis P_zero : forall s, P s -> P (set_waterLevel 0 s).

Lemma pres_createTerrain : preserves P createTerrain.
Proof. intros w H. apply P_rebuilt. exact H. Qed.

Ltac pres :=
  repeat first
    [ apply pres_bind; [|intros ?]
    | apply pres_tryCatch; [|intros ?]
    | apply pres_modify; intros ? ?;
        first [ apply P_bounds | apply P_location | apply P_color | apply P_heightmap
              | apply P_satellite | apply P_mode | apply P_animating | apply P_zero ];
        assumption
    | apply pres_ret | apply pres_throw | apply pres_emit | apply pres_host
    | apply pres_liftResult | apply pres_createTerrain | apply pres_updateWaterPlane ].

Lemma pres_fetchDEM (h : Host) : preserves P (fetchDEM h).
Proof.
  intros w. unfold fetchDEM.
  destruct (bounds (app w)) as [b|].
  - revert w. change (preserves P
      (emit (ShowLoading "Fetching elevation tiles...") ;;
       emit (SetStatus FetchingDEM KLoading) ;;
       tryCatch (fetchDEM_try h b)
                (fun msg => emit HideLoading ;; emit (SetStatus (DemError msg) KError)) ;;
       ret Undefined)).
    unfold fetchDEM_try. pres.
  - revert w. change (preserves P (emit (SetStatus SetBoundsFirst KError) ;; ret Undefined)).
    pres.
Qed.

Lemma pres_loadSatelliteTexture (h : Host) : preserves P (loadSatelliteTexture h).
Proof.
  intros w. unfold loadSatelliteTexture.
  destruct (bounds (app w)) as [b|]; [|intros H; exact H].
  revert w.
  change (preserves P
    (host h CreateCanvas ;;
     canvas <- liftResult (fetchMosaicSat (loadImage h) (SatelliteTile 13) (tileRange b 13)) ;;
     host h CreateCanvas ;;
     host h DrawImageScaled ;;
     modify (set_satelliteTexture
               (Some (CanvasTexture (drawScaled h canvas (satelliteDraw b))))) ;;
     modify (fun s => set_colorTexture (satelliteTexture s) s) ;;
     createTerrain ;;
     ret Undefined)).
  pres.
Qed.

Lemma pres_loadLocationTerrain (h : Host) (name : string) (lat lon : R) :
  preserves P (loadLocationTerrain h name lat lon).
Proof.
  unfold loadLocationTerrain.
  pose proof (pres_fetchDEM h). pose proof (pres_loadSatelliteTexture h).
  pres; assumption.
Qed.

Lemma pres_toggleSatelliteMode (h : Host) : preserves P (toggleSatelliteMode h).
Proof.
  intros w. unfold toggleSatelliteMode. cbv zeta.
  pose proof (pres_loadSatelliteTexture h).
  destruct (negb (satelliteMode (app w)));
    match goal with
    | |- P (app ?v) -> P (app (world_of (?m ?v))) => revert v; change (preserves P m)
    end; pres; assumption.
Qed.

Lemma pres_onExagInput (v : Q) : preserves P (onExagInput v).
Proof.
  intros w H. unfold onExagInput. cbn [app].
  destruct (terrain (app w)), (heightmapTexture (app w)); try exact H.
  apply (P_rebuilt (mkWorld (app w) v (dom w))). exact H.
Qed.

Lemma pres_loadTexture (img : Image) : preserves P (loadTexture img).
Proof. unfold loadTexture. pres. Qed.

Lemma pres_resetWater : preserves P resetWater.
Proof. unfold resetWater. pres. Qed.

(** Every event but the three that raise the water keeps [P]. *)
Lemma pres_handle (w : World) (e : Event) :
  match e with
  | WaterInput _ | ToggleWaterAnimation | AnimationFrame =>
      P (app w) -> P (app (handle w e))
  | _ => True
  end ->
  P (app w) -> P (app (handle w e)).
Proof.
  intros Hwater H.
  destruct e; cbn [handle]; try (apply Hwater; exact H).
  - apply pres_loadLocationTerrain. exact H.
  - apply pres_fetchDEM. exact H.
  - apply pres_toggleSatelliteMode. exact H.
  - apply pres_onExagInput. exact H.
  - apply pres_resetWater. exact H.
  - apply pres_loadTexture. exact H.
  - apply P_bounds. exact H.
  - exact H.
Qed.

End Preserved.

Section WaterLevel.
Import Raster Promise Mosaic JSNum Geo Resample Engine Invariants.
Local Open Scope engine_scope.

Lemma level_zero (s : State) : level_ok (set_waterLevel 0 s).
Proof. unfold level_ok. cbn [waterLevel set_waterLevel]. split; discriminate. Qed.

Lemma level_animateFlood : preserves level_ok animateFlood.
Proof.
  intros w H. unfold animateFlood.
  destruct (waterAnimating (app w)); [|exact H].
  unfold bindM, modify. cbn [app exagValue dom waterLevel set_waterLevel].
  destruct (Qle_bool 100 (waterLevel (app w) + (1 # 2))) eqn:E.
  - unfold level_ok. cbn. split; discriminate.
  - assert (Hlt : (waterLevel (app w) + (1 # 2) < 100)%Q).
    { apply Qnot_le_lt. intros C. apply Qle_bool_iff in C. congruence. }
    unfold level_ok in *. cbn. split; qlra.
Qed.

Lemma level_handle (w : World) (e : Event) :
  slider_ok e -> level_ok (app w) -> level_ok (app (handle w e)).
Proof.
  intros He.
  apply pres_handle; try (intros; assumption); try (intros; apply level_zero).
  destruct e; try exact I; intros H; cbn [handle].
  - unfold onWaterInput, bindM, modify, updateWaterPlane, emit, world_of.
    cbn [app waterLevel set_waterLevel]. unfold level_ok. cbn [waterLevel].
    cbn [slider_ok] in He. split.
    + change (inject_Z 0 <= inject_Z level)%Q. rewrite <- Zle_Qle. lia.
    + change (inject_Z level <= inject_Z 100)%Q. rewrite <- Zle_Qle. lia.
  - unfold toggleWaterAnimation.
    destruct (waterAnimating (app w)); [exact H|].
    unfold bindM, modify. cbn [app exagValue dom].
    apply level_animateFlood. apply level_zero.
  - apply level_animateFlood. exact H.
Qed.

(** X18. While the slider sends percentages, the water level is a percentage
    after every sequence of events: the animation stops at 100, and
    nothing else raises the level. *)
Theorem water_level_bounded (exag0 : Q) (events : list Event) :
  Forall slider_ok events ->
  (0 <= waterLevel (app (run exag0 events)) <= 100)%Q.
Proof.
  intros Hev. change (level_ok (app (run exag0 events))). unfold run.
  assert (H0 : level_ok (app (mkWorld initialState exag0 []))).
  { unfold level_ok. cbn. split; discriminate. }
  revert H0. generalize (mkWorld initialState exag0 []) as w.
  induction Hev as [|e events He Hev IH]; intros w Hw; [exact Hw|].
  cbn [fold_left]. apply IH. apply level_handle; assumption.
Qed.

Lemma water_level_bounded_witness :
  Forall slider_ok [WaterInput 40; ToggleWaterAnimation; AnimationFrame]
  /\ (0 <= waterLevel (app (run 2 [WaterInput 40; ToggleWaterAnimation; AnimationFrame]))
      <= 100)%Q.
Proof.
  assert (H : Forall slider_ok [WaterInput 40; ToggleWaterAnimation; AnimationFrame]).
  { repeat constructor; cbn; lia. }
  split; [exact H|]. exact (water_level_bounded 2 _ H).
Defined.

End WaterLevel.

Section MeshSize.
Import Raster Promise Mosaic JSNum Geo Resample Mesh Engine Invariants.
Local Open Scope engine_scope.

Lemma mesh_rebuilt (w : World) : mesh_ok (app (rebuilt w)).
Proof.
  unfold mesh_ok, rebuilt, createTerrain, modify, world_of.
  cbn [app terrain set_terrain mesh_z].
  assert (Hc : Z.of_nat (List.length (planeGeometry 256)) = 66049)
    by (apply (planeGeometry_count 256); lia).
  destruct (heightmapTexture (app w)) as [t|]; [destruct (tex_image t) as [img|]|];
    [|exact Hc|exact Hc].
  unfold applyHeightmapToGeometry. rewrite length_map, length_seq. exact Hc.
Qed.

Lemma mesh_animateFlood : preserves mesh_ok animateFlood.
Proof.
  intros w H. unfold animateFlood.
  destruct (waterAnimating (app w)); [|exact H].
  unfold bindM, modify. cbn [app exagValue dom waterLevel set_waterLevel].
  destruct (Qle_bool 100 (waterLevel (app w) + (1 # 2))); exact H.
Qed.

(** X19. After every sequence of events the terrain mesh, if there is one,
    has 257 x 257 = 66049 vertices: every statement that stores a mesh
    builds it on the plane of 256 segments, with or without heightmap. *)
Theorem mesh_vertex_count (exag0 : Q) (events : list Event) :
  match terrain (app (run exag0 events)) with
  | Some m => Z.of_nat (List.length (mesh_z m)) = 66049
  | None => True
  end.
Proof.
  change (mesh_ok (app (run exag0 events))). unfold run.
  assert (H0 : mesh_ok (app (mkWorld initialState exag0 []))) by exact I.
  revert H0. generalize (mkWorld initialState exag0 []) as w.
  induction events as [|e events IH]; intros w Hw; [exact Hw|].
  cbn [fold_left]. apply IH.
  apply pres_handle; try (intros; assumption); try (intros; apply mesh_rebuilt).
  destruct e; try exact I; intros H; cbn [handle].
  - exact H.
  - unfold toggleWaterAnimation.
    destruct (waterAnimating (app w)); [exact H|].
    unfold bindM, modify. cbn [app exagValue dom].
    apply mesh_animateFlood. exact H.
  - apply mesh_animateFlood. exact H.
Qed.

End MeshSize.

Section AudioChunks.
Import AudioCapture.
Local Open Scope nat_scope.

Lemma bufferSize_pos : 0 < bufferSize.
Proof. unfold bufferSize. apply Nat.lt_0_succ. Qed.

Lemma writeAt_length (i : nat) (x : Q) (l : list Q) :
  List.length (writeAt i x l) = List.length l.
Proof.
  revert i. induction l as [|y l IH]; intros i; [destruct i; reflexivity|].
  destruct i as [|j]; cbn [writeAt List.length]; [reflexivity|]. rewrite IH. reflexivity.
Qed.

Lemma writeAt_firstn (i : nat) (x : Q) (l : list Q) :
  i < List.length l -> firstn (S i) (writeAt i x l) = firstn i l ++ [x].
Proof.
  revert i. induction l as [|y l IH]; intros i Hi; [cbn in Hi; lia|].
  destruct i as [|j]; [reflexivity|].
  cbn [List.length] in Hi. cbn [writeAt]. rewrite firstn_cons, IH by lia. reflexivity.
Qed.

Lemma push_ok (heard : list Q) (p : Processor) (sample : Q) :
  capture_ok heard p -> capture_ok (heard ++ [sample]) (push p sample).
Proof.
  intros [Hlen [Hidx [Hchunks Hcat]]]. unfold push. cbv zeta.
  assert (Hw : List.length (writeAt (bufferIndex p) sample (buffer p)) = bufferSize)
    by (rewrite writeAt_length; exact Hlen).
  assert (Hf : firstn (S (bufferIndex p)) (writeAt (bufferIndex p) sample (buffer p))
               = firstn (bufferIndex p) (buffer p) ++ [sample])
    by (apply writeAt_firstn; rewrite Hlen; exact Hidx).
  destruct (bufferSize <=? S (bufferIndex p)) eqn:E.
  - apply Nat.leb_le in E.
    assert (Hfull : S (bufferIndex p) = bufferSize) by lia.
    unfold capture_ok. cbn [buffer bufferIndex posted].
    split; [exact Hw|]. split; [exact bufferSize_pos|]. split.
    + apply Forall_app. split; [exact Hchunks|]. constructor; [exact Hw|constructor].
    + rewrite concat_app. cbn [List.concat firstn]. rewrite !app_nil_r.
      rewrite <- (firstn_all (writeAt _ _ _)), Hw, <- Hfull, Hf, app_assoc, Hcat.
      reflexivity.
  - apply Nat.leb_gt in E.
    unfold capture_ok. cbn [buffer bufferIndex posted].
    split; [exact Hw|]. split; [exact E|]. split; [exact Hchunks|].
    rewrite Hf, app_assoc, Hcat. reflexivity.
Qed.

Lemma pushes_ok (samples heard : list Q) (p : Processor) :
  capture_ok heard p -> capture_ok (heard ++ samples) (fold_left push samples p).
Proof.
  revert heard p. induction samples as [|x samples IH]; intros heard p H.
  - rewrite app_nil_r. exact H.
  - cbn [fold_left]. replace (heard ++ x :: samples) with ((heard ++ [x]) ++ samples)
      by (rewrite <- app_assoc; reflexivity).
    apply IH. apply push_ok. exact H.
Qed.

Lemma process_ok (input : list (list Q)) (heard : list Q) (p : Processor) :
  capture_ok heard p ->
  capture_ok (heard ++ firstChannel input) (fst (process input p))
  /\ snd (process input p) = true.
Proof.
  intros H. destruct input as [|channelData rest]; cbn [process firstChannel fst snd].
  - rewrite app_nil_r. split; [exact H|reflexivity].
  - split; [apply pushes_ok; exact H|reflexivity].
Qed.

Lemma captured_ok (calls : list (list (list Q))) :
  capture_ok (List.concat (map firstChannel calls)) (captured calls).
Proof.
  unfold captured.
  assert (H0 : capture_ok [] newProcessor).
  { unfold capture_ok, newProcessor. cbn [buffer bufferIndex posted List.concat firstn app].
    split; [apply repeat_length|]. split; [exact bufferSize_pos|].
    split; [constructor|reflexivity]. }
  revert H0. generalize newProcessor as p.
  change (List.concat (map firstChannel calls)) with ([] ++ List.concat (map firstChannel calls)).
  generalize (@nil Q) as heard.
  induction calls as [|input calls IH]; intros heard p H.
  - cbn [map List.concat fold_left]. rewrite app_nil_r. exact H.
  - cbn [map List.concat fold_left]. rewrite app_assoc. apply IH.
    apply process_ok. exact H.
Qed.

(** X20. The processor loses and reorders nothing: after any calls of
    [process], the chunks posted so far followed by the filled part of
    the buffer are the samples of the first channels in the order read;
    every chunk posted has 4096 samples, the index stays below 4096, so
    the number of chunks is the number of samples divided by 4096 and the
    index the remainder; and every call returns [true]. *)
Theorem capture_posts_every_sample (calls : list (list (list Q))) :
  let p := captured calls in
  let heard := List.concat (map firstChannel calls) in
  List.concat (posted p) ++ firstn (bufferIndex p) (buffer p) = heard
  /\ Forall (fun chunk => List.length chunk = 4096) (posted p)
  /\ List.length (posted p) = List.length heard / 4096
  /\ bufferIndex p = List.length heard mod 4096
  /\ forall input q, snd (process input q) = true.
Proof.
  intros p heard. destruct (captured_ok calls) as [Hlen [Hidx [Hchunks Hcat]]].
  fold p in Hlen, Hidx, Hchunks, Hcat. fold heard in Hcat.
  change 4096 with bufferSize.
  assert (Hcount : List.length heard
                   = bufferIndex p + List.length (posted p) * bufferSize).
  { rewrite <- Hcat, length_app, firstn_length_le by lia.
    assert (Hc : List.length (List.concat (posted p)) = List.length (posted p) * bufferSize).
    { clear Hcat. induction Hchunks as [|chunk chunks Hchunk _ IH]; [reflexivity|].
      cbn [List.concat List.length]. rewrite length_app, IH, Hchunk. lia. }
    lia. }
  split; [exact Hcat|]. split; [exact Hchunks|].
  pose proof bufferSize_pos as Hpos.
  split; [|split].
  - rewrite Hcount, Nat.div_add by lia. rewrite Nat.div_small by exact Hidx. reflexivity.
  - rewrite Hcount, Nat.Div0.mod_add. symmetry. apply Nat.mod_small. exact Hidx.
  - intros input q. destruct input; reflexivity.
Qed.

End AudioChunks.

Section TourFacts.
Import Scene Tour.
Local Open Scope Q_scope.

Lemma tour_event_ok (bar : Q) (t : TourState) (e : TourEvent) :
  frame_ok e -> tour_ok bar t -> tour_ok bar (tour t e).
Proof.
  intros He [Hp [Hc Hb]].
  assert (Hzero : 0 <= 0 /\ 0 < 1) by (split; [discriminate|reflexivity]).
  assert (Hfull : 0 <= 0 /\ 0 < 100) by (split; [discriminate|reflexivity]).
  assert (Hkept : tour_ok bar t) by (split; [exact Hp|]; split; assumption).
  destruct e as [n| | | | | |v| |delta]; cbn [tour].
  - unfold toggleTourMode. destruct (tourMode t); unfold tour_ok, exitTourMode;
      cbn [tourProgress cameraAt progressBar];
      (split; [exact Hp|]; split; [exact Hc|first [exact Hb|right; exact Hfull]]).
  - unfold tour_ok, exitTourMode. cbn [tourProgress cameraAt progressBar].
    split; [exact Hp|]. split; [exact Hc|right; exact Hfull].
  - unfold playTour. destruct (tourWaypoints t =? 0)%nat; exact Hkept.
  - exact Hkept.
  - unfold restartTour, playTour. cbn [tourWaypoints].
    destruct (tourWaypoints t =? 0)%nat; unfold tour_ok;
      cbn [tourProgress cameraAt progressBar];
      (split; [exact Hzero|]; split; [exact Hc|right; exact Hfull]).
  - unfold restartTour, playTour. cbn [tourWaypoints].
    destruct (tourWaypoints t =? 0)%nat; unfold tour_ok;
      cbn [tourProgress cameraAt progressBar];
      (split; [exact Hzero|]; split; [exact Hc|right; exact Hfull]).
  - exact Hkept.
  - exact Hkept.
  - destruct (cameraMode t); try exact Hkept.
    unfold updateTour.
    destruct (negb (tourPlaying t) || negb (tourCurves t)); [exact Hkept|].
    cbv zeta. cbn [frame_ok] in He.
    assert (Hd : 0 <= delta / tourDuration).
    { unfold tourDuration. apply Qle_shift_div_l; [reflexivity|].
      rewrite Qmult_0_l. exact He. }
    destruct (Qle_bool 1 (tourProgress t + delta / tourDuration)) eqn:E.
    + unfold tour_ok, pauseTour. cbn [tourProgress cameraAt progressBar].
      split; [exact Hzero|]. split; assumption.
    + assert (Hlt : tourProgress t + delta / tourDuration < 1).
      { apply Qnot_le_lt. intros C. apply Qle_bool_iff in C. congruence. }
      assert (H0 : 0 <= tourProgress t + delta / tourDuration) by (destruct Hp; qlra).
      unfold tour_ok. cbn [tourProgress cameraAt progressBar].
      split; [split; assumption|]. split.
      * intros at_ Hat. injection Hat as <-. split; assumption.
      * right. split; qlra.
Qed.

(** X21. While the frames come with elapsed times that are not negative, the
    progress of the tour stays in [0, 1) whatever is pressed: reaching 1
    resets it to 0 and pauses the tour.  So the camera is only ever put
    at a parameter in [0, 1) of the closed curve, and the progress bar,
    once written, shows less than 100%. *)
Theorem tour_progress_below_one (bar : Q) (events : list TourEvent) :
  Forall frame_ok events ->
  let t := toured bar events in
  (0 <= tourProgress t /\ tourProgress t < 1)
  /\ (forall at_, cameraAt t = Some at_ -> 0 <= at_ /\ at_ < 1)
  /\ (progressBar t = bar \/ (0 <= progressBar t /\ progressBar t < 100)).
Proof.
  intros Hev t. change (tour_ok bar t). unfold t, toured.
  assert (H0 : tour_ok bar (initialTour bar)).
  { unfold tour_ok, initialTour. cbn [tourProgress cameraAt progressBar].
    split; [split; [discriminate|reflexivity]|].
    split; [intros at_ Hat; discriminate Hat|left; reflexivity]. }
  revert H0. generalize (initialTour bar) as s.
  induction Hev as [|e events He Hev IH]; intros s Hs; [exact Hs|].
  cbn [fold_left]. apply IH. apply tour_event_ok; assumption.
Qed.

Lemma tour_progress_below_one_witness :
  Forall frame_ok [TourButton 4; TourPlay; TourFrame 30; TourFrame 30]
  /\ tourProgress (toured 0 [TourButton 4; TourPlay; TourFrame 30; TourFrame 30]) < 1.
Proof.
  assert (H : Forall frame_ok [TourButton 4; TourPlay; TourFrame 30; TourFrame 30]).
  { repeat constructor; discriminate. }
  split; [exact H|]. exact (proj2 (proj1 (tour_progress_below_one 0 _ H))).
Defined.

Lemma tour_forgets_speed (t : TourState) (e : TourEvent) :
  withoutSpeed (tour t e) = withoutSpeed (tour (withoutSpeed t) e).
Proof.
  destruct t as [mode playing waypoints curves progress speed camera at_ bar].
  destruct e as [n| | | | | |v| |delta];
    cbv [tour toggleTourMode exitTourMode playTour restartTour pauseTour updateTour
         toggleFlyMode withoutSpeed tourMode tourPlaying tourWaypoints tourCurves
         tourProgress tourSpeed cameraMode cameraAt progressBar];
    destruct mode, playing, curves, camera; cbn [negb orb];
    repeat match goal with
           | |- context [if ?c then _ else _] => destruct c
           end;
    reflexivity.
Qed.

(** X22. The speed slider of the tour writes [state.tourSpeed] and nothing
    reads it: the tour after any events is, but for that field, the tour
    after the same events with the slider never touched. *)
Theorem tour_speed_ignored (bar : Q) (events : list TourEvent) :
  withoutSpeed (toured bar events)
  = withoutSpeed (toured bar (filter (fun e => negb (isSpeedInput e)) events)).
Proof.
  unfold toured.
  assert (H : forall s1 s2, withoutSpeed s1 = withoutSpeed s2 ->
              withoutSpeed (fold_left tour events s1)
              = withoutSpeed (fold_left tour
                                (filter (fun e => negb (isSpeedInput e)) events) s2)).
  { induction events as [|e events IH]; intros s1 s2 Hs; [exact Hs|].
    cbn [fold_left filter].
    destruct (isSpeedInput e) eqn:E; cbn [negb].
    - apply IH. destruct e; try discriminate E. rewrite <- Hs. reflexivity.
    - cbn [fold_left]. apply IH.
      rewrite (tour_forgets_speed s1 e), (tour_forgets_speed s2 e), Hs. reflexivity. }
  apply H. reflexivity.
Qed.

End TourFacts.

Section FlightFacts.
Import JSNum Flight.
Local Open Scope Q_scope.

Lemma orFive_same (speed : Q) : 2 <= speed -> orFive speed = speed.
Proof.
  intros H. unfold orFive. destruct (Qeq_bool speed 0) eqn:E; [|reflexivity].
  apply Qeq_bool_iff in E. exfalso. qlra.
Qed.

Lemma steer_speed (p : Plane) (f : FlyFrame) :
  0 <= delta f -> 2 <= flySpeed p <= 15 -> 2 <= flySpeed (steer p f) <= 15.
Proof.
  intros Hd [H2 H15]. unfold steer. cbv zeta.
  destruct (direction f) as [[dx dy] dz]. cbn [flySpeed].
  rewrite (orFive_same _ H2).
  assert (H1 : 2 <= (if keyShift (keys f)
                     then Qmin 15 (flySpeed p + 5 * delta f) else flySpeed p)
               /\ (if keyShift (keys f)
                   then Qmin 15 (flySpeed p + 5 * delta f) else flySpeed p) <= 15).
  { destruct (keyShift (keys f)); [|split; assumption]. split.
    - apply Q.min_glb; [discriminate|qlra].
    - apply Q.le_min_l. }
  destruct H1 as [G2 G15].
  destruct (keyControl (keys f)); [|split; assumption].
  rewrite (orFive_same _ G2). split.
  - apply Q.le_max_l.
  - apply Q.max_lub; [discriminate|qlra].
Qed.

Lemma fly_ok (hasTerrain : bool) (p : Plane) (f : FlyFrame) :
  0 <= delta f -> plane_ok p -> plane_ok (fly hasTerrain p f).
Proof.
  intros Hd [Hs _]. unfold fly. cbv zeta.
  match goal with
  | |- plane_ok (if ?c then _ else _) => destruct c eqn:E
  end.
  - unfold plane_ok. cbn [flySpeed plane_x plane_z].
    split; [split; discriminate|]. split; discriminate.
  - apply orb_false_elim in E. destruct E as [Ex Ez].
    apply Qltb_ge in Ex. apply Qltb_ge in Ez.
    unfold plane_ok. cbn [flySpeed plane_x plane_z].
    split; [apply steer_speed; assumption|split; assumption].
Qed.

(** X23. However the keys are held and wherever the plane points, while time
    does not run backwards the speed of the plane stays between 2 and 15
    and the plane within 55 of the centre along x and z after every
    frame: beyond that it is put back at (0, 25, 0) with speed 5. *)
Theorem flight_stays_in_bounds (hasTerrain : bool) (frames : list FlyFrame) :
  Forall (fun f => 0 <= delta f) frames ->
  let p := fold_left (fly hasTerrain) frames initialPlane in
  (2 <= flySpeed p /\ flySpeed p <= 15)
  /\ Qabs (plane_x p) <= 55
  /\ Qabs (plane_z p) <= 55.
Proof.
  intros Hf p. change (plane_ok p). unfold p.
  assert (H0 : plane_ok initialPlane).
  { unfold plane_ok, initialPlane. cbn [flySpeed plane_x plane_z].
    split; [split; discriminate|]. split; discriminate. }
  revert H0. generalize initialPlane as q.
  induction Hf as [|f frames Hd Hf IH]; intros q Hq; [exact Hq|].
  cbn [fold_left]. apply IH. apply fly_ok; assumption.
Qed.

Lemma flight_stays_in_bounds_witness :
  Forall (fun f => 0 <= delta f)
         [mkFlyFrame (mkKeys true false false false) 1 (0, 0, -(1)) (fun _ _ => None)]
  /\ flySpeed (fold_left (fly true)
                 [mkFlyFrame (mkKeys true false false false) 1 (0, 0, -(1))
                             (fun _ _ => None)]
                 initialPlane) <= 15.
Proof.
  assert (H : Forall (fun f => 0 <= delta f)
                [mkFlyFrame (mkKeys true false false false) 1 (0, 0, -(1))
                            (fun _ _ => None)]).
  { repeat constructor. discriminate. }
  split; [exact H|]. exact (proj2 (proj1 (flight_stays_in_bounds true _ H))).
Defined.

(** X24. Over terrain, a frame that keeps the plane inside the bounds leaves
    it where steering put it if that is 8 or more above the ground, and
    otherwise lifts it by a fifth of what it lacks: higher than steering
    put it, and still less than 8 above the ground. *)
Theorem flight_floor (p : Plane) (f : FlyFrame) (ground : Q) :
  let pos := steer p f in
  terrainUnder f (plane_x pos) (plane_z pos) = Some ground ->
  Qabs (plane_x pos) <= 55 -> Qabs (plane_z pos) <= 55 ->
  (ground + 8 <= plane_y pos -> plane_y (fly true p f) = plane_y pos)
  /\ (plane_y pos < ground + 8 ->
      plane_y (fly true p f) == plane_y pos + (ground + 8 - plane_y pos) * (1 # 5)
      /\ plane_y pos < plane_y (fly true p f)
      /\ plane_y (fly true p f) < ground + 8).
Proof.
  intros pos Hg Hx Hz. unfold fly. cbv zeta. fold pos. rewrite Hg.
  apply Qltb_ge in Hx. apply Qltb_ge in Hz. rewrite Hx, Hz. cbn [orb plane_y].
  split; intros H.
  - assert (E : Qltb (plane_y pos) (ground + 8) = false) by (apply Qltb_ge; exact H).
    rewrite E. reflexivity.
  - assert (E : Qltb (plane_y pos) (ground + 8) = true) by (apply Qltb_lt; exact H).
    rewrite E. unfold lerp. split; [ring|]. split; qlra.
Qed.

Lemma flight_floor_witness :
  let f := mkFlyFrame (mkKeys false false false false) 1 (0, 0, -(1))
                      (fun _ _ => Some 15) in
  terrainUnder f (plane_x (steer initialPlane f)) (plane_z (steer initialPlane f))
  = Some 15
  /\ Qabs (plane_x (steer initialPlane f)) <= 55
  /\ Qabs (plane_z (steer initialPlane f)) <= 55
  /\ plane_y (steer initialPlane f) < plane_y (fly true initialPlane f).
Proof.
  intros f.
  assert (H1 : terrainUnder f (plane_x (steer initialPlane f))
                              (plane_z (steer initialPlane f)) = Some 15)
    by reflexivity.
  assert (H2 : Qabs (plane_x (steer initialPlane f)) <= 55) by discriminate.
  assert (H3 : Qabs (plane_z (steer initialPlane f)) <= 55) by discriminate.
  split; [exact H1|]. split; [exact H2|]. split; [exact H3|].
  apply (proj2 (flight_floor initialPlane f 15 H1 H2 H3)). reflexivity.
Defined.

End FlightFacts.
